(** * Approval reconciliation: the Solana approval verifier and the token
      transfer executor

    A shallow embedding of the two polling services of the repository:
    [verifySolanaApprovals] (the Verifier) and [transferApprovedTokens]
    (the Transfer Executor), together with the [solana_approvals]
    collection they share.  Asynchronous JavaScript code is written in a
    small state-and-exception monad over the collection; the ledger (the
    Solana RPC connection and SDK constructors) is an explicit environment
    of possibly-throwing functions.  The services and the ingestion route
    are given twice: on a store that takes every call, and with the store's
    answers as a parameter; the two agree when every answer is an
    acceptance. *)

From Stdlib Require Import ZArith String List Bool Lia DecimalString.
Import ListNotations.
Local Open Scope string_scope.

(* ================================================================== *)
(** ** JavaScript values *)

(** A value that is either a string or [undefined]/[null]. *)
Definition truthy (s : option string) : bool :=
  match s with
  | Some x => negb (String.eqb x EmptyString)
  | None => false
  end.

(** [a || b] on such values. *)
Definition or_else (a b : option string) : option string :=
  if truthy a then a else b.

(** The outcome of a call that may throw: [inl msg] is a thrown [Error]
    whose [message] is [msg]. *)
Definition Exc (A : Type) : Type := (string + A)%type.

(** [BigInt.prototype.toString()]. *)
Definition bigint_toString (n : Z) : string :=
  NilZero.string_of_int (Z.to_int n).

(** The members every object literal inherits from [Object.prototype].  A
    property lookup [obj[name]] with one of these names finds the inherited
    member whatever keys [obj] has of its own: a function (for [__proto__],
    the prototype object), which is truthy and has none of the properties
    the services destructure from it. *)
Definition Object_prototype : list string :=
  ["constructor"; "hasOwnProperty"; "isPrototypeOf"; "propertyIsEnumerable";
   "toLocaleString"; "toString"; "valueOf"; "__defineGetter__";
   "__defineSetter__"; "__lookupGetter__"; "__lookupSetter__"; "__proto__"].

(** [name] is a string that names an inherited member. *)
Definition inherited (name : option string) : bool :=
  match name with
  | Some n => existsb (String.eqb n) Object_prototype
  | None => false
  end.

(* ================================================================== *)
(** ** Data model: documents of the [solana_approvals] collection *)

Record SolanaApprovalDetail := {
  tokenAccount : string;
  mint : string;
  amount : string;
  decimals : Z;
  symbol : option string
}.

Record VerificationResult := {
  vr_tokenAccount : string;
  vr_verified : bool;
  vr_delegatedAmount : option string;
  vr_reason : option string
}.

Record TransferResult := {
  tr_tokenAccount : string;
  tr_mint : option string;
  tr_amount : option string;
  tr_success : bool;
  tr_reason : option string
}.

(** One approval document.  Fields that the ingestion route writes as
    [null], and fields that only a later [$set] creates, are options. *)
Record ApprovalDoc := {
  _id : nat;
  owner : string;
  delegate : option string;
  approvals : list SolanaApprovalDetail;
  transactionSignature : string;
  network : option string;
  createdAt : Z;
  submitted : bool;
  submittedAt : Z;
  executed : option bool;
  executedAt : option Z;
  verified : option bool;
  verifiedAt : option Z;
  reason : option string;
  verificationResults : option (list VerificationResult);
  transferred : option bool;
  transferredAt : option Z;
  transferTransactionSignature : option string;
  transferResults : option (list TransferResult)
}.

(** The document [insertOne] writes in the ingestion route. *)
Definition POST_document (id : nat) (owner0 : string) (delegate0 : string)
    (approvals0 : list SolanaApprovalDetail) (sig : string) (network0 : string)
    (date : Z) : ApprovalDoc :=
  {| _id := id; owner := owner0; delegate := Some delegate0;
     approvals := approvals0; transactionSignature := sig;
     network := Some network0; createdAt := date; submitted := true;
     submittedAt := date; executed := Some false; executedAt := None;
     verified := Some false; verifiedAt := None; reason := None;
     verificationResults := None; transferred := None; transferredAt := None;
     transferTransactionSignature := None; transferResults := None |}.

(** [field === true] on a boolean-or-absent field. *)
Definition is_true (b : option bool) : bool :=
  match b with Some true => true | _ => false end.

(** [field === false]. *)
Definition is_false (b : option bool) : bool :=
  match b with Some false => true | _ => false end.

(** *** The [$set] documents of the two services *)

(** [{ executed: true, executedAt: new Date(), reason }] *)
Definition set_executed (date : Z) (why : string) (d : ApprovalDoc) : ApprovalDoc :=
  {| _id := _id d; owner := owner d; delegate := delegate d;
     approvals := approvals d; transactionSignature := transactionSignature d;
     network := network d; createdAt := createdAt d; submitted := submitted d;
     submittedAt := submittedAt d;
     executed := Some true; executedAt := Some date;
     verified := verified d; verifiedAt := verifiedAt d;
     reason := Some why;
     verificationResults := verificationResults d;
     transferred := transferred d; transferredAt := transferredAt d;
     transferTransactionSignature := transferTransactionSignature d;
     transferResults := transferResults d |}.

(** [{ verified: true, verifiedAt: new Date(), verificationResults }] *)
Definition set_verified (date : Z) (results : list VerificationResult)
    (d : ApprovalDoc) : ApprovalDoc :=
  {| _id := _id d; owner := owner d; delegate := delegate d;
     approvals := approvals d; transactionSignature := transactionSignature d;
     network := network d; createdAt := createdAt d; submitted := submitted d;
     submittedAt := submittedAt d;
     executed := executed d; executedAt := executedAt d;
     verified := Some true; verifiedAt := Some date;
     reason := reason d;
     verificationResults := Some results;
     transferred := transferred d; transferredAt := transferredAt d;
     transferTransactionSignature := transferTransactionSignature d;
     transferResults := transferResults d |}.

(** [{ verified: false, verifiedAt: new Date(), verificationResults,
       reason: 'Some approvals failed verification' }] *)
Definition set_unverified (date : Z) (results : list VerificationResult)
    (d : ApprovalDoc) : ApprovalDoc :=
  {| _id := _id d; owner := owner d; delegate := delegate d;
     approvals := approvals d; transactionSignature := transactionSignature d;
     network := network d; createdAt := createdAt d; submitted := submitted d;
     submittedAt := submittedAt d;
     executed := executed d; executedAt := executedAt d;
     verified := Some false; verifiedAt := Some date;
     reason := Some "Some approvals failed verification";
     verificationResults := Some results;
     transferred := transferred d; transferredAt := transferredAt d;
     transferTransactionSignature := transferTransactionSignature d;
     transferResults := transferResults d |}.

(** [{ transferred: true, transferredAt: new Date(), transferResults,
       reason: 'No valid transfers to execute' }] *)
Definition set_nothing_transferred (date : Z) (results : list TransferResult)
    (d : ApprovalDoc) : ApprovalDoc :=
  {| _id := _id d; owner := owner d; delegate := delegate d;
     approvals := approvals d; transactionSignature := transactionSignature d;
     network := network d; createdAt := createdAt d; submitted := submitted d;
     submittedAt := submittedAt d;
     executed := executed d; executedAt := executedAt d;
     verified := verified d; verifiedAt := verifiedAt d;
     reason := Some "No valid transfers to execute";
     verificationResults := verificationResults d;
     transferred := Some true; transferredAt := Some date;
     transferTransactionSignature := transferTransactionSignature d;
     transferResults := Some results |}.

(** [{ transferred: true, transferredAt: new Date(),
       transferTransactionSignature: signature, transferResults }] *)
Definition set_transferred (date : Z) (signature : string)
    (results : list TransferResult) (d : ApprovalDoc) : ApprovalDoc :=
  {| _id := _id d; owner := owner d; delegate := delegate d;
     approvals := approvals d; transactionSignature := transactionSignature d;
     network := network d; createdAt := createdAt d; submitted := submitted d;
     submittedAt := submittedAt d;
     executed := executed d; executedAt := executedAt d;
     verified := verified d; verifiedAt := verifiedAt d;
     reason := reason d;
     verificationResults := verificationResults d;
     transferred := Some true; transferredAt := Some date;
     transferTransactionSignature := Some signature;
     transferResults := Some results |}.

(** *** Lifecycle state

    The collection has no [lifecycleState] field: the state of a record is
    carried by the flags [verified], [executed] and [transferred] (and by
    [verifiedAt], which distinguishes a record whose grants were checked and
    rejected from one that was never checked). *)
Inductive LifecycleState :=
  | Submitted | Verified | VerificationFailed | Transferred | TransferFailed.

Definition lifecycleState (d : ApprovalDoc) : LifecycleState :=
  if is_true (transferred d) then Transferred
  else if is_true (executed d) then
    (if is_true (verified d) then TransferFailed else VerificationFailed)
  else if is_true (verified d) then Verified
  else match verifiedAt d with
       | Some _ => VerificationFailed
       | None => Submitted
       end.

(** The edges of the lifecycle graph. *)
Definition lifecycle_edge (s t : LifecycleState) : bool :=
  match s, t with
  | Submitted, Verified | Submitted, VerificationFailed
  | Verified, Transferred | Verified, TransferFailed => true
  | _, _ => false
  end.

(* ================================================================== *)
(** ** The ledger and the SDK *)

Module SplToken.
(** What [getAccount] returns, as far as the services read it. *)
Record Account := {
  delegate : option string;
  delegatedAmount : Z;
  amount : Z
}.
End SplToken.

(** [meta.err], when it is not [null], as its [JSON.stringify] text. *)
Record TransactionMeta := { err : option string }.
Record TransactionResponse := { meta : option TransactionMeta }.

(** One [createTransferInstruction(source, destination, authority, amount)]. *)
Record TransferInstruction := {
  ix_source : string;
  ix_destination : string;
  ix_authority : string;
  ix_amount : Z
}.

(** A [Transaction]: its instructions, in the order they were added. *)
Definition Transaction := list TransferInstruction.

(** The environment of one polling cycle: the process environment
    variables, the clock, the SDK constructors and the RPC connection.
    Public keys are represented by their base58 text, which is what
    [toString()] returns. *)
Record Env := {
  now : Z;
  SOLANA_MAINNET_RPC : option string;
  SOLANA_MAINNET_DELEGATE : option string;
  SOLANA_MAINNET_DELEGATE_PRIVATE_KEY : option string;
  SOLANA_MAINNET_DESTINATION : option string;
  new_Connection : string -> Exc unit;
  new_PublicKey : string -> Exc string;
  (** the public key of [Keypair.fromSecretKey] on either accepted format *)
  decodeSecretKey : string -> option string;
  getTransaction : string -> Exc (option TransactionResponse);
  getAccount : string -> Exc SplToken.Account;
  getParsedTokenAccountsByOwner : string -> string -> Exc (list string);
  getLatestBlockhash : Exc string;
  sendRawTransaction : Transaction -> Exc string;
  confirmTransaction : string -> Exc unit
}.

(** [new Connection(undefined, 'confirmed')]: the SDK's constructor checks
    its endpoint first and throws a [TypeError] on anything that does not
    start with [http:] or [https:]. *)
Definition new_Connection_undefined : Exc unit :=
  inl "Endpoint URL must start with `http:` or `https:`.".

(** Calls that reach the ledger. *)
Inductive LedgerCall :=
  | CallGetTransaction (signature : string)
  | CallGetAccount (address : string)
  | CallGetParsedTokenAccountsByOwner (ownerKey mintKey : string)
  | CallGetLatestBlockhash
  | CallSendRawTransaction (tx : Transaction)
  | CallConfirmTransaction (signature : string).

(* ================================================================== *)
(** ** The collection and the monad of a cycle *)

(** The state a cycle acts on: the collection, and (as a ghost record of
    what the cycle did) the ledger calls made so far, each with the [_id]
    of the document being processed. *)
Record World := {
  db : list ApprovalDoc;
  calls : list (nat * LedgerCall)
}.

Inductive Result (A : Type) :=
  | Returned (a : A) (w : World)
  | Thrown (msg : string) (w : World).
Arguments Returned {A} a w.
Arguments Thrown {A} msg w.

Definition Async (A : Type) : Type := World -> Result A.

Definition ret {A} (a : A) : Async A := fun w => Returned a w.

Definition bind {A B} (m : Async A) (k : A -> Async B) : Async B :=
  fun w =>
    match m w with
    | Returned a w' => k a w'
    | Thrown msg w' => Thrown msg w'
    end.

Definition try_catch {A} (m : Async A) (handler : string -> Async A) : Async A :=
  fun w =>
    match m w with
    | Returned a w' => Returned a w'
    | Thrown msg w' => handler msg w'
    end.

Notation "x <- m ;; k" := (bind m (fun x => k))
  (at level 61, m at next level, right associativity).
Notation "' p <- m ;; k" := (bind m (fun x => let p := x in k))
  (at level 61, p pattern, m at next level, right associativity).

(** A constructor or pure SDK call that may throw. *)
Definition construct {A} (r : Exc A) : Async A :=
  fun w =>
    match r with
    | inl msg => Thrown msg w
    | inr a => Returned a w
    end.

(** An awaited ledger call made while processing document [id]. *)
Definition await {A} (id : nat) (c : LedgerCall) (r : Exc A) : Async A :=
  fun w =>
    let w' := {| db := db w; calls := (calls w ++ [(id, c)])%list |} in
    match r with
    | inl msg => Thrown msg w'
    | inr a => Returned a w'
    end.

(** [for (const x of l) body], with the loop's mutable locals as [s]. *)
Fixpoint for_of {A S} (l : list A) (body : A -> S -> Async S) (s : S) : Async S :=
  match l with
  | [] => ret s
  | a :: rest => s' <- body a s ;; for_of rest body s'
  end.

(** [collection.find(query).toArray()], answered by the store. *)
Definition find (query : ApprovalDoc -> bool) : Async (list ApprovalDoc) :=
  fun w => Returned (filter query (db w)) w.

(** [updateOne({ _id: id }, { $set: ... })] on the documents: the first
    document whose [_id] is [id] is rewritten; the filter has no other
    condition. *)
Fixpoint updateOne_docs (id : nat) (set : ApprovalDoc -> ApprovalDoc)
    (docs : list ApprovalDoc) : list ApprovalDoc :=
  match docs with
  | [] => []
  | d :: rest =>
      if Nat.eqb (_id d) id then set d :: rest
      else d :: updateOne_docs id set rest
  end.

(** An [updateOne] the store takes.  The services as they run on a store
    that may refuse a call are [VerifierOnStore] and [ExecutorOnStore]
    below. *)
Definition updateOne (id : nat) (set : ApprovalDoc -> ApprovalDoc) : Async unit :=
  fun w => Returned tt {| db := updateOne_docs id set (db w); calls := calls w |}.

(** [collection.findOne({ _id: id })] as a pure lookup. *)
Definition findOne (id : nat) (docs : list ApprovalDoc) : option ApprovalDoc :=
  List.find (fun d => Nat.eqb (_id d) id) docs.

(** The world a computation leaves behind, returned or thrown. *)
Definition world_of {A} (r : Result A) : World :=
  match r with
  | Returned _ w => w
  | Thrown _ w => w
  end.

(* ================================================================== *)
(** ** The Verifier *)

Module Verifier.

Record NetworkConfig := {
  rpcUrl : string;
  delegateAddress : option string
}.

(** The own keys of [solanaConfig]: the entry under [network0], if the
    object literal has one.  What [solanaConfig[network]] finds besides is
    a member inherited from [Object.prototype] (see [inherited]); the loop
    body below treats the two apart. *)
Definition solanaConfig (env : Env) (network0 : string) : option NetworkConfig :=
  if String.eqb network0 "mainnet-beta" then
    Some {| rpcUrl :=
              match or_else (SOLANA_MAINNET_RPC env)
                            (Some "https://api.mainnet-beta.solana.com") with
              | Some url => url
              | None => "https://api.mainnet-beta.solana.com"
              end;
            delegateAddress := SOLANA_MAINNET_DELEGATE env |}
  else None.

(** [{ verified: { $ne: true }, executed: false }] *)
Definition query (d : ApprovalDoc) : bool :=
  negb (is_true (verified d)) && is_false (executed d).

(** The body of the loop over [approvalList]; the locals [allVerified]
    and [verificationResults] are the state. *)
Definition verifyApprovalLine (env : Env) (id : nat) (delegatePublicKey : string)
    (approval : SolanaApprovalDetail) (st : bool * list VerificationResult)
    : Async (bool * list VerificationResult) :=
  let '(allVerified, results) := st in
  try_catch
    (tokenAccountPubkey <- construct (new_PublicKey env (tokenAccount approval)) ;;
     accountInfo <- await id (CallGetAccount tokenAccountPubkey)
                       (getAccount env tokenAccountPubkey) ;;
     let isDelegateSet :=
       match SplToken.delegate accountInfo with
       | Some k => String.eqb k delegatePublicKey
       | None => false
       end in
     let hasAllowance := (SplToken.delegatedAmount accountInfo >? 0)%Z in
     if isDelegateSet && hasAllowance then
       ret (allVerified,
            (results ++
            [{| vr_tokenAccount := tokenAccount approval;
                vr_verified := true;
                vr_delegatedAmount :=
                  Some (bigint_toString (SplToken.delegatedAmount accountInfo));
                vr_reason := None |}])%list)
     else
       ret (false,
            (results ++
            [{| vr_tokenAccount := tokenAccount approval;
                vr_verified := false;
                vr_delegatedAmount := None;
                vr_reason := Some (if isDelegateSet then "No allowance set"
                                   else "Delegate not set") |}])%list))
    (fun message =>
       ret (false,
            (results ++
            [{| vr_tokenAccount := tokenAccount approval;
                vr_verified := false;
                vr_delegatedAmount := None;
                vr_reason := Some message |}])%list)).

(** [`Transaction failed: ${JSON.stringify(transaction.meta?.err)}`] *)
Definition failed_reason (tx : TransactionResponse) : string :=
  "Transaction failed: " ++
  match meta tx with
  | Some m => match err m with Some e => e | None => "null" end
  | None => "undefined"
  end.

(** [!transaction.meta || transaction.meta.err] *)
Definition transaction_failed (tx : TransactionResponse) : bool :=
  match meta tx with
  | None => true
  | Some m => match err m with Some _ => true | None => false end
  end.

(** [const delegateToCheck = delegateAddress || delegate] *)
Definition delegateToCheck (cfg : NetworkConfig) (approvalData : ApprovalDoc)
    : option string :=
  or_else (delegateAddress cfg) (delegate approvalData).

(** The body of the loop over the selected documents.

    When [network] names no own key of [solanaConfig] but a member
    inherited from [Object.prototype], [solanaConfig[network]] is truthy
    and the record is not skipped: [rpcUrl] and [delegateAddress] are both
    [undefined], so [delegateToCheck] is the stored [delegate], and with a
    truthy one the body reaches [new Connection(undefined, 'confirmed')],
    which throws outside the inner [try]. *)
Definition verifyApproval (env : Env) (approvalData : ApprovalDoc) : Async unit :=
  let id := _id approvalData in
  match (if truthy (network approvalData) then
           match network approvalData with
           | Some n => solanaConfig env n
           | None => None
           end
         else None) with
  | None =>
    if inherited (network approvalData) then
      if truthy (delegate approvalData) then
        _ <- construct new_Connection_undefined ;; ret tt
      else ret tt
    else ret tt
  | Some cfg =>
    match delegateToCheck cfg approvalData with
    | None => ret tt
    | Some toCheck =>
      if String.eqb toCheck EmptyString then ret tt else
      _ <- construct (new_Connection env (rpcUrl cfg)) ;;
      delegatePublicKey <- construct (new_PublicKey env toCheck) ;;
      try_catch
        (transaction <- await id (CallGetTransaction (transactionSignature approvalData))
                           (getTransaction env (transactionSignature approvalData)) ;;
         match transaction with
         | None =>
             updateOne id (set_executed (now env) "Transaction not found on-chain")
         | Some tx =>
             if transaction_failed tx then
               updateOne id (set_executed (now env) (failed_reason tx))
             else
               st <- for_of (approvals approvalData)
                       (verifyApprovalLine env id delegatePublicKey) (true, []) ;;
               if fst st then
                 updateOne id (set_verified (now env) (snd st))
               else
                 updateOne id (set_unverified (now env) (snd st))
         end)
        (fun message =>
           updateOne id (set_executed (now env)
                           ("Transaction fetch error: " ++ message)))
    end
  end.

(** One cycle.  An exception that escapes the loop is logged and
    swallowed by the function's own [catch]. *)
Definition verifySolanaApprovals (env : Env) : Async unit :=
  try_catch
    (selected <- find query ;;
     if Nat.eqb (List.length selected) 0 then ret tt
     else for_of selected (fun approvalData _ => verifyApproval env approvalData) tt)
    (fun _ => ret tt).

(** A finite prefix of [runContinuously]: one cycle per environment. *)
Definition runContinuously (cycles : list Env) : Async unit :=
  for_of cycles (fun env _ => try_catch (verifySolanaApprovals env) (fun _ => ret tt)) tt.

End Verifier.

(* ================================================================== *)
(** ** The Transfer Executor *)

Module Executor.

Record NetworkConfig := {
  rpcUrl : string;
  delegatePrivateKey : option string;
  destinationAddress : option string
}.

(** [solanaConfig[network]].  A member inherited from [Object.prototype]
    has no [delegatePrivateKey], so the loop body skips a record whose
    [network] names one exactly as it skips a record whose [network] is
    not a key at all: [None] stands for both. *)
Definition solanaConfig (env : Env) (network0 : string) : option NetworkConfig :=
  if String.eqb network0 "mainnet-beta" then
    Some {| rpcUrl :=
              match or_else (SOLANA_MAINNET_RPC env)
                            (Some "https://api.mainnet-beta.solana.com") with
              | Some url => url
              | None => "https://api.mainnet-beta.solana.com"
              end;
            delegatePrivateKey := SOLANA_MAINNET_DELEGATE_PRIVATE_KEY env;
            destinationAddress := SOLANA_MAINNET_DESTINATION env |}
  else None.

(** A [Keypair], as far as the service reads it. *)
Record Keypair := { publicKey : string }.

(** Whatever goes wrong while decoding is rethrown as one fixed error. *)
Definition getKeypairFromPrivateKey (env : Env) (privateKeyString : string)
    : Exc Keypair :=
  match decodeSecretKey env privateKeyString with
  | Some pk => inr {| publicKey := pk |}
  | None =>
      inl "Invalid private key format. Use base64 encoded 64-byte secret key or JSON array."
  end.

(** [{ verified: true, executed: { $ne: true }, transferred: { $ne: true } }] *)
Definition query (d : ApprovalDoc) : bool :=
  is_true (verified d) && negb (is_true (executed d))
  && negb (is_true (transferred d)).

Definition failed_transfer (approval : SolanaApprovalDetail) (why : string)
    : TransferResult :=
  {| tr_tokenAccount := tokenAccount approval; tr_mint := None;
     tr_amount := None; tr_success := false; tr_reason := Some why |}.

(** The body of the loop over [approvalList]; the locals
    [transferResults] and [transaction] are the state. *)
Definition transferApprovalLine (env : Env) (id : nat)
    (delegatePublicKey destinationPublicKey : string)
    (approval : SolanaApprovalDetail) (st : list TransferResult * Transaction)
    : Async (list TransferResult * Transaction) :=
  let '(results, transaction) := st in
  try_catch
    (tokenAccountPubkey <- construct (new_PublicKey env (tokenAccount approval)) ;;
     accountInfo <- await id (CallGetAccount tokenAccountPubkey)
                       (getAccount env tokenAccountPubkey) ;;
     if negb (match SplToken.delegate accountInfo with
              | Some k => String.eqb k delegatePublicKey
              | None => false
              end) then
       ret ((results ++ [failed_transfer approval "Delegate not set"])%list,
            transaction)
     else if (SplToken.delegatedAmount accountInfo =? 0)%Z then
       ret ((results ++ [failed_transfer approval "No delegated amount"])%list,
            transaction)
     else
       let transferAmount :=
         if (SplToken.delegatedAmount accountInfo <? SplToken.amount accountInfo)%Z
         then SplToken.delegatedAmount accountInfo
         else SplToken.amount accountInfo in
       if (transferAmount =? 0)%Z then
         ret ((results ++ [failed_transfer approval "No balance to transfer"])%list,
              transaction)
       else
         mintKey <- construct (new_PublicKey env (mint approval)) ;;
         destinationTokenAccount <-
           await id (CallGetParsedTokenAccountsByOwner destinationPublicKey mintKey)
             (getParsedTokenAccountsByOwner env destinationPublicKey mintKey) ;;
         match destinationTokenAccount with
         | [] =>
             ret ((results ++
                   [failed_transfer approval "Destination token account not found"])%list,
                  transaction)
         | destinationTokenAccountPubkey :: _ =>
             ret ((results ++
                   [{| tr_tokenAccount := tokenAccount approval;
                       tr_mint := Some (mint approval);
                       tr_amount := Some (bigint_toString transferAmount);
                       tr_success := true;
                       tr_reason := None |}])%list,
                  (transaction ++
                   [{| ix_source := tokenAccountPubkey;
                       ix_destination := destinationTokenAccountPubkey;
                       ix_authority := delegatePublicKey;
                       ix_amount := transferAmount |}])%list)
         end)
    (fun message =>
       ret ((results ++ [failed_transfer approval message])%list, transaction)).

(** The body of the loop over the selected documents.
    [sendRawTransaction] stands for signing, serialising and sending. *)
Definition transferApproval (env : Env) (approvalData : ApprovalDoc) : Async unit :=
  let id := _id approvalData in
  match (if truthy (network approvalData) then
           match network approvalData with
           | Some n => solanaConfig env n
           | None => None
           end
         else None) with
  | None => ret tt
  | Some cfg =>
    match delegatePrivateKey cfg, destinationAddress cfg with
    | None, _ => ret tt
    | Some _, None => ret tt
    | Some privateKey, Some destination =>
      if String.eqb privateKey EmptyString then ret tt else
      if String.eqb destination EmptyString then ret tt else
      try_catch
        (delegateKeypair <- construct (getKeypairFromPrivateKey env privateKey) ;;
         let delegatePublicKey := publicKey delegateKeypair in
         if negb (match delegate approvalData with
                  | Some d => String.eqb delegatePublicKey d
                  | None => false
                  end) then ret tt
         else
           _ <- construct (new_Connection env (rpcUrl cfg)) ;;
           destinationPublicKey <- construct (new_PublicKey env destination) ;;
           ownerPublicKey <- construct (new_PublicKey env (owner approvalData)) ;;
           st <- for_of (approvals approvalData)
                   (transferApprovalLine env id delegatePublicKey destinationPublicKey)
                   ([], []) ;;
           let transferResults0 := fst st in
           let transaction := snd st in
           if Nat.eqb (List.length transaction) 0 then
             updateOne id (set_nothing_transferred (now env) transferResults0)
           else
             blockhash <- await id CallGetLatestBlockhash (getLatestBlockhash env) ;;
             signature <- await id (CallSendRawTransaction transaction)
                            (sendRawTransaction env transaction) ;;
             _ <- await id (CallConfirmTransaction signature)
                    (confirmTransaction env signature) ;;
             updateOne id (set_transferred (now env) signature transferResults0))
        (fun message =>
           updateOne id (set_executed (now env) ("Transfer error: " ++ message)))
    end
  end.

(** One cycle. *)
Definition transferApprovedTokens (env : Env) : Async unit :=
  try_catch
    (selected <- find query ;;
     if Nat.eqb (List.length selected) 0 then ret tt
     else for_of selected (fun approvalData _ => transferApproval env approvalData) tt)
    (fun _ => ret tt).

(** A finite prefix of [runContinuously]: one cycle per environment. *)
Definition runContinuously (cycles : list Env) : Async unit :=
  for_of cycles (fun env _ => try_catch (transferApprovedTokens env) (fun _ => ret tt)) tt.

End Executor.

(* ================================================================== *)
(** ** The ingestion route *)

Module Route.

(** The [approvals] field of a request body: a falsy value ([undefined],
    [null], ...), a truthy value that is not an array, or an array of
    approval lines. *)
Inductive ApprovalsField :=
  | Falsy
  | NotAnArray
  | Lines (lines : list SolanaApprovalDetail).

(** The five fields [POST] reads from the body; the string fields are a
    string or absent. *)
Record Body := {
  body_owner : option string;
  body_delegate : option string;
  body_approvals : ApprovalsField;
  body_transactionSignature : option string;
  body_network : option string
}.

(** [NextResponse.json({ message, error }, { status })] *)
Record Response := {
  status : nat;
  message : string;
  error : option string
}.

(** The route's process: whether the module-level [db] is set, and the
    collection behind it. *)
Record Server := {
  connected : bool;
  documents : list ApprovalDoc
}.

(** What one request meets: the clock, the outcome [client.connect()]
    would have, and the [_id] the driver gives an inserted document. *)
Record Call := {
  date : Z;
  client_connect : Exc unit;
  insertedId : nat
}.

(** [connectDB]: connects on first use and keeps the handle. *)
Definition connectDB (c : Call) (s : Server) : Exc unit * Server :=
  if connected s then (inr tt, s)
  else
    match client_connect c with
    | inl msg => (inl msg, s)
    | inr _ => (inr tt, {| connected := true; documents := documents s |})
    end.

Definition text (o : option string) : string :=
  match o with
  | Some x => x
  | None => EmptyString
  end.

(** [POST(req)] when the store takes the [insertOne]; [request] is the
    outcome of [req.json()].  [RouteOnStore.POST] below is the handler with
    the store's answer to [insertOne] made explicit. *)
Definition POST (c : Call) (request : Exc Body) (s : Server) : Response * Server :=
  match request with
  | inl msg =>
      ({| status := 500; message := "Failed to store Solana approval";
          error := Some msg |}, s)
  | inr body =>
      if negb (truthy (body_owner body)) || negb (truthy (body_delegate body))
         || match body_approvals body with
            | Falsy => true
            | NotAnArray => true
            | Lines _ => false
            end
         || negb (truthy (body_transactionSignature body))
         || negb (truthy (body_network body))
      then
        ({| status := 400; message := "Missing required fields"; error := None |}, s)
      else
        match body_approvals body with
        | Lines (line :: rest) =>
            match connectDB c s with
            | (inl msg, s') =>
                ({| status := 500; message := "Failed to store Solana approval";
                    error := Some msg |}, s')
            | (inr _, s') =>
                ({| status := 200;
                    message := "Solana approval stored to db successfully";
                    error := None |},
                 {| connected := connected s';
                    documents :=
                      (documents s' ++
                       [POST_document (insertedId c) (text (body_owner body))
                          (text (body_delegate body)) (line :: rest)
                          (text (body_transactionSignature body))
                          (text (body_network body)) (date c)])%list |})
            end
        | _ =>
            ({| status := 400; message := "No approvals provided"; error := None |}, s)
        end
  end.

(** A sequence of requests, each with what it meets; the responses in
    order and the server they leave. *)
Fixpoint serve (requests : list (Call * Exc Body)) (s : Server)
    : list Response * Server :=
  match requests with
  | [] => ([], s)
  | (c, request) :: rest =>
      let (response, s') := POST c request s in
      let (responses, s'') := serve rest s' in
      (response :: responses, s'')
  end.

(** A body [POST] accepts: every field truthy and at least one line. *)
Definition acceptable (body : Body) : bool :=
  truthy (body_owner body) && truthy (body_delegate body)
  && truthy (body_transactionSignature body) && truthy (body_network body)
  && match body_approvals body with
     | Lines (_ :: _) => true
     | _ => false
     end.

(** The document an accepted body is stored as. *)
Definition stored (c : Call) (body : Body) : ApprovalDoc :=
  POST_document (insertedId c) (text (body_owner body)) (text (body_delegate body))
    match body_approvals body with
    | Lines lines => lines
    | _ => []
    end
    (text (body_transactionSignature body)) (text (body_network body)) (date c).

End Route.

(* ================================================================== *)
(** ** A store that can refuse

    [client.connect()], [find(...).toArray()], [updateOne] and [insertOne]
    are awaited calls to the database, and each can reject.  The
    definitions above are the services and the route on a store that takes
    every call.  The ones below take the store's answers as a parameter;
    they are the former when every answer is an acceptance. *)

(** Where in the body of a pass an [updateOne] is issued: in the [try]
    block, or in the [catch] that follows it. *)
Inductive WriteSite := InTry | InCatch.

(** The store's answers during one cycle: to [client.connect()], to
    [find(...).toArray()], and to the [updateOne] issued for the document
    with a given [_id] at a given site.  [inl msg] is a rejection with an
    [Error] whose [message] is [msg]. *)
Record Store := {
  store_connect : Exc unit;
  store_toArray : Exc unit;
  store_updateOne : nat -> WriteSite -> Exc unit
}.

(** [await client.connect()], then [find(query).toArray()]. *)
Definition find_on (store : Store) (query : ApprovalDoc -> bool)
    : Async (list ApprovalDoc) :=
  _ <- construct (store_connect store) ;;
  _ <- construct (store_toArray store) ;;
  find query.

(** [await collection.updateOne({ _id: id }, { $set: ... })]: on a
    rejection nothing is written and the error is thrown. *)
Definition updateOne_on (store : Store) (site : WriteSite) (id : nat)
    (set : ApprovalDoc -> ApprovalDoc) : Async unit :=
  _ <- construct (store_updateOne store id site) ;;
  updateOne id set.

(** The store takes every [updateOne] for the document [id]. *)
Definition accepts (store : Store) (id : nat) : Prop :=
  forall site, store_updateOne store id site = inr tt.

(** The store takes every [updateOne] of the cycle. *)
Definition writable (store : Store) : Prop :=
  forall id, accepts store id.

(** The store takes every call of the cycle. *)
Definition reliable (store : Store) : Prop :=
  store_connect store = inr tt /\ store_toArray store = inr tt /\
  forall id, accepts store id.

Module VerifierOnStore.

(** The body of the loop over the selected documents.  An [updateOne]
    rejected inside the [try] is caught by [catch (txError)], whose own
    [updateOne] is outside any [try] of the loop body. *)
Definition verifyApproval (store : Store) (env : Env) (approvalData : ApprovalDoc)
    : Async unit :=
  let id := _id approvalData in
  match (if truthy (network approvalData) then
           match network approvalData with
           | Some n => Verifier.solanaConfig env n
           | None => None
           end
         else None) with
  | None =>
    if inherited (network approvalData) then
      if truthy (delegate approvalData) then
        _ <- construct new_Connection_undefined ;; ret tt
      else ret tt
    else ret tt
  | Some cfg =>
    match Verifier.delegateToCheck cfg approvalData with
    | None => ret tt
    | Some toCheck =>
      if String.eqb toCheck EmptyString then ret tt else
      _ <- construct (new_Connection env (Verifier.rpcUrl cfg)) ;;
      delegatePublicKey <- construct (new_PublicKey env toCheck) ;;
      try_catch
        (transaction <- await id (CallGetTransaction (transactionSignature approvalData))
                           (getTransaction env (transactionSignature approvalData)) ;;
         match transaction with
         | None =>
             updateOne_on store InTry id
               (set_executed (now env) "Transaction not found on-chain")
         | Some tx =>
             if Verifier.transaction_failed tx then
               updateOne_on store InTry id
                 (set_executed (now env) (Verifier.failed_reason tx))
             else
               st <- for_of (approvals approvalData)
                       (Verifier.verifyApprovalLine env id delegatePublicKey)
                       (true, []) ;;
               if fst st then
                 updateOne_on store InTry id (set_verified (now env) (snd st))
               else
                 updateOne_on store InTry id (set_unverified (now env) (snd st))
         end)
        (fun message =>
           updateOne_on store InCatch id
             (set_executed (now env) ("Transaction fetch error: " ++ message)))
    end
  end.

(** One cycle.  Whatever escapes the loop, a rejected [connect] or [find]
    included, is logged and swallowed by the function's own [catch]. *)
Definition verifySolanaApprovals (store : Store) (env : Env) : Async unit :=
  try_catch
    (selected <- find_on store Verifier.query ;;
     if Nat.eqb (List.length selected) 0 then ret tt
     else for_of selected
            (fun approvalData _ => verifyApproval store env approvalData) tt)
    (fun _ => ret tt).

(** A finite prefix of [runContinuously]: one cycle per store and
    environment. *)
Definition runContinuously (cycles : list (Store * Env)) : Async unit :=
  for_of cycles
    (fun c _ => try_catch (verifySolanaApprovals (fst c) (snd c)) (fun _ => ret tt))
    tt.

End VerifierOnStore.

Module ExecutorOnStore.

(** The body of the loop over the selected documents. *)
Definition transferApproval (store : Store) (env : Env) (approvalData : ApprovalDoc)
    : Async unit :=
  let id := _id approvalData in
  match (if truthy (network approvalData) then
           match network approvalData with
           | Some n => Executor.solanaConfig env n
           | None => None
           end
         else None) with
  | None => ret tt
  | Some cfg =>
    match Executor.delegatePrivateKey cfg, Executor.destinationAddress cfg with
    | None, _ => ret tt
    | Some _, None => ret tt
    | Some privateKey, Some destination =>
      if String.eqb privateKey EmptyString then ret tt else
      if String.eqb destination EmptyString then ret tt else
      try_catch
        (delegateKeypair <- construct (Executor.getKeypairFromPrivateKey env privateKey) ;;
         let delegatePublicKey := Executor.publicKey delegateKeypair in
         if negb (match delegate approvalData with
                  | Some d => String.eqb delegatePublicKey d
                  | None => false
                  end) then ret tt
         else
           _ <- construct (new_Connection env (Executor.rpcUrl cfg)) ;;
           destinationPublicKey <- construct (new_PublicKey env destination) ;;
           ownerPublicKey <- construct (new_PublicKey env (owner approvalData)) ;;
           st <- for_of (approvals approvalData)
                   (Executor.transferApprovalLine env id delegatePublicKey
                      destinationPublicKey)
                   ([], []) ;;
           let transferResults0 := fst st in
           let transaction := snd st in
           if Nat.eqb (List.length transaction) 0 then
             updateOne_on store InTry id
               (set_nothing_transferred (now env) transferResults0)
           else
             blockhash <- await id CallGetLatestBlockhash (getLatestBlockhash env) ;;
             signature <- await id (CallSendRawTransaction transaction)
                            (sendRawTransaction env transaction) ;;
             _ <- await id (CallConfirmTransaction signature)
                    (confirmTransaction env signature) ;;
             updateOne_on store InTry id
               (set_transferred (now env) signature transferResults0))
        (fun message =>
           updateOne_on store InCatch id
             (set_executed (now env) ("Transfer error: " ++ message)))
    end
  end.

(** One cycle. *)
Definition transferApprovedTokens (store : Store) (env : Env) : Async unit :=
  try_catch
    (selected <- find_on store Executor.query ;;
     if Nat.eqb (List.length selected) 0 then ret tt
     else for_of selected
            (fun approvalData _ => transferApproval store env approvalData) tt)
    (fun _ => ret tt).

(** A finite prefix of [runContinuously]. *)
Definition runContinuously (cycles : list (Store * Env)) : Async unit :=
  for_of cycles
    (fun c _ => try_catch (transferApprovedTokens (fst c) (snd c)) (fun _ => ret tt))
    tt.

End ExecutorOnStore.

Module RouteOnStore.

(** What one request meets: what [Route.Call] holds, and the store's
    answer to [insertOne]. *)
Record Call := {
  met : Route.Call;
  insertOne : Exc unit
}.

(** [POST(req)]; [request] is the outcome of [req.json()].  Everything
    from [req.json()] to [insertOne] is inside the one [try]: whichever of
    them throws, the answer is 500 with the error's message.  A rejected
    [insertOne] leaves the server connected. *)
Definition POST (c : Call) (request : Exc Route.Body) (s : Route.Server)
    : Route.Response * Route.Server :=
  match request with
  | inl msg =>
      ({| Route.status := 500;
          Route.message := "Failed to store Solana approval";
          Route.error := Some msg |}, s)
  | inr body =>
      if negb (truthy (Route.body_owner body))
         || negb (truthy (Route.body_delegate body))
         || match Route.body_approvals body with
            | Route.Falsy => true
            | Route.NotAnArray => true
            | Route.Lines _ => false
            end
         || negb (truthy (Route.body_transactionSignature body))
         || negb (truthy (Route.body_network body))
      then
        ({| Route.status := 400; Route.message := "Missing required fields";
            Route.error := None |}, s)
      else
        match Route.body_approvals body with
        | Route.Lines (line :: rest) =>
            match Route.connectDB (met c) s with
            | (inl msg, s') =>
                ({| Route.status := 500;
                    Route.message := "Failed to store Solana approval";
                    Route.error := Some msg |}, s')
            | (inr _, s') =>
                match insertOne c with
                | inl msg =>
                    ({| Route.status := 500;
                        Route.message := "Failed to store Solana approval";
                        Route.error := Some msg |}, s')
                | inr _ =>
                    ({| Route.status := 200;
                        Route.message := "Solana approval stored to db successfully";
                        Route.error := None |},
                     {| Route.connected := Route.connected s';
                        Route.documents :=
                          (Route.documents s' ++
                           [POST_document (Route.insertedId (met c))
                              (Route.text (Route.body_owner body))
                              (Route.text (Route.body_delegate body)) (line :: rest)
                              (Route.text (Route.body_transactionSignature body))
                              (Route.text (Route.body_network body))
                              (Route.date (met c))])%list |})
                end
            end
        | _ =>
            ({| Route.status := 400; Route.message := "No approvals provided";
                Route.error := None |}, s)
        end
  end.

(** A sequence of requests, each with what it meets; the responses in
    order and the server they leave. *)
Fixpoint serve (requests : list (Call * Exc Route.Body)) (s : Route.Server)
    : list Route.Response * Route.Server :=
  match requests with
  | [] => ([], s)
  | (c, request) :: rest =>
      let (response, s') := POST c request s in
      let (responses, s'') := serve rest s' in
      (response :: responses, s'')
  end.

(** The document a request leaves in the collection, if any: the one
    built from its body when it is answered 200. *)
Definition stored_by (request : Call * Exc Route.Body) (response : Route.Response)
    : list ApprovalDoc :=
  match snd request with
  | inr body =>
      if Nat.eqb (Route.status response) 200
      then [Route.stored (met (fst request)) body]
      else []
  | inl _ => []
  end.

(** The documents a sequence of requests leaves, in request order. *)
Fixpoint stored_in_order (requests : list (Call * Exc Route.Body))
    (responses : list Route.Response) : list ApprovalDoc :=
  match requests, responses with
  | request :: requests', response :: responses' =>
      (stored_by request response ++ stored_in_order requests' responses')%list
  | _, _ => []
  end.

End RouteOnStore.

(* ================================================================== *)
(** ** What the Verifier decides, stated on the ledger

    The specification's reading of one grant check, written without the
    monad: a grant passes when its token account can be read, the account's
    delegate is the expected key and the delegated amount is positive. *)

Module VerifierSpec.

Definition grant_account (env : Env) (g : SolanaApprovalDetail)
    : Exc SplToken.Account :=
  match new_PublicKey env (tokenAccount g) with
  | inl msg => inl msg
  | inr key => getAccount env key
  end.

Definition delegate_is (expected : string) (acc : SplToken.Account) : bool :=
  match SplToken.delegate acc with
  | Some k => String.eqb k expected
  | None => false
  end.

Definition has_allowance (acc : SplToken.Account) : bool :=
  (0 <? SplToken.delegatedAmount acc)%Z.

Definition grant_passes (env : Env) (expected : string)
    (g : SolanaApprovalDetail) : bool :=
  match grant_account env g with
  | inr acc => delegate_is expected acc && has_allowance acc
  | inl _ => false
  end.

(** The condition a failing grant is recorded with. *)
Definition failing_condition (env : Env) (expected : string)
    (g : SolanaApprovalDetail) : string :=
  match grant_account env g with
  | inr acc => if delegate_is expected acc then "No allowance set"
               else "Delegate not set"
  | inl msg => msg
  end.

Definition grant_result (env : Env) (expected : string)
    (g : SolanaApprovalDetail) : VerificationResult :=
  if grant_passes env expected g then
    {| vr_tokenAccount := tokenAccount g; vr_verified := true;
       vr_delegatedAmount :=
         match grant_account env g with
         | inr acc => Some (bigint_toString (SplToken.delegatedAmount acc))
         | inl _ => None
         end;
       vr_reason := None |}
  else
    {| vr_tokenAccount := tokenAccount g; vr_verified := false;
       vr_delegatedAmount := None;
       vr_reason := Some (failing_condition env expected g) |}.

(** The ledger reads one grant check makes. *)
Definition grant_calls (env : Env) (id : nat) (g : SolanaApprovalDetail)
    : list (nat * LedgerCall) :=
  match new_PublicKey env (tokenAccount g) with
  | inl _ => []
  | inr key => [(id, CallGetAccount key)]
  end.

(** The record's network is configured, an expected delegate address is
    at hand and parses to [key], and the connection can be made: the
    Verifier gets as far as fetching the claim transaction. *)
Definition resolves (env : Env) (a : ApprovalDoc) (key : string) : Prop :=
  exists n cfg toCheck,
    network a = Some n /\
    Verifier.solanaConfig env n = Some cfg /\
    Verifier.delegateToCheck cfg a = Some toCheck /\
    String.eqb toCheck EmptyString = false /\
    new_Connection env (Verifier.rpcUrl cfg) = inr tt /\
    new_PublicKey env toCheck = inr key.

End VerifierSpec.

(* ================================================================== *)
(** ** What the Transfer Executor decides for one grant, stated on the
       ledger *)

Module ExecutorSpec.

(** [min(delegatedAmount, balance)] of a token account. *)
Definition transfer_amount (acc : SplToken.Account) : Z :=
  Z.min (SplToken.delegatedAmount acc) (SplToken.amount acc).

(** The destination's token accounts for the grant's mint. *)
Definition destination_accounts (env : Env) (destinationKey : string)
    (g : SolanaApprovalDetail) : Exc (list string) :=
  match new_PublicKey env (mint g) with
  | inl msg => inl msg
  | inr mintKey => getParsedTokenAccountsByOwner env destinationKey mintKey
  end.

(** The result recorded for one grant and the instruction, if any, that
    enters the batch for it. *)
Definition grant_transfer (env : Env) (delegateKey destinationKey : string)
    (g : SolanaApprovalDetail) : TransferResult * option TransferInstruction :=
  match new_PublicKey env (tokenAccount g) with
  | inl msg => (Executor.failed_transfer g msg, None)
  | inr source =>
    match getAccount env source with
    | inl msg => (Executor.failed_transfer g msg, None)
    | inr acc =>
      if negb (VerifierSpec.delegate_is delegateKey acc) then
        (Executor.failed_transfer g "Delegate not set", None)
      else if (SplToken.delegatedAmount acc =? 0)%Z then
        (Executor.failed_transfer g "No delegated amount", None)
      else if (transfer_amount acc =? 0)%Z then
        (Executor.failed_transfer g "No balance to transfer", None)
      else
        match destination_accounts env destinationKey g with
        | inl msg => (Executor.failed_transfer g msg, None)
        | inr [] =>
            (Executor.failed_transfer g "Destination token account not found",
             None)
        | inr (target :: _) =>
            ({| tr_tokenAccount := tokenAccount g;
                tr_mint := Some (mint g);
                tr_amount := Some (bigint_toString (transfer_amount acc));
                tr_success := true;
                tr_reason := None |},
             Some {| ix_source := source; ix_destination := target;
                     ix_authority := delegateKey;
                     ix_amount := transfer_amount acc |})
        end
    end
  end.

Definition instruction_of (o : option TransferInstruction) : Transaction :=
  match o with
  | Some ix => [ix]
  | None => []
  end.

(** The ledger reads made for one grant. *)
Definition grant_calls (env : Env) (id : nat) (delegateKey destinationKey : string)
    (g : SolanaApprovalDetail) : list (nat * LedgerCall) :=
  match new_PublicKey env (tokenAccount g) with
  | inl _ => []
  | inr source =>
    (id, CallGetAccount source) ::
    match getAccount env source with
    | inl _ => []
    | inr acc =>
      if negb (VerifierSpec.delegate_is delegateKey acc)
         || (SplToken.delegatedAmount acc =? 0)%Z
         || (transfer_amount acc =? 0)%Z then []
      else
        match new_PublicKey env (mint g) with
        | inl _ => []
        | inr mintKey =>
            [(id, CallGetParsedTokenAccountsByOwner destinationKey mintKey)]
        end
    end
  end.

(** A result recorded as failed with the reason [why]: it carries neither
    a mint nor an amount. *)
Definition failed_with (r : TransferResult) (why : string) : Prop :=
  tr_success r = false /\ tr_reason r = Some why /\
  tr_mint r = None /\ tr_amount r = None.

(** The successful results of a grant loop, each with its grant, in the
    order of the grants. *)
Definition batched (l : list SolanaApprovalDetail) (rs : list TransferResult)
    : list (SolanaApprovalDetail * TransferResult) :=
  filter (fun gr => tr_success (snd gr)) (combine l rs).

(** The configuration problems on which the Transfer Executor skips a
    record: the network is unknown, the signing key or the destination
    address is not configured, or the configured key is not the record's
    delegate. *)
Inductive config_problem (env : Env) (a : ApprovalDoc) : Prop :=
  | no_network :
      truthy (network a) = false -> config_problem env a
  | unknown_network n :
      network a = Some n -> Executor.solanaConfig env n = None ->
      config_problem env a
  | no_signing_key n cfg :
      network a = Some n -> Executor.solanaConfig env n = Some cfg ->
      truthy (Executor.delegatePrivateKey cfg) = false ->
      config_problem env a
  | no_destination n cfg :
      network a = Some n -> Executor.solanaConfig env n = Some cfg ->
      truthy (Executor.destinationAddress cfg) = false ->
      config_problem env a
  | delegate_mismatch n cfg privateKey key :
      network a = Some n -> Executor.solanaConfig env n = Some cfg ->
      Executor.delegatePrivateKey cfg = Some privateKey ->
      decodeSecretKey env privateKey = Some key ->
      delegate a <> Some key ->
      config_problem env a.

End ExecutorSpec.

(** The [$set] documents the Verifier issues. *)
Inductive verifier_write : (ApprovalDoc -> ApprovalDoc) -> Prop :=
  | vw_executed date why : verifier_write (set_executed date why)
  | vw_verified date rs : verifier_write (set_verified date rs)
  | vw_unverified date rs : verifier_write (set_unverified date rs).

(** The [$set] documents the Transfer Executor issues. *)
Inductive executor_write : (ApprovalDoc -> ApprovalDoc) -> Prop :=
  | ew_executed date why : executor_write (set_executed date why)
  | ew_nothing date rs : executor_write (set_nothing_transferred date rs)
  | ew_transferred date sig rs : executor_write (set_transferred date sig rs).

(** Two overlapping cycles of one service: both take their snapshot of the
    collection before either writes; the first then runs to its end and the
    second works through its own, by then stale, snapshot. *)
Definition overlapping (query : ApprovalDoc -> bool)
    (first second : ApprovalDoc -> Async unit) : Async unit :=
  fun w =>
    let snapshot := filter query (db w) in
    (_ <- for_of snapshot (fun a _ => first a) tt ;;
     for_of snapshot (fun a _ => second a) tt) w.

(** The submissions among a list of ledger calls. *)
Definition submissions (l : list (nat * LedgerCall)) : list (nat * LedgerCall) :=
  filter (fun c => match snd c with
                   | CallSendRawTransaction _ => true
                   | _ => false
                   end) l.

(** What processing one selected document does to the collection: nothing,
    or one [updateOne] on the document's [_id]. *)
Definition apply_write (id : nat) (write : option (ApprovalDoc -> ApprovalDoc))
    (docs : list ApprovalDoc) : list ApprovalDoc :=
  match write with
  | Some set => updateOne_docs id set docs
  | None => docs
  end.

(** Every [$set] above leaves [_id] alone. *)
Definition keeps_id (set : ApprovalDoc -> ApprovalDoc) : Prop :=
  forall d, _id (set d) = _id d.

(** The same document with other claimed amounts in its grant lines. *)
Definition with_claimed (f : SolanaApprovalDetail -> string)
    (g : SolanaApprovalDetail) : SolanaApprovalDetail :=
  {| tokenAccount := tokenAccount g; mint := mint g; amount := f g;
     decimals := decimals g; symbol := symbol g |}.

Definition with_claimed_amounts (f : SolanaApprovalDetail -> string)
    (d : ApprovalDoc) : ApprovalDoc :=
  {| _id := _id d; owner := owner d; delegate := delegate d;
     approvals := map (with_claimed f) (approvals d);
     transactionSignature := transactionSignature d;
     network := network d; createdAt := createdAt d; submitted := submitted d;
     submittedAt := submittedAt d;
     executed := executed d; executedAt := executedAt d;
     verified := verified d; verifiedAt := verifiedAt d;
     reason := reason d;
     verificationResults := verificationResults d;
     transferred := transferred d; transferredAt := transferredAt d;
     transferTransactionSignature := transferTransactionSignature d;
     transferResults := transferResults d |}.

(** The same document with another [delegate] field. *)
Definition with_delegate (k : option string) (d : ApprovalDoc) : ApprovalDoc :=
  {| _id := _id d; owner := owner d; delegate := k;
     approvals := approvals d;
     transactionSignature := transactionSignature d;
     network := network d; createdAt := createdAt d; submitted := submitted d;
     submittedAt := submittedAt d;
     executed := executed d; executedAt := executedAt d;
     verified := verified d; verifiedAt := verifiedAt d;
     reason := reason d;
     verificationResults := verificationResults d;
     transferred := transferred d; transferredAt := transferredAt d;
     transferTransactionSignature := transferTransactionSignature d;
     transferResults := transferResults d |}.

(* ================================================================== *)
(** ** Outcomes of one pass, passes and cycles *)

(** The Verifier has nothing to check a record against: its network is
    missing or not configured, or neither the configuration nor the record
    names a delegate. *)
Inductive verifier_unconfigured (env : Env) (a : ApprovalDoc) : Prop :=
  | vu_no_network :
      truthy (network a) = false -> verifier_unconfigured env a
  | vu_unknown_network n :
      network a = Some n -> Verifier.solanaConfig env n = None ->
      inherited (network a) = false ->
      verifier_unconfigured env a
  | vu_inherited_no_delegate n :
      network a = Some n -> Verifier.solanaConfig env n = None ->
      inherited (network a) = true ->
      truthy (delegate a) = false ->
      verifier_unconfigured env a
  | vu_no_delegate n cfg :
      network a = Some n -> Verifier.solanaConfig env n = Some cfg ->
      truthy (Verifier.delegateToCheck cfg a) = false ->
      verifier_unconfigured env a.

(** The Verifier's pass over a record throws before the claim transaction
    is fetched: the record's network names a member inherited from
    [Object.prototype] and the record has a delegate, so the connection is
    asked for without an endpoint; or, on a configured network, the
    connection cannot be made or the delegate address is not a public key. *)
Inductive verifier_aborts (env : Env) (a : ApprovalDoc) (msg : string) : Prop :=
  | va_inherited_network n :
      network a = Some n ->
      Verifier.solanaConfig env n = None ->
      inherited (network a) = true ->
      truthy (delegate a) = true ->
      new_Connection_undefined = inl msg ->
      verifier_aborts env a msg
  | va_no_connection n cfg toCheck :
      network a = Some n ->
      Verifier.solanaConfig env n = Some cfg ->
      Verifier.delegateToCheck cfg a = Some toCheck ->
      String.eqb toCheck EmptyString = false ->
      new_Connection env (Verifier.rpcUrl cfg) = inl msg ->
      verifier_aborts env a msg
  | va_not_a_public_key n cfg toCheck :
      network a = Some n ->
      Verifier.solanaConfig env n = Some cfg ->
      Verifier.delegateToCheck cfg a = Some toCheck ->
      String.eqb toCheck EmptyString = false ->
      new_Connection env (Verifier.rpcUrl cfg) = inr tt ->
      new_PublicKey env toCheck = inl msg ->
      verifier_aborts env a msg.

(** What a pass of the Verifier over the snapshot [a] that does not throw
    writes (if anything) and which ledger calls it makes. *)
Inductive verifier_outcome (env : Env) (a : ApprovalDoc)
    : option (ApprovalDoc -> ApprovalDoc) -> list (nat * LedgerCall) -> Prop :=
  | vo_skipped :
      verifier_unconfigured env a ->
      verifier_outcome env a None []
  | vo_fetch_failed key msg :
      VerifierSpec.resolves env a key ->
      getTransaction env (transactionSignature a) = inl msg ->
      verifier_outcome env a
        (Some (set_executed (now env) ("Transaction fetch error: " ++ msg)))
        [(_id a, CallGetTransaction (transactionSignature a))]
  | vo_not_found key :
      VerifierSpec.resolves env a key ->
      getTransaction env (transactionSignature a) = inr None ->
      verifier_outcome env a
        (Some (set_executed (now env) "Transaction not found on-chain"))
        [(_id a, CallGetTransaction (transactionSignature a))]
  | vo_failed key tx :
      VerifierSpec.resolves env a key ->
      getTransaction env (transactionSignature a) = inr (Some tx) ->
      Verifier.transaction_failed tx = true ->
      verifier_outcome env a
        (Some (set_executed (now env) (Verifier.failed_reason tx)))
        [(_id a, CallGetTransaction (transactionSignature a))]
  | vo_checked key tx :
      VerifierSpec.resolves env a key ->
      getTransaction env (transactionSignature a) = inr (Some tx) ->
      Verifier.transaction_failed tx = false ->
      verifier_outcome env a
        (Some (if forallb (VerifierSpec.grant_passes env key) (approvals a)
               then set_verified (now env)
                      (map (VerifierSpec.grant_result env key) (approvals a))
               else set_unverified (now env)
                      (map (VerifierSpec.grant_result env key) (approvals a))))
        ((_id a, CallGetTransaction (transactionSignature a))
         :: flat_map (VerifierSpec.grant_calls env (_id a)) (approvals a)).

(** The Transfer Executor gets as far as the grant loop, signing as [dk]
    for the destination [destk]. *)
Definition executor_ready (env : Env) (a : ApprovalDoc) (dk destk : string) : Prop :=
  exists n cfg privateKey destination ownerKey,
    network a = Some n /\
    Executor.solanaConfig env n = Some cfg /\
    Executor.delegatePrivateKey cfg = Some privateKey /\
    Executor.destinationAddress cfg = Some destination /\
    String.eqb privateKey EmptyString = false /\
    String.eqb destination EmptyString = false /\
    decodeSecretKey env privateKey = Some dk /\
    delegate a = Some dk /\
    new_Connection env (Executor.rpcUrl cfg) = inr tt /\
    new_PublicKey env destination = inr destk /\
    new_PublicKey env (owner a) = inr ownerKey.

(** The results, the batch and the ledger reads of the grant loop. *)
Definition transfer_results (env : Env) (dk destk : string) (a : ApprovalDoc)
    : list TransferResult :=
  map (fun g => fst (ExecutorSpec.grant_transfer env dk destk g)) (approvals a).

Definition transfer_batch (env : Env) (dk destk : string) (a : ApprovalDoc)
    : Transaction :=
  flat_map (fun g => ExecutorSpec.instruction_of
                       (snd (ExecutorSpec.grant_transfer env dk destk g)))
           (approvals a).

Definition transfer_reads (env : Env) (dk destk : string) (a : ApprovalDoc)
    : list (nat * LedgerCall) :=
  flat_map (ExecutorSpec.grant_calls env (_id a) dk destk) (approvals a).

(** What a pass of the Transfer Executor over the snapshot [a] writes (if
    anything) and which ledger calls it makes. *)
Inductive executor_outcome (env : Env) (a : ApprovalDoc)
    : option (ApprovalDoc -> ApprovalDoc) -> list (nat * LedgerCall) -> Prop :=
  | eo_skipped :
      ExecutorSpec.config_problem env a ->
      executor_outcome env a None []
  | eo_setup_failed msg :
      executor_outcome env a
        (Some (set_executed (now env) ("Transfer error: " ++ msg))) []
  | eo_nothing dk destk :
      executor_ready env a dk destk ->
      transfer_batch env dk destk a = [] ->
      executor_outcome env a
        (Some (set_nothing_transferred (now env) (transfer_results env dk destk a)))
        (transfer_reads env dk destk a)
  | eo_blockhash_failed dk destk msg :
      executor_ready env a dk destk ->
      transfer_batch env dk destk a <> [] ->
      getLatestBlockhash env = inl msg ->
      executor_outcome env a
        (Some (set_executed (now env) ("Transfer error: " ++ msg)))
        (transfer_reads env dk destk a ++ [(_id a, CallGetLatestBlockhash)])%list
  | eo_send_failed dk destk msg :
      executor_ready env a dk destk ->
      transfer_batch env dk destk a <> [] ->
      sendRawTransaction env (transfer_batch env dk destk a) = inl msg ->
      executor_outcome env a
        (Some (set_executed (now env) ("Transfer error: " ++ msg)))
        (transfer_reads env dk destk a ++
         [(_id a, CallGetLatestBlockhash);
          (_id a, CallSendRawTransaction (transfer_batch env dk destk a))])%list
  | eo_confirm_failed dk destk signature msg :
      executor_ready env a dk destk ->
      transfer_batch env dk destk a <> [] ->
      sendRawTransaction env (transfer_batch env dk destk a) = inr signature ->
      confirmTransaction env signature = inl msg ->
      executor_outcome env a
        (Some (set_executed (now env) ("Transfer error: " ++ msg)))
        (transfer_reads env dk destk a ++
         [(_id a, CallGetLatestBlockhash);
          (_id a, CallSendRawTransaction (transfer_batch env dk destk a));
          (_id a, CallConfirmTransaction signature)])%list
  | eo_transferred dk destk signature :
      executor_ready env a dk destk ->
      transfer_batch env dk destk a <> [] ->
      sendRawTransaction env (transfer_batch env dk destk a) = inr signature ->
      confirmTransaction env signature = inr tt ->
      executor_outcome env a
        (Some (set_transferred (now env) signature
                 (transfer_results env dk destk a)))
        (transfer_reads env dk destk a ++
         [(_id a, CallGetLatestBlockhash);
          (_id a, CallSendRawTransaction (transfer_batch env dk destk a));
          (_id a, CallConfirmTransaction signature)])%list.

(** One pass of a service over one document it holds a snapshot of. *)
Inductive Pass :=
  | VerifierPass (env : Env) (a : ApprovalDoc)
  | ExecutorPass (env : Env) (a : ApprovalDoc).

Definition run_pass (w : World) (p : Pass) : World :=
  match p with
  | VerifierPass env a => world_of (Verifier.verifyApproval env a w)
  | ExecutorPass env a => world_of (Executor.transferApproval env a w)
  end.

(** Passes in the order in which they complete; the snapshots may be
    stale, as they are when cycles overlap. *)
Definition run_passes (ps : list Pass) (w : World) : World :=
  fold_left run_pass ps w.

(** The [_id] a pass works for. *)
Definition pass_id (p : Pass) : nat :=
  match p with
  | VerifierPass _ a => _id a
  | ExecutorPass _ a => _id a
  end.

(** What a pass writes and calls; a Verifier pass that throws does
    neither. *)
Inductive pass_outcome
    : Pass -> option (ApprovalDoc -> ApprovalDoc) -> list (nat * LedgerCall) -> Prop :=
  | po_aborted env a msg :
      verifier_aborts env a msg ->
      pass_outcome (VerifierPass env a) None []
  | po_verifier env a write new :
      verifier_outcome env a write new ->
      pass_outcome (VerifierPass env a) write new
  | po_executor env a write new :
      executor_outcome env a write new ->
      pass_outcome (ExecutorPass env a) write new.

(** The ledger calls made for the document [id]. *)
Definition calls_for (id : nat) (l : list (nat * LedgerCall))
    : list (nat * LedgerCall) :=
  filter (fun c => Nat.eqb (fst c) id) l.

(** What a write does to the stored document it finds. *)
Definition written (write : option (ApprovalDoc -> ApprovalDoc))
    (found : option ApprovalDoc) : option ApprovalDoc :=
  match write with
  | Some set => option_map set found
  | None => found
  end.

(** One whole cycle of a service. *)
Inductive Cycle :=
  | VerifierCycle (env : Env)
  | ExecutorCycle (env : Env).

Definition run_cycle (w : World) (c : Cycle) : World :=
  match c with
  | VerifierCycle env => world_of (Verifier.verifySolanaApprovals env w)
  | ExecutorCycle env => world_of (Executor.transferApprovedTokens env w)
  end.

(** Cycles of the two services run one after the other, in any order. *)
Definition run_cycles (cs : list Cycle) (w : World) : World :=
  fold_left run_cycle cs w.

(** The same on a store that can refuse: each cycle with the store's
    answers to it. *)
Definition run_cycle_on (w : World) (c : Store * Cycle) : World :=
  match snd c with
  | VerifierCycle env =>
      world_of (VerifierOnStore.verifySolanaApprovals (fst c) env w)
  | ExecutorCycle env =>
      world_of (ExecutorOnStore.transferApprovedTokens (fst c) env w)
  end.

Definition run_cycles_on (cs : list (Store * Cycle)) (w : World) : World :=
  fold_left run_cycle_on cs w.

(** The query of the service a cycle belongs to. *)
Definition cycle_query (c : Cycle) : ApprovalDoc -> bool :=
  match c with
  | VerifierCycle _ => Verifier.query
  | ExecutorCycle _ => Executor.query
  end.

(** The fields ingestion writes and no service sets. *)
Definition same_claim (d d' : ApprovalDoc) : Prop :=
  _id d' = _id d /\ owner d' = owner d /\ delegate d' = delegate d /\
  approvals d' = approvals d /\
  transactionSignature d' = transactionSignature d /\
  network d' = network d /\ createdAt d' = createdAt d /\
  submitted d' = submitted d /\ submittedAt d' = submittedAt d.

(** The closing flags stay set. *)
Definition flags_kept (d d' : ApprovalDoc) : Prop :=
  (executed d = Some true -> executed d' = Some true) /\
  (transferred d = Some true -> transferred d' = Some true).

(** A [$set] of either service. *)
Definition service_write (set : ApprovalDoc -> ApprovalDoc) : Prop :=
  verifier_write set \/ executor_write set.

(** What every write keeps of a document. *)
Definition stable (d d' : ApprovalDoc) : Prop :=
  same_claim d d' /\ flags_kept d d'.

(** A record neither service selects: executed, or verified and
    transferred. *)
Definition closed (d : ApprovalDoc) : Prop :=
  executed d = Some true \/ (verified d = Some true /\ transferred d = Some true).

(** The submissions made for the document [id]. *)
Definition submissions_for (id : nat) (l : list (nat * LedgerCall))
    : list (nat * LedgerCall) :=
  filter (fun c => Nat.eqb (fst c) id) (submissions l).

(** The state in which no document has been submitted twice, and every
    document that has been submitted is closed. *)
Definition submitted_once (w : World) : Prop :=
  forall id,
    List.length (submissions_for id (calls w)) <= 1 /\
    (submissions_for id (calls w) <> [] ->
     exists d, findOne id (db w) = Some d /\ closed d).

(** The two calls the Verifier makes. *)
Definition is_verifier_read (c : LedgerCall) : bool :=
  match c with
  | CallGetTransaction _ | CallGetAccount _ => true
  | _ => false
  end.

(** A call that submits a transaction. *)
Definition is_submission (c : nat * LedgerCall) : bool :=
  match snd c with
  | CallSendRawTransaction _ => true
  | _ => false
  end.

(** A call that only reads the ledger. *)
Definition is_read (c : LedgerCall) : bool :=
  match c with
  | CallGetTransaction _ | CallGetAccount _
  | CallGetParsedTokenAccountsByOwner _ _ | CallGetLatestBlockhash => true
  | CallSendRawTransaction _ | CallConfirmTransaction _ => false
  end.

(* ================================================================== *)
(** ** Concrete ledgers and records *)

Module Scenario.

(** A cycle environment with the given clock, configured delegate
    address, signing key and ledger answers.  Any non-empty text parses
    as a public key; the only decodable secret belongs to "Custodian";
    the destination "Treasury" holds an account for "MintX" only. *)
Definition cycle_env (time : Z) (configuredDelegate privateKey : option string)
    (transactions : string -> Exc (option TransactionResponse))
    (accounts : string -> Exc SplToken.Account) : Env :=
  {| now := time;
     SOLANA_MAINNET_RPC := None;
     SOLANA_MAINNET_DELEGATE := configuredDelegate;
     SOLANA_MAINNET_DELEGATE_PRIVATE_KEY := privateKey;
     SOLANA_MAINNET_DESTINATION := Some "Treasury";
     new_Connection := fun _ => inr tt;
     new_PublicKey := fun s =>
       if String.eqb s EmptyString then inl "Invalid public key input" else inr s;
     decodeSecretKey := fun s =>
       if String.eqb s "custodian-secret" then Some "Custodian" else None;
     getTransaction := transactions;
     getAccount := accounts;
     getParsedTokenAccountsByOwner := fun _ mintKey =>
       if String.eqb mintKey "MintX" then inr ["TreasuryX"] else inr [];
     getLatestBlockhash := inr "blockhash";
     sendRawTransaction := fun _ => inr "settlement";
     confirmTransaction := fun _ => inr tt |}.

Definition succeeded : TransactionResponse :=
  {| meta := Some {| err := None |} |}.

Definition reverted : TransactionResponse :=
  {| meta := Some {| err := Some "[0,6001]" |} |}.

Definition all_succeeded : string -> Exc (option TransactionResponse) :=
  fun _ => inr (Some succeeded).

Definition none_found : string -> Exc (option TransactionResponse) :=
  fun _ => inr None.

Definition all_reverted : string -> Exc (option TransactionResponse) :=
  fun _ => inr (Some reverted).

Definition unreachable : string -> Exc (option TransactionResponse) :=
  fun _ => inl "fetch failed".

(** Token account "A" is delegated to [k] for [allowance], with
    [balance] tokens in it; no other token account exists. *)
Definition account_A (k : option string) (allowance balance : Z)
    : string -> Exc SplToken.Account :=
  fun address =>
    if String.eqb address "A" then
      inr {| SplToken.delegate := k; SplToken.delegatedAmount := allowance;
             SplToken.amount := balance |}
    else inl "TokenAccountNotFoundError".

Definition grant_A : SolanaApprovalDetail :=
  {| tokenAccount := "A"; mint := "MintX"; amount := "1000";
     decimals := 6; symbol := None |}.

Definition grant_B : SolanaApprovalDetail :=
  {| tokenAccount := "B"; mint := "MintY"; amount := "5";
     decimals := 6; symbol := None |}.

(** Freshly ingested records. *)
Definition alice : ApprovalDoc :=
  POST_document 1 "Alice" "Custodian" [grant_A] "sigA" "mainnet-beta" 10.

Definition bob : ApprovalDoc :=
  POST_document 2 "Bob" "Custodian" [grant_A; grant_B] "sigB" "mainnet-beta" 11.

Definition store (docs : list ApprovalDoc) : World :=
  {| db := docs; calls := [] |}.

(** The ledger agrees with Alice's claim. *)
Definition honest (time : Z) : Env :=
  cycle_env time (Some "Custodian") (Some "custodian-secret") all_succeeded
    (account_A (Some "Custodian") 500 300).

(** The delegation on "A" has been revoked. *)
Definition revoked (time : Z) : Env :=
  cycle_env time (Some "Custodian") (Some "custodian-secret") all_succeeded
    (account_A None 0 300).

(** Alice's record as an earlier cycle verified it at time 50. *)
Definition alice_verified : ApprovalDoc :=
  set_verified 50
    [{| vr_tokenAccount := "A"; vr_verified := true;
        vr_delegatedAmount := Some "500"; vr_reason := None |}] alice.

(** The signing key in the environment is not a decodable secret. *)
Definition bad_key (time : Z) : Env :=
  cycle_env time (Some "Custodian") (Some "not-a-secret-key") all_succeeded
    (account_A (Some "Custodian") 500 300).

(** Alice's record after a confirmed transfer at time 300. *)
Definition alice_transferred : ApprovalDoc :=
  set_transferred 300 "settlement"
    [{| tr_tokenAccount := "A"; tr_mint := Some "MintX";
        tr_amount := Some "300"; tr_success := true; tr_reason := None |}]
    alice_verified.

(** Bob's record, verified. *)
Definition bob_verified : ApprovalDoc :=
  set_verified 60
    [{| vr_tokenAccount := "A"; vr_verified := true;
        vr_delegatedAmount := Some "500"; vr_reason := None |};
     {| vr_tokenAccount := "B"; vr_verified := true;
        vr_delegatedAmount := Some "5"; vr_reason := None |}] bob.

(** A record whose stored delegate is not a public key, met by a ledger
    configuration without a delegate address of its own and an SDK that
    rejects the text. *)
Definition carol : ApprovalDoc :=
  POST_document 3 "Carol" "not-a-key" [grant_A] "sigC" "mainnet-beta" 12.

(** A record whose network names a member of [Object.prototype]. *)
Definition dan : ApprovalDoc :=
  POST_document 4 "Dan" "Custodian" [grant_A] "sigD" "constructor" 13.

(** Alice's record as a cycle at [time] verifies it on the honest ledger. *)
Definition alice_verified_at (time : Z) : ApprovalDoc :=
  set_verified time
    [{| vr_tokenAccount := "A"; vr_verified := true;
        vr_delegatedAmount := Some "500"; vr_reason := None |}] alice.

(** A store that takes every call, one that cannot be reached, and one
    that takes the reads but refuses every [updateOne]. *)
Definition steady : Store :=
  {| store_connect := inr tt; store_toArray := inr tt;
     store_updateOne := fun _ _ => inr tt |}.

Definition offline : Store :=
  {| store_connect := inl "ECONNREFUSED"; store_toArray := inr tt;
     store_updateOne := fun _ _ => inr tt |}.

Definition read_only : Store :=
  {| store_connect := inr tt; store_toArray := inr tt;
     store_updateOne := fun _ _ => inl "not primary" |}.

Definition strict (time : Z) : Env :=
  {| now := time;
     SOLANA_MAINNET_RPC := None;
     SOLANA_MAINNET_DELEGATE := None;
     SOLANA_MAINNET_DELEGATE_PRIVATE_KEY := Some "custodian-secret";
     SOLANA_MAINNET_DESTINATION := Some "Treasury";
     new_Connection := fun _ => inr tt;
     new_PublicKey := fun s =>
       if String.eqb s "not-a-key" then inl "Invalid public key input" else inr s;
     decodeSecretKey := fun s =>
       if String.eqb s "custodian-secret" then Some "Custodian" else None;
     getTransaction := all_succeeded;
     getAccount := account_A (Some "Custodian") 500 300;
     getParsedTokenAccountsByOwner := fun _ mintKey =>
       if String.eqb mintKey "MintX" then inr ["TreasuryX"] else inr [];
     getLatestBlockhash := inr "blockhash";
     sendRawTransaction := fun _ => inr "settlement";
     confirmTransaction := fun _ => inr tt |}.

(** The ledger agrees with the claims but rejects every submission. *)
Definition congested (time : Z) : Env :=
  {| now := time;
     SOLANA_MAINNET_RPC := None;
     SOLANA_MAINNET_DELEGATE := Some "Custodian";
     SOLANA_MAINNET_DELEGATE_PRIVATE_KEY := Some "custodian-secret";
     SOLANA_MAINNET_DESTINATION := Some "Treasury";
     new_Connection := fun _ => inr tt;
     new_PublicKey := fun s =>
       if String.eqb s EmptyString then inl "Invalid public key input" else inr s;
     decodeSecretKey := fun s =>
       if String.eqb s "custodian-secret" then Some "Custodian" else None;
     getTransaction := all_succeeded;
     getAccount := account_A (Some "Custodian") 500 300;
     getParsedTokenAccountsByOwner := fun _ mintKey =>
       if String.eqb mintKey "MintX" then inr ["TreasuryX"] else inr [];
     getLatestBlockhash := inr "blockhash";
     sendRawTransaction := fun _ => inl "Transaction simulation failed";
     confirmTransaction := fun _ => inr tt |}.

End Scenario.

(* ================================================================== *)
(** ** The collection: lookup and update *)

Section Collection.

Implicit Types (docs : list ApprovalDoc) (set : ApprovalDoc -> ApprovalDoc).

Lemma set_executed_keeps_id date why : keeps_id (set_executed date why).
Proof. intros d; reflexivity. Qed.

Lemma set_verified_keeps_id date rs : keeps_id (set_verified date rs).
Proof. intros d; reflexivity. Qed.

Lemma set_unverified_keeps_id date rs : keeps_id (set_unverified date rs).
Proof. intros d; reflexivity. Qed.

Lemma set_nothing_transferred_keeps_id date rs :
  keeps_id (set_nothing_transferred date rs).
Proof. intros d; reflexivity. Qed.

Lemma set_transferred_keeps_id date sig rs :
  keeps_id (set_transferred date sig rs).
Proof. intros d; reflexivity. Qed.

Lemma findOne_updateOne_same id set docs :
  keeps_id set ->
  findOne id (updateOne_docs id set docs) = option_map set (findOne id docs).
Proof.
  intros Hk. unfold findOne.
  induction docs as [|d rest IH]; simpl; [reflexivity|].
  destruct (Nat.eqb (_id d) id) eqn:E; simpl.
  - rewrite Hk, E. reflexivity.
  - rewrite E. exact IH.
Qed.

Lemma findOne_updateOne_other id j set docs :
  keeps_id set -> j <> id ->
  findOne j (updateOne_docs id set docs) = findOne j docs.
Proof.
  intros Hk Hne. unfold findOne.
  induction docs as [|d rest IH]; simpl; [reflexivity|].
  destruct (Nat.eqb (_id d) id) eqn:E; simpl.
  - rewrite Hk. apply Nat.eqb_eq in E.
    assert (Nat.eqb (_id d) j = false) as ->
      by (apply Nat.eqb_neq; congruence).
    reflexivity.
  - destruct (Nat.eqb (_id d) j); [reflexivity | exact IH].
Qed.

Lemma updateOne_docs_absent id set docs :
  findOne id docs = None -> updateOne_docs id set docs = docs.
Proof.
  unfold findOne.
  induction docs as [|d rest IH]; simpl; [reflexivity|].
  destruct (Nat.eqb (_id d) id); [discriminate|].
  intros H. rewrite IH by exact H. reflexivity.
Qed.

Lemma findOne_In id docs d : findOne id docs = Some d -> In d docs /\ _id d = id.
Proof.
  unfold findOne. intros H. apply find_some in H.
  destruct H as [Hin He]. apply Nat.eqb_eq in He. auto.
Qed.

(** With distinct [_id]s a document is the one [findOne] returns. *)
Lemma In_findOne docs d :
  NoDup (map _id docs) -> In d docs -> findOne (_id d) docs = Some d.
Proof.
  unfold findOne.
  induction docs as [|x rest IH]; simpl; intros Hnd Hin; [contradiction|].
  inversion Hnd as [|? ? Hx Hrest]; subst.
  destruct Hin as [->|Hin].
  - rewrite Nat.eqb_refl. reflexivity.
  - destruct (Nat.eqb (_id x) (_id d)) eqn:E.
    + apply Nat.eqb_eq in E. exfalso. apply Hx. rewrite E.
      apply in_map. exact Hin.
    + apply IH; assumption.
Qed.

End Collection.

(** What [lifecycleState d = Submitted] says about the flags. *)
Lemma Submitted_flags d :
  lifecycleState d = Submitted ->
  is_true (transferred d) = false /\ is_true (executed d) = false /\
  is_true (verified d) = false /\ verifiedAt d = None.
Proof.
  unfold lifecycleState.
  destruct (is_true (transferred d)); [discriminate|].
  destruct (is_true (executed d));
    [destruct (is_true (verified d)); discriminate|].
  destruct (is_true (verified d)); [discriminate|].
  destruct (verifiedAt d); [discriminate|]. auto.
Qed.

Lemma Verified_flags d :
  lifecycleState d = Verified ->
  is_true (transferred d) = false /\ is_true (executed d) = false /\
  is_true (verified d) = true.
Proof.
  unfold lifecycleState.
  destruct (is_true (transferred d)); [discriminate|].
  destruct (is_true (executed d));
    [destruct (is_true (verified d)); discriminate|].
  destruct (is_true (verified d)); [auto|].
  destruct (verifiedAt d); discriminate.
Qed.

(* ================================================================== *)
(** ** The Verifier: the grant loop and the record it writes *)

Section VerifierFacts.

Import VerifierSpec.
Variable env : Env.

Lemma world_eta (w : World) : {| db := db w; calls := calls w |} = w.
Proof. destruct w; reflexivity. Qed.

(** One pass of the loop body never throws; it appends the grant's
    result and makes the grant's ledger read. *)
Lemma verifyApprovalLine_spec id key g all rs w :
  Verifier.verifyApprovalLine env id key g (all, rs) w =
  Returned (all && grant_passes env key g, (rs ++ [grant_result env key g])%list)
           {| db := db w; calls := (calls w ++ grant_calls env id g)%list |}.
Proof.
  unfold Verifier.verifyApprovalLine, grant_passes, grant_result, grant_passes,
    failing_condition, grant_calls, grant_account, delegate_is, has_allowance,
    try_catch, bind, construct, await, ret.
  destruct (new_PublicKey env (tokenAccount g)) as [msg|k]; simpl.
  - rewrite app_nil_r, world_eta, andb_false_r. reflexivity.
  - destruct (getAccount env k) as [msg|acc]; simpl.
    + rewrite andb_false_r. reflexivity.
    + rewrite Z.gtb_ltb.
      destruct (SplToken.delegate acc) as [d|]; simpl;
        [destruct (String.eqb d key); simpl;
         [destruct (0 <? SplToken.delegatedAmount acc)%Z; simpl|]|];
        rewrite ?andb_true_r, ?andb_false_r; reflexivity.
Qed.

Lemma verify_loop_spec id key l : forall all rs w,
  for_of l (Verifier.verifyApprovalLine env id key) (all, rs) w =
  Returned (all && forallb (grant_passes env key) l,
            (rs ++ map (grant_result env key) l)%list)
           {| db := db w;
              calls := (calls w ++ flat_map (grant_calls env id) l)%list |}.
Proof.
  induction l as [|g rest IH]; intros all rs w; cbn [for_of].
  - unfold ret. simpl. rewrite !app_nil_r, andb_true_r, world_eta. reflexivity.
  - unfold bind at 1. rewrite verifyApprovalLine_spec, IH. simpl.
    rewrite <- !app_assoc, andb_assoc. reflexivity.
Qed.

Lemma solanaConfig_network n cfg :
  Verifier.solanaConfig env n = Some cfg -> truthy (Some n) = true.
Proof.
  unfold Verifier.solanaConfig. simpl.
  destruct (String.eqb n "mainnet-beta") eqn:E; [|discriminate].
  apply String.eqb_eq in E. subst n. reflexivity.
Qed.

(** The inherited names are not empty. *)
Lemma inherited_truthy name : inherited name = true -> truthy name = true.
Proof.
  destruct name as [n|]; [|discriminate].
  unfold inherited. intros H. apply existsb_exists in H.
  destruct H as (x & Hin & He). apply String.eqb_eq in He. subst x.
  unfold Object_prototype in Hin. simpl in Hin.
  repeat (destruct Hin as [<-|Hin]; [reflexivity|]). contradiction.
Qed.

(** The record's network is not an own key of [solanaConfig]: the pass
    skips the record, unless the network names an inherited member and the
    record has a delegate, when it throws. *)
Lemma verifyApproval_unlisted a n w :
  network a = Some n ->
  Verifier.solanaConfig env n = None ->
  Verifier.verifyApproval env a w =
  if inherited (network a) && truthy (delegate a)
  then match new_Connection_undefined with
       | inl msg => Thrown msg w
       | inr _ => Returned tt w
       end
  else Returned tt w.
Proof.
  intros Hn Hcfg. unfold Verifier.verifyApproval.
  rewrite Hn, Hcfg.
  assert (Hsame : (if truthy (Some n) then @None Verifier.NetworkConfig else None) = None)
    by (destruct (truthy (Some n)); reflexivity).
  rewrite Hsame.
  destruct (inherited (Some n)); [|reflexivity].
  destruct (truthy (delegate a)); reflexivity.
Qed.

Ltac enter_verifyApproval H :=
  destruct H as (n & cfg & toCheck & Hn & Hcfg & Hd & Hne & Hconn & Hkey);
  unfold Verifier.verifyApproval;
  rewrite Hn, (solanaConfig_network _ _ Hcfg), Hcfg, Hd, Hne;
  unfold bind, try_catch, construct, await, ret, updateOne;
  rewrite Hconn, Hkey.

(** The claim transaction cannot be fetched: the [catch] marks the
    record executed. *)
Lemma verifyApproval_fetch_thrown a key msg w :
  resolves env a key ->
  getTransaction env (transactionSignature a) = inl msg ->
  Verifier.verifyApproval env a w =
  Returned tt
    {| db := updateOne_docs (_id a)
               (set_executed (now env) ("Transaction fetch error: " ++ msg)) (db w);
       calls := (calls w ++ [(_id a, CallGetTransaction (transactionSignature a))])%list |}.
Proof.
  intros H Htx. enter_verifyApproval H. rewrite Htx. reflexivity.
Qed.

Lemma verifyApproval_not_found a key w :
  resolves env a key ->
  getTransaction env (transactionSignature a) = inr None ->
  Verifier.verifyApproval env a w =
  Returned tt
    {| db := updateOne_docs (_id a)
               (set_executed (now env) "Transaction not found on-chain") (db w);
       calls := (calls w ++ [(_id a, CallGetTransaction (transactionSignature a))])%list |}.
Proof.
  intros H Htx. enter_verifyApproval H. rewrite Htx. reflexivity.
Qed.

Lemma verifyApproval_failed a key tx w :
  resolves env a key ->
  getTransaction env (transactionSignature a) = inr (Some tx) ->
  Verifier.transaction_failed tx = true ->
  Verifier.verifyApproval env a w =
  Returned tt
    {| db := updateOne_docs (_id a)
               (set_executed (now env) (Verifier.failed_reason tx)) (db w);
       calls := (calls w ++ [(_id a, CallGetTransaction (transactionSignature a))])%list |}.
Proof.
  intros H Htx Hf. enter_verifyApproval H. rewrite Htx, Hf. reflexivity.
Qed.

(** The claim transaction succeeded: every grant is checked and the
    record is written once, verified or not. *)
Lemma verifyApproval_checked a key tx w :
  resolves env a key ->
  getTransaction env (transactionSignature a) = inr (Some tx) ->
  Verifier.transaction_failed tx = false ->
  Verifier.verifyApproval env a w =
  Returned tt
    {| db := updateOne_docs (_id a)
               (if forallb (grant_passes env key) (approvals a)
                then set_verified (now env)
                       (map (grant_result env key) (approvals a))
                else set_unverified (now env)
                       (map (grant_result env key) (approvals a)))
               (db w);
       calls := (calls w ++
                 (_id a, CallGetTransaction (transactionSignature a))
                 :: flat_map (grant_calls env (_id a)) (approvals a))%list |}.
Proof.
  intros H Htx Hf. enter_verifyApproval H. rewrite Htx, Hf.
  fold (@bind (bool * list VerificationResult) unit).
  rewrite verify_loop_spec. simpl.
  rewrite <- app_assoc. simpl.
  destruct (forallb (grant_passes env key) (approvals a)); reflexivity.
Qed.

(** The same two passes with the store's answers as a parameter: what is
    left to the store is the one [updateOne], and, after a refusal in the
    [try], the one in the [catch]. *)
Lemma VerifierOnStore_fetch_thrown store a key msg w :
  resolves env a key ->
  getTransaction env (transactionSignature a) = inl msg ->
  VerifierOnStore.verifyApproval store env a w =
  updateOne_on store InCatch (_id a)
    (set_executed (now env) ("Transaction fetch error: " ++ msg))
    {| db := db w;
       calls := (calls w ++ [(_id a, CallGetTransaction (transactionSignature a))])%list |}.
Proof.
  intros H Htx.
  destruct H as (n & cfg & toCheck & Hn & Hcfg & Hd & Hne & Hconn & Hkey).
  unfold VerifierOnStore.verifyApproval.
  rewrite Hn, (solanaConfig_network _ _ Hcfg), Hcfg, Hd, Hne.
  unfold bind, try_catch, construct, await.
  rewrite Hconn, Hkey, Htx. reflexivity.
Qed.

Lemma VerifierOnStore_checked store a key tx w :
  resolves env a key ->
  getTransaction env (transactionSignature a) = inr (Some tx) ->
  Verifier.transaction_failed tx = false ->
  VerifierOnStore.verifyApproval store env a w =
  try_catch
    (updateOne_on store InTry (_id a)
       (if forallb (grant_passes env key) (approvals a)
        then set_verified (now env) (map (grant_result env key) (approvals a))
        else set_unverified (now env) (map (grant_result env key) (approvals a))))
    (fun message =>
       updateOne_on store InCatch (_id a)
         (set_executed (now env) ("Transaction fetch error: " ++ message)))
    {| db := db w;
       calls := (calls w ++
                 (_id a, CallGetTransaction (transactionSignature a))
                 :: flat_map (grant_calls env (_id a)) (approvals a))%list |}.
Proof.
  intros H Htx Hf.
  destruct H as (n & cfg & toCheck & Hn & Hcfg & Hd & Hne & Hconn & Hkey).
  unfold VerifierOnStore.verifyApproval.
  rewrite Hn, (solanaConfig_network _ _ Hcfg), Hcfg, Hd, Hne.
  unfold bind at 1, construct at 1. rewrite Hconn.
  unfold bind at 1, construct at 1. rewrite Hkey.
  unfold try_catch, bind at 1, await at 1. rewrite Htx, Hf.
  unfold bind at 1. rewrite verify_loop_spec. cbn [fst snd andb app db calls].
  rewrite <- app_assoc. cbn [app].
  destruct (forallb (grant_passes env key) (approvals a)); reflexivity.
Qed.

End VerifierFacts.

(* ================================================================== *)
(** ** On a store that takes every call, the services are as above *)

Section ReliableStore.

Lemma for_of_ext {A S} (f g : A -> S -> Async S) l :
  (forall a, In a l -> forall s w, f a s w = g a s w) ->
  forall s w, for_of l f s w = for_of l g s w.
Proof.
  induction l as [|a rest IH]; intros H s w; cbn [for_of]; [reflexivity|].
  unfold bind. rewrite (H a) by (left; reflexivity).
  destruct (g a s w); [|reflexivity].
  apply IH. intros b Hb. apply H. right. exact Hb.
Qed.

Lemma VerifierOnStore_verifyApproval_accepted store env a w :
  accepts store (_id a) ->
  VerifierOnStore.verifyApproval store env a w = Verifier.verifyApproval env a w.
Proof.
  intros H. unfold VerifierOnStore.verifyApproval, Verifier.verifyApproval,
    updateOne_on.
  rewrite (H InTry), (H InCatch). reflexivity.
Qed.

Lemma ExecutorOnStore_transferApproval_accepted store env a w :
  accepts store (_id a) ->
  ExecutorOnStore.transferApproval store env a w = Executor.transferApproval env a w.
Proof.
  intros H. unfold ExecutorOnStore.transferApproval, Executor.transferApproval,
    updateOne_on.
  rewrite (H InTry), (H InCatch). reflexivity.
Qed.

Lemma find_on_reliable store query w :
  reliable store -> find_on store query w = find query w.
Proof.
  intros (Hc & Ha & _). unfold find_on. rewrite Hc, Ha. reflexivity.
Qed.

Lemma VerifierOnStore_cycle_reliable store env w :
  reliable store ->
  VerifierOnStore.verifySolanaApprovals store env w =
  Verifier.verifySolanaApprovals env w.
Proof.
  intros Hr.
  unfold VerifierOnStore.verifySolanaApprovals, Verifier.verifySolanaApprovals,
    try_catch, bind.
  rewrite (find_on_reliable store Verifier.query w Hr). unfold find.
  destruct (Nat.eqb (List.length (filter Verifier.query (db w))) 0);
    [reflexivity|].
  rewrite (for_of_ext
             (fun approvalData _ => VerifierOnStore.verifyApproval store env approvalData)
             (fun approvalData _ => Verifier.verifyApproval env approvalData));
    [reflexivity|].
  intros a _ _ w'. apply VerifierOnStore_verifyApproval_accepted.
  destruct Hr as (_ & _ & Hu). apply Hu.
Qed.

Lemma ExecutorOnStore_cycle_reliable store env w :
  reliable store ->
  ExecutorOnStore.transferApprovedTokens store env w =
  Executor.transferApprovedTokens env w.
Proof.
  intros Hr.
  unfold ExecutorOnStore.transferApprovedTokens, Executor.transferApprovedTokens,
    try_catch, bind.
  rewrite (find_on_reliable store Executor.query w Hr). unfold find.
  destruct (Nat.eqb (List.length (filter Executor.query (db w))) 0);
    [reflexivity|].
  rewrite (for_of_ext
             (fun approvalData _ => ExecutorOnStore.transferApproval store env approvalData)
             (fun approvalData _ => Executor.transferApproval env approvalData));
    [reflexivity|].
  intros a _ _ w'. apply ExecutorOnStore_transferApproval_accepted.
  destruct Hr as (_ & _ & Hu). apply Hu.
Qed.

Lemma run_cycles_on_reliable cs : forall w,
  Forall (fun c => reliable (fst c)) cs ->
  run_cycles_on cs w = run_cycles (map snd cs) w.
Proof.
  unfold run_cycles_on, run_cycles.
  induction cs as [|[store c] rest IH]; intros w Hall; cbn [map fold_left];
    [reflexivity|].
  inversion Hall as [|? ? Hr Hrest]; subst. simpl in Hr.
  assert (E : run_cycle_on w (store, c) = run_cycle w c).
  { destruct c as [env|env]; unfold run_cycle_on, run_cycle; cbn [fst snd].
    - rewrite VerifierOnStore_cycle_reliable by exact Hr. reflexivity.
    - rewrite ExecutorOnStore_cycle_reliable by exact Hr. reflexivity. }
  rewrite E. apply IH. exact Hrest.
Qed.

(** A cycle whose [connect] or [find] is refused does nothing; on a store
    that takes the writes, any other cycle is as above. *)
Lemma run_cycle_on_writable store c w :
  writable store ->
  run_cycle_on w (store, c) = w \/ run_cycle_on w (store, c) = run_cycle w c.
Proof.
  intros Hw.
  destruct (store_connect store) as [m|[]] eqn:Hc.
  { left. destruct c as [env|env]; unfold run_cycle_on; cbn [fst snd].
    - unfold VerifierOnStore.verifySolanaApprovals, try_catch, bind at 1,
        find_on, bind at 1, construct at 1.
      rewrite Hc. reflexivity.
    - unfold ExecutorOnStore.transferApprovedTokens, try_catch, bind at 1,
        find_on, bind at 1, construct at 1.
      rewrite Hc. reflexivity. }
  destruct (store_toArray store) as [m|[]] eqn:Ha.
  { left. destruct c as [env|env]; unfold run_cycle_on; cbn [fst snd].
    - unfold VerifierOnStore.verifySolanaApprovals, try_catch, bind at 1,
        find_on, bind at 1, construct at 1.
      rewrite Hc. unfold bind at 1, construct at 1. rewrite Ha. reflexivity.
    - unfold ExecutorOnStore.transferApprovedTokens, try_catch, bind at 1,
        find_on, bind at 1, construct at 1.
      rewrite Hc. unfold bind at 1, construct at 1. rewrite Ha. reflexivity. }
  right.
  assert (Hr : reliable store) by (repeat split; assumption).
  destruct c as [env|env]; unfold run_cycle_on, run_cycle; cbn [fst snd].
  - rewrite VerifierOnStore_cycle_reliable by exact Hr. reflexivity.
  - rewrite ExecutorOnStore_cycle_reliable by exact Hr. reflexivity.
Qed.


End ReliableStore.

(* ================================================================== *)
(** ** The Verifier: claims *)

Section VerifierClaims.

Import VerifierSpec.

(** A record the Verifier rejected is [VerificationFailed] whichever
    way the rejection was written. *)
Lemma set_executed_Submitted date why a :
  lifecycleState a = Submitted ->
  lifecycleState (set_executed date why a) = VerificationFailed.
Proof.
  intros H. apply Submitted_flags in H. destruct H as (Ht & _ & Hv & _).
  unfold lifecycleState. simpl. rewrite Ht, Hv. reflexivity.
Qed.

Lemma set_unverified_Submitted date rs a :
  lifecycleState a = Submitted ->
  lifecycleState (set_unverified date rs a) = VerificationFailed.
Proof.
  intros H. apply Submitted_flags in H. destruct H as (Ht & He & _ & _).
  unfold lifecycleState. simpl. rewrite Ht, He. reflexivity.
Qed.

Lemma set_verified_Submitted date rs a :
  lifecycleState a = Submitted ->
  lifecycleState (set_verified date rs a) = Verified.
Proof.
  intros H. apply Submitted_flags in H. destruct H as (Ht & He & _ & _).
  unfold lifecycleState. simpl. rewrite Ht, He. reflexivity.
Qed.

(** C7, as worded, fails on the reason text: when the claim transaction
    is not found the record's reason is not "claim transaction not
    found". *)
Lemma C7_reason_is_not_the_quoted_text :
  let env := Scenario.cycle_env 100 (Some "Custodian") None Scenario.none_found
               (Scenario.account_A (Some "Custodian") 500 300) in
  let w' := world_of (Verifier.verifySolanaApprovals env
                        (Scenario.store [Scenario.alice])) in
  lifecycleState Scenario.alice = Submitted /\
  getTransaction env (transactionSignature Scenario.alice) = inr None /\
  option_map reason (findOne 1 (db w')) <>
    Some (Some "claim transaction not found").
Proof. vm_compute. repeat split; discriminate. Qed.

(** C7 (amended): for a Submitted record whose claim transaction is
    absent, or present but failed, the Verifier marks the record executed,
    which makes it [VerificationFailed], with reason "Transaction not found
    on-chain", respectively "Transaction failed: " followed by the ledger's
    error; the only ledger call made for the record is the transaction
    fetch, so no grant is checked. *)
Theorem C7_claim_transaction_absent_or_failed env a key otx w :
  findOne (_id a) (db w) = Some a ->
  lifecycleState a = Submitted ->
  resolves env a key ->
  getTransaction env (transactionSignature a) = inr otx ->
  match otx with
  | None => True
  | Some tx => Verifier.transaction_failed tx = true
  end ->
  exists w' a',
    Verifier.verifyApproval env a w = Returned tt w' /\
    findOne (_id a) (db w') = Some a' /\
    lifecycleState a' = VerificationFailed /\
    executed a' = Some true /\
    reason a' = Some (match otx with
                      | None => "Transaction not found on-chain"
                      | Some tx => Verifier.failed_reason tx
                      end) /\
    (forall e, otx = Some {| meta := Some {| err := Some e |} |} ->
               reason a' = Some ("Transaction failed: " ++ e)) /\
    calls w' = (calls w ++ [(_id a, CallGetTransaction (transactionSignature a))])%list.
Proof.
  intros Hfind Hsub Hres Htx Hfail.
  destruct otx as [tx|].
  - rewrite (verifyApproval_failed env a key tx w Hres Htx Hfail).
    eexists; eexists. split; [reflexivity|]. simpl.
    rewrite findOne_updateOne_same by apply set_executed_keeps_id.
    rewrite Hfind. simpl. split; [reflexivity|].
    split; [apply set_executed_Submitted; exact Hsub|].
    repeat split. intros e He. inversion He; subst. reflexivity.
  - rewrite (verifyApproval_not_found env a key w Hres Htx).
    eexists; eexists. split; [reflexivity|]. simpl.
    rewrite findOne_updateOne_same by apply set_executed_keeps_id.
    rewrite Hfind. simpl. split; [reflexivity|].
    split; [apply set_executed_Submitted; exact Hsub|].
    repeat split. intros e He. discriminate.
Qed.

(** Discharges [resolves] on a concrete "mainnet-beta" record. *)
Ltac resolve_with toCheck :=
  exists "mainnet-beta"; eexists; exists toCheck; repeat split; reflexivity.

Lemma C7_claim_transaction_absent_or_failed_witness :
  exists w' a',
    Verifier.verifyApproval
      (Scenario.cycle_env 100 (Some "Custodian") None Scenario.all_reverted
         (Scenario.account_A (Some "Custodian") 500 300))
      Scenario.alice (Scenario.store [Scenario.alice]) = Returned tt w' /\
    findOne 1 (db w') = Some a' /\
    lifecycleState a' = VerificationFailed /\
    executed a' = Some true /\
    reason a' = Some "Transaction failed: [0,6001]" /\
    (forall e, Some Scenario.reverted = Some {| meta := Some {| err := Some e |} |} ->
               reason a' = Some ("Transaction failed: " ++ e)) /\
    calls w' = [(1, CallGetTransaction "sigA")].
Proof.
  apply (C7_claim_transaction_absent_or_failed
           (Scenario.cycle_env 100 (Some "Custodian") None Scenario.all_reverted
              (Scenario.account_A (Some "Custodian") 500 300))
           Scenario.alice "Custodian" (Some Scenario.reverted)
           (Scenario.store [Scenario.alice])).
  - reflexivity.
  - reflexivity.
  - resolve_with "Custodian".
  - reflexivity.
  - reflexivity.
Defined.

(** C4, as worded, fails: a ledger error while the claim transaction is
    fetched does not leave the record as it was; the record is marked
    executed and no later cycle selects it. *)
Lemma C4_fetch_error_changes_the_record :
  let env := Scenario.cycle_env 100 (Some "Custodian") None Scenario.unreachable
               (Scenario.account_A (Some "Custodian") 500 300) in
  let w' := world_of (Verifier.verifySolanaApprovals env
                        (Scenario.store [Scenario.alice])) in
  getTransaction env (transactionSignature Scenario.alice) = inl "fetch failed" /\
  findOne 1 (db w') <> Some Scenario.alice /\
  option_map executed (findOne 1 (db w')) = Some (Some true) /\
  filter Verifier.query (db w') = [].
Proof. vm_compute. repeat split; discriminate. Qed.

(** C4 (amended): when the ledger raises an error while the Verifier
    processes a Submitted record, the pass issues one write that records the
    error, each cause in its own way, and what follows depends on whether
    the store takes that write.

    Raised by the claim-transaction fetch: the write is the one in the
    [catch].  When the store takes it, the record is marked executed at the
    cycle's time with reason "Transaction fetch error: " and the message,
    its verification fields stay as they were, no grant is read, no later
    cycle selects the record, and the loop goes on to the remaining records
    of the cycle.  When the store refuses it, the record is left as it was
    and the error ends the loop: the remaining records are not processed in
    this cycle.

    Raised while a grant's token account is read (the fetch having returned
    a transaction that succeeded): the write is the one in the [try].  When
    the store takes it, every such grant is recorded as failed with its
    message, and the record is written with verified [false] and the reason
    "Some approvals failed verification", its executed flag as it was, so
    that it is selected again exactly if it was; the loop goes on to the
    remaining records.

    Whenever the write is taken the record is changed and becomes
    [VerificationFailed]. *)
Theorem C4_ledger_error_is_recorded store env a key msg rest w :
  findOne (_id a) (db w) = Some a ->
  lifecycleState a = Submitted ->
  resolves env a key ->
  (getTransaction env (transactionSignature a) = inl msg ->
   (store_updateOne store (_id a) InCatch = inr tt ->
    exists w1 a',
      for_of (a :: rest)
        (fun approvalData _ => VerifierOnStore.verifyApproval store env approvalData)
        tt w =
      for_of rest
        (fun approvalData _ => VerifierOnStore.verifyApproval store env approvalData)
        tt w1 /\
      findOne (_id a) (db w1) = Some a' /\
      a' <> a /\
      lifecycleState a' = VerificationFailed /\
      executed a' = Some true /\
      executedAt a' = Some (now env) /\
      reason a' = Some ("Transaction fetch error: " ++ msg) /\
      verified a' = verified a /\
      verifiedAt a' = verifiedAt a /\
      verificationResults a' = verificationResults a /\
      Verifier.query a' = false /\
      calls w1 =
        (calls w ++ [(_id a, CallGetTransaction (transactionSignature a))])%list) /\
   (forall refusal,
      store_updateOne store (_id a) InCatch = inl refusal ->
      for_of (a :: rest)
        (fun approvalData _ => VerifierOnStore.verifyApproval store env approvalData)
        tt w =
      Thrown refusal
        {| db := db w;
           calls := (calls w ++
                     [(_id a, CallGetTransaction (transactionSignature a))])%list |}))
  /\
  (forall tx g,
     getTransaction env (transactionSignature a) = inr (Some tx) ->
     Verifier.transaction_failed tx = false ->
     In g (approvals a) -> grant_account env g = inl msg ->
     store_updateOne store (_id a) InTry = inr tt ->
     exists w1 a' rs,
       for_of (a :: rest)
         (fun approvalData _ => VerifierOnStore.verifyApproval store env approvalData)
         tt w =
       for_of rest
         (fun approvalData _ => VerifierOnStore.verifyApproval store env approvalData)
         tt w1 /\
       findOne (_id a) (db w1) = Some a' /\
       a' <> a /\
       lifecycleState a' = VerificationFailed /\
       verified a' = Some false /\
       verifiedAt a' = Some (now env) /\
       reason a' = Some "Some approvals failed verification" /\
       verificationResults a' = Some rs /\
       executed a' = executed a /\
       executedAt a' = executedAt a /\
       Verifier.query a' = Verifier.query a /\
       map vr_tokenAccount rs = map tokenAccount (approvals a) /\
       In {| vr_tokenAccount := tokenAccount g; vr_verified := false;
             vr_delegatedAmount := None; vr_reason := Some msg |} rs /\
       forall g' m,
         In g' (approvals a) -> grant_account env g' = inl m ->
         In {| vr_tokenAccount := tokenAccount g'; vr_verified := false;
               vr_delegatedAmount := None; vr_reason := Some m |} rs).
Proof.
  intros Hfind Hsub Hres.
  pose proof (Submitted_flags a Hsub) as (Ht & He & Hv & Hva).
  split.
  - intros Htx. split.
    + intros Hstore. eexists; eexists. split.
      { cbn [for_of]. unfold bind at 1.
        rewrite (VerifierOnStore_fetch_thrown env store a key msg w Hres Htx).
        unfold updateOne_on, bind, construct. rewrite Hstore. reflexivity. }
      simpl. rewrite findOne_updateOne_same by apply set_executed_keeps_id.
      rewrite Hfind. simpl. split; [reflexivity|].
      split.
      { intros E. apply (f_equal executed) in E. simpl in E.
        rewrite <- E in He. discriminate. }
      split; [apply set_executed_Submitted; exact Hsub|].
      repeat split.
      unfold Verifier.query. simpl. apply andb_false_r.
    + intros refusal Hstore. cbn [for_of]. unfold bind at 1.
      rewrite (VerifierOnStore_fetch_thrown env store a key msg w Hres Htx).
      unfold updateOne_on, bind, construct. rewrite Hstore. reflexivity.
  - intros tx g Htx Hok Hin Hacc Hstore.
    assert (Hfail : grant_passes env key g = false)
      by (unfold grant_passes; rewrite Hacc; reflexivity).
    assert (Hall : forallb (grant_passes env key) (approvals a) = false).
    { destruct (forallb (grant_passes env key) (approvals a)) eqn:E;
        [|reflexivity].
      rewrite forallb_forall in E. rewrite (E g Hin) in Hfail.
      discriminate. }
    assert (Hrec : forall g' m,
      In g' (approvals a) -> grant_account env g' = inl m ->
      In {| vr_tokenAccount := tokenAccount g'; vr_verified := false;
            vr_delegatedAmount := None; vr_reason := Some m |}
         (map (grant_result env key) (approvals a))).
    { intros g' m Hin' Hacc'.
      apply in_map_iff. exists g'. split; [|exact Hin'].
      unfold grant_result, grant_passes, failing_condition. rewrite Hacc'.
      reflexivity. }
    eexists; eexists; eexists. split.
    { cbn [for_of]. unfold bind at 1.
      rewrite (VerifierOnStore_checked env store a key tx w Hres Htx Hok), Hall.
      unfold try_catch, updateOne_on, bind, construct. rewrite Hstore.
      reflexivity. }
    simpl. rewrite findOne_updateOne_same by apply set_unverified_keeps_id.
    rewrite Hfind. simpl. split; [reflexivity|].
    split.
    { intros E. apply (f_equal verifiedAt) in E. simpl in E.
      rewrite Hva in E. discriminate. }
    split; [apply set_unverified_Submitted; exact Hsub|].
    split; [reflexivity|]. split; [reflexivity|]. split; [reflexivity|].
    split; [reflexivity|]. split; [reflexivity|]. split; [reflexivity|].
    split.
    { unfold Verifier.query. simpl. rewrite Hv. reflexivity. }
    split.
    { rewrite map_map. apply map_ext. intros g'. unfold grant_result.
      destruct (grant_passes env key g'); reflexivity. }
    split; [apply Hrec; assumption | exact Hrec].
Qed.

Lemma C4_ledger_error_is_recorded_witness :
  let env := Scenario.cycle_env 100 (Some "Custodian") None Scenario.unreachable
               (Scenario.account_A (Some "Custodian") 500 300) in
  exists w1 a',
    for_of [Scenario.alice; Scenario.bob]
      (fun approvalData _ =>
         VerifierOnStore.verifyApproval Scenario.steady env approvalData) tt
      (Scenario.store [Scenario.alice; Scenario.bob]) =
    for_of [Scenario.bob]
      (fun approvalData _ =>
         VerifierOnStore.verifyApproval Scenario.steady env approvalData) tt w1 /\
    findOne 1 (db w1) = Some a' /\
    a' <> Scenario.alice /\
    lifecycleState a' = VerificationFailed /\
    executed a' = Some true /\
    reason a' = Some "Transaction fetch error: fetch failed" /\
    Verifier.query a' = false.
Proof.
  intros env.
  destruct (C4_ledger_error_is_recorded Scenario.steady env Scenario.alice
              "Custodian" "fetch failed" [Scenario.bob]
              (Scenario.store [Scenario.alice; Scenario.bob]))
    as (Hfetch & _).
  - reflexivity.
  - reflexivity.
  - resolve_with "Custodian".
  - destruct Hfetch as (Htaken & _); [reflexivity|].
    destruct Htaken
      as (w1 & a' & Hloop & Hfind & Hne & Hstate & He & _ & Hr & _ & _ & _ & Hq & _);
      [reflexivity|].
    exists w1, a'. repeat split; assumption.
Defined.

(** The other cause: the custodian's ledger cannot read token account
    "B" of Bob's second grant. *)
Example grant_read_error_scenario :
  let env := Scenario.honest 100 in
  let w' := world_of (VerifierOnStore.verifySolanaApprovals Scenario.steady env
                        (Scenario.store [Scenario.bob])) in
  grant_account env Scenario.grant_B = inl "TokenAccountNotFoundError" /\
  option_map verified (findOne 2 (db w')) = Some (Some false) /\
  option_map executed (findOne 2 (db w')) = Some (Some false) /\
  option_map verificationResults (findOne 2 (db w')) =
    Some (Some [{| vr_tokenAccount := "A"; vr_verified := true;
                   vr_delegatedAmount := Some "500"; vr_reason := None |};
                {| vr_tokenAccount := "B"; vr_verified := false;
                   vr_delegatedAmount := None;
                   vr_reason := Some "TokenAccountNotFoundError" |}]) /\
  filter Verifier.query (db w') = db w'.
Proof. vm_compute. repeat split. Qed.

(** When the store refuses the write in the [catch], the error leaves the
    loop: the record is as it was and the records after it are not
    reached in this cycle. *)
Example refused_write_ends_the_cycle :
  let env := Scenario.cycle_env 100 (Some "Custodian") None Scenario.unreachable
               (Scenario.account_A (Some "Custodian") 500 300) in
  let w := Scenario.store [Scenario.alice; Scenario.bob] in
  let w' := world_of (VerifierOnStore.verifySolanaApprovals Scenario.read_only env w) in
  db w' = db w /\
  calls w' = [(1, CallGetTransaction "sigA")].
Proof. vm_compute. split; reflexivity. Qed.

Lemma for_of_map {A B S} (h : A -> B) (body : B -> S -> Async S) l :
  forall s w,
    for_of (map h l) body s w = for_of l (fun x => body (h x)) s w.
Proof.
  induction l as [|x rest IH]; intros s w; cbn [for_of map]; [reflexivity|].
  unfold bind. destruct (body (h x) s w); [apply IH | reflexivity].
Qed.

(** The claimed amounts play no part in what the Verifier does. *)
Lemma verifyApproval_ignores_claimed env f a w :
  Verifier.verifyApproval env (with_claimed_amounts f a) w =
  Verifier.verifyApproval env a w.
Proof.
  unfold Verifier.verifyApproval, Verifier.delegateToCheck.
  cbn [network delegate approvals _id transactionSignature with_claimed_amounts].
  destruct (if truthy (network a)
            then match network a with
                 | Some n => Verifier.solanaConfig env n
                 | None => None
                 end
            else None) as [cfg|]; [|reflexivity].
  destruct (or_else (Verifier.delegateAddress cfg) (delegate a)) as [d|];
    [|reflexivity].
  destruct (String.eqb d EmptyString); [reflexivity|].
  unfold bind, try_catch, construct, await.
  destruct (new_Connection env (Verifier.rpcUrl cfg)); [reflexivity|].
  destruct (new_PublicKey env d) as [|key]; [reflexivity|].
  destruct (getTransaction env (transactionSignature a)) as [m|[tx|]];
    try reflexivity.
  destruct (Verifier.transaction_failed tx); [reflexivity|].
  rewrite for_of_map. reflexivity.
Qed.

(** C3: for a Submitted record whose claim transaction exists and
    succeeded, the Verifier writes [Verified] exactly when every grant line
    passes both checks (on-chain delegate equal to the expected key,
    delegated amount above zero); otherwise the whole record is
    [VerificationFailed], with verified [false] and the failing condition
    recorded for each failing grant; the outcome is the same whatever the
    claimed amounts are. *)
Theorem C3_verified_iff_all_grants_pass env a key tx w :
  findOne (_id a) (db w) = Some a ->
  lifecycleState a = Submitted ->
  resolves env a key ->
  getTransaction env (transactionSignature a) = inr (Some tx) ->
  Verifier.transaction_failed tx = false ->
  exists w' a' rs,
    Verifier.verifyApproval env a w = Returned tt w' /\
    findOne (_id a) (db w') = Some a' /\
    (lifecycleState a' = Verified <->
     forallb (grant_passes env key) (approvals a) = true) /\
    lifecycleState a' =
      (if forallb (grant_passes env key) (approvals a)
       then Verified else VerificationFailed) /\
    verified a' = Some (forallb (grant_passes env key) (approvals a)) /\
    verificationResults a' = Some rs /\
    Forall2 (fun g r =>
               vr_tokenAccount r = tokenAccount g /\
               vr_verified r = grant_passes env key g /\
               (grant_passes env key g = false ->
                vr_reason r = Some (failing_condition env key g)))
            (approvals a) rs /\
    (forall f, Verifier.verifyApproval env (with_claimed_amounts f a) w =
               Returned tt w').
Proof.
  intros Hfind Hsub Hres Htx Hok.
  pose proof (verifyApproval_checked env a key tx w Hres Htx Hok) as Hrun.
  exists (world_of (Verifier.verifyApproval env a w)).
  rewrite Hrun. cbn [world_of db].
  assert (Hrs : Forall2 (fun g r =>
               vr_tokenAccount r = tokenAccount g /\
               vr_verified r = grant_passes env key g /\
               (grant_passes env key g = false ->
                vr_reason r = Some (failing_condition env key g)))
            (approvals a) (map (grant_result env key) (approvals a))).
  { clear. induction (approvals a) as [|g rest IH]; simpl; constructor;
      [|exact IH].
    unfold grant_result.
    destruct (grant_passes env key g); simpl; repeat split; auto.
    discriminate. }
  destruct (forallb (grant_passes env key) (approvals a)) eqn:Hall.
  - exists (set_verified (now env) (map (grant_result env key) (approvals a)) a).
    eexists. split; [reflexivity|].
    rewrite findOne_updateOne_same by apply set_verified_keeps_id.
    rewrite Hfind. simpl. split; [reflexivity|].
    rewrite (set_verified_Submitted _ _ _ Hsub).
    split; [split; reflexivity|].
    split; [reflexivity|]. split; [reflexivity|]. split; [reflexivity|].
    split; [exact Hrs|].
    intros f. rewrite verifyApproval_ignores_claimed. exact Hrun.
  - exists (set_unverified (now env) (map (grant_result env key) (approvals a)) a).
    eexists. split; [reflexivity|].
    rewrite findOne_updateOne_same by apply set_unverified_keeps_id.
    rewrite Hfind. simpl. split; [reflexivity|].
    rewrite (set_unverified_Submitted _ _ _ Hsub).
    split; [split; discriminate|].
    split; [reflexivity|]. split; [reflexivity|]. split; [reflexivity|].
    split; [exact Hrs|].
    intros f. rewrite verifyApproval_ignores_claimed. exact Hrun.
Qed.

Lemma C3_verified_iff_all_grants_pass_witness :
  let env := Scenario.honest 100 in
  let w := Scenario.store [Scenario.alice] in
  lifecycleState Scenario.alice = Submitted /\
  forallb (grant_passes env "Custodian") (approvals Scenario.alice) = true /\
  exists a',
    findOne 1 (db (world_of (Verifier.verifyApproval env Scenario.alice w))) = Some a' /\
    lifecycleState a' = Verified.
Proof.
  intros env w.
  split; [reflexivity|]. split; [reflexivity|].
  destruct (C3_verified_iff_all_grants_pass env Scenario.alice "Custodian"
              Scenario.succeeded w)
    as (w' & a' & rs & Hrun & Hfind & Hiff & _).
  - reflexivity.
  - reflexivity.
  - resolve_with "Custodian".
  - reflexivity.
  - reflexivity.
  - exists a'. rewrite Hrun. split; [exact Hfind|].
    apply Hiff. reflexivity.
Defined.

(** The stored [delegate] plays no part once an address is configured. *)
Lemma verifyApproval_ignores_stored_delegate env a n cfg stored w :
  network a = Some n ->
  Verifier.solanaConfig env n = Some cfg ->
  truthy (Verifier.delegateAddress cfg) = true ->
  Verifier.verifyApproval env (with_delegate stored a) w =
  Verifier.verifyApproval env a w.
Proof.
  intros Hn Hcfg Ht.
  unfold Verifier.verifyApproval, Verifier.delegateToCheck, or_else.
  cbn [network delegate approvals _id transactionSignature with_delegate].
  rewrite Hn, (solanaConfig_network _ _ _ Hcfg), Hcfg, Ht. reflexivity.
Qed.

(** C10: with the record's network configured, the address the grants
    are checked against is the configured delegate address whenever one is
    supplied, whatever the record's own [delegate] field holds; the stored
    delegate is the one used exactly when no address is configured; with
    neither, the record is skipped and nothing changes.  Whenever the grants
    are checked, the verdict compares each account's on-chain delegate with
    the key parsed from that address. *)
Theorem C10_configured_delegate_takes_precedence env a n cfg :
  network a = Some n ->
  Verifier.solanaConfig env n = Some cfg ->
  (truthy (Verifier.delegateAddress cfg) = true ->
     Verifier.delegateAddress cfg = SOLANA_MAINNET_DELEGATE env /\
     Verifier.delegateToCheck cfg a = Verifier.delegateAddress cfg /\
     forall stored w,
       Verifier.verifyApproval env (with_delegate stored a) w =
       Verifier.verifyApproval env a w) /\
  (truthy (Verifier.delegateAddress cfg) = false ->
     Verifier.delegateToCheck cfg a = delegate a) /\
  (truthy (Verifier.delegateAddress cfg) = false ->
   truthy (delegate a) = false ->
     forall w, Verifier.verifyApproval env a w = Returned tt w) /\
  (forall toCheck key tx w,
     Verifier.delegateToCheck cfg a = Some toCheck ->
     String.eqb toCheck EmptyString = false ->
     new_Connection env (Verifier.rpcUrl cfg) = inr tt ->
     new_PublicKey env toCheck = inr key ->
     getTransaction env (transactionSignature a) = inr (Some tx) ->
     Verifier.transaction_failed tx = false ->
     db (world_of (Verifier.verifyApproval env a w)) =
     updateOne_docs (_id a)
       (if forallb (fun g =>
                      match grant_account env g with
                      | inr acc => delegate_is key acc && has_allowance acc
                      | inl _ => false
                      end) (approvals a)
        then set_verified (now env) (map (grant_result env key) (approvals a))
        else set_unverified (now env) (map (grant_result env key) (approvals a)))
       (db w)).
Proof.
  intros Hn Hcfg.
  split; [intros Ht; split; [|split] | split; [|split]].
  - unfold Verifier.solanaConfig in Hcfg.
    destruct (String.eqb n "mainnet-beta"); [|discriminate].
    inversion Hcfg; subst. reflexivity.
  - unfold Verifier.delegateToCheck, or_else. rewrite Ht. reflexivity.
  - intros stored w.
    apply (verifyApproval_ignores_stored_delegate env a n cfg stored w); assumption.
  - intros Hf. unfold Verifier.delegateToCheck, or_else. rewrite Hf. reflexivity.
  - intros Hf Hd w.
    unfold Verifier.verifyApproval, Verifier.delegateToCheck, or_else.
    rewrite Hn, (solanaConfig_network _ _ _ Hcfg), Hcfg, Hf.
    destruct (delegate a) as [d|]; [|reflexivity].
    simpl in Hd. apply negb_false_iff in Hd. rewrite Hd. reflexivity.
  - intros toCheck key tx w Hd Hne Hconn Hkey Htx Hok.
    rewrite (verifyApproval_checked env a key tx w); try assumption.
    + reflexivity.
    + exists n, cfg, toCheck. repeat split; assumption.
Qed.

Lemma C10_configured_delegate_takes_precedence_witness :
  let env := Scenario.honest 100 in
  let mallory := with_delegate (Some "Mallory") Scenario.alice in
  let w := Scenario.store [mallory] in
  Verifier.delegateToCheck
    {| Verifier.rpcUrl := "https://api.mainnet-beta.solana.com";
       Verifier.delegateAddress := Some "Custodian" |} mallory = Some "Custodian" /\
  Verifier.verifyApproval env (with_delegate None mallory) w =
  Verifier.verifyApproval env mallory w.
Proof.
  intros env mallory w.
  destruct (C10_configured_delegate_takes_precedence env mallory "mainnet-beta"
              {| Verifier.rpcUrl := "https://api.mainnet-beta.solana.com";
                 Verifier.delegateAddress := Some "Custodian" |})
    as (Hconfigured & _).
  - reflexivity.
  - reflexivity.
  - destruct Hconfigured as (_ & Hcheck & Hsame); [reflexivity|].
    split; [exact Hcheck | apply Hsame].
Defined.

End VerifierClaims.

(* ================================================================== *)
(** ** The Transfer Executor: the grant loop *)

Section ExecutorFacts.

Import ExecutorSpec.
Variable env : Env.

Lemma transfer_amount_eq acc :
  (if (SplToken.delegatedAmount acc <? SplToken.amount acc)%Z
   then SplToken.delegatedAmount acc else SplToken.amount acc)
  = transfer_amount acc.
Proof.
  unfold transfer_amount.
  destruct (Z.ltb_spec (SplToken.delegatedAmount acc) (SplToken.amount acc)); lia.
Qed.

(** One pass of the loop body never throws. *)
Lemma transferApprovalLine_spec id dk destk g rs tx w :
  Executor.transferApprovalLine env id dk destk g (rs, tx) w =
  Returned ((rs ++ [fst (grant_transfer env dk destk g)])%list,
            (tx ++ instruction_of (snd (grant_transfer env dk destk g)))%list)
           {| db := db w;
              calls := (calls w ++ grant_calls env id dk destk g)%list |}.
Proof.
  unfold Executor.transferApprovalLine, grant_transfer, grant_calls,
    destination_accounts, VerifierSpec.delegate_is,
    try_catch, bind, construct, await, ret.
  destruct (new_PublicKey env (tokenAccount g)) as [msg|k]; simpl.
  - rewrite !app_nil_r, world_eta. reflexivity.
  - destruct (getAccount env k) as [msg|acc]; simpl.
    + rewrite app_nil_r. reflexivity.
    + rewrite transfer_amount_eq.
      destruct (negb match SplToken.delegate acc with
                     | Some k0 => String.eqb k0 dk
                     | None => false
                     end); simpl; [rewrite app_nil_r; reflexivity|].
      destruct (SplToken.delegatedAmount acc =? 0)%Z; simpl;
        [rewrite app_nil_r; reflexivity|].
      destruct (transfer_amount acc =? 0)%Z; simpl;
        [rewrite app_nil_r; reflexivity|].
      destruct (new_PublicKey env (mint g)) as [msg|mk]; simpl;
        [rewrite app_nil_r; reflexivity|].
      rewrite <- app_assoc. simpl.
      destruct (getParsedTokenAccountsByOwner env destk mk) as [msg|[|t ts]];
        simpl; rewrite ?app_nil_r; reflexivity.
Qed.

Lemma transfer_loop_spec id dk destk l : forall rs tx w,
  for_of l (Executor.transferApprovalLine env id dk destk) (rs, tx) w =
  Returned ((rs ++ map (fun g => fst (grant_transfer env dk destk g)) l)%list,
            (tx ++ flat_map (fun g => instruction_of
                                       (snd (grant_transfer env dk destk g))) l)%list)
           {| db := db w;
              calls := (calls w ++ flat_map (grant_calls env id dk destk) l)%list |}.
Proof.
  induction l as [|g rest IH]; intros rs tx w; cbn [for_of].
  - unfold ret. simpl. rewrite !app_nil_r, world_eta. reflexivity.
  - unfold bind at 1. rewrite transferApprovalLine_spec, IH. simpl.
    rewrite <- !app_assoc. reflexivity.
Qed.



Lemma grant_transfer_success dk destk g :
  tr_success (fst (grant_transfer env dk destk g)) =
  match snd (grant_transfer env dk destk g) with
  | Some _ => true
  | None => false
  end.
Proof.
  unfold grant_transfer.
  destruct (new_PublicKey env (tokenAccount g)); [reflexivity|].
  destruct (getAccount env s) as [|acc]; [reflexivity|].
  destruct (negb (VerifierSpec.delegate_is dk acc)); [reflexivity|].
  destruct (SplToken.delegatedAmount acc =? 0)%Z; [reflexivity|].
  destruct (transfer_amount acc =? 0)%Z; [reflexivity|].
  destruct (destination_accounts env destk g) as [|[|t ts]];
    reflexivity.
Qed.

(** The batch is made of one instruction per successful result, in the
    order of the grants. *)
Lemma batch_by_grant dk destk l :
  Forall2 (fun gr ix =>
             snd gr = fst (grant_transfer env dk destk (fst gr)) /\
             snd (grant_transfer env dk destk (fst gr)) = Some ix)
    (batched l (map (fun g => fst (grant_transfer env dk destk g)) l))
    (flat_map (fun g => instruction_of (snd (grant_transfer env dk destk g))) l).
Proof.
  unfold batched.
  induction l as [|g rest IH]; simpl; [constructor|].
  rewrite grant_transfer_success.
  destruct (snd (grant_transfer env dk destk g)) as [ix|] eqn:E; simpl.
  - constructor; [|exact IH]. simpl. split; [reflexivity | exact E].
  - exact IH.
Qed.

(** What is known of a grant that enters the batch. *)
Lemma grant_transfer_batched dk destk g ix :
  snd (grant_transfer env dk destk g) = Some ix ->
  exists acc mintKey others,
    new_PublicKey env (tokenAccount g) = inr (ix_source ix) /\
    getAccount env (ix_source ix) = inr acc /\
    VerifierSpec.delegate_is dk acc = true /\
    SplToken.delegatedAmount acc <> 0%Z /\
    ix_amount ix = transfer_amount acc /\
    ix_amount ix <> 0%Z /\
    ix_authority ix = dk /\
    new_PublicKey env (mint g) = inr mintKey /\
    getParsedTokenAccountsByOwner env destk mintKey =
      inr (ix_destination ix :: others) /\
    fst (grant_transfer env dk destk g) =
      {| tr_tokenAccount := tokenAccount g; tr_mint := Some (mint g);
         tr_amount := Some (bigint_toString (ix_amount ix));
         tr_success := true; tr_reason := None |}.
Proof.
  unfold grant_transfer, destination_accounts.
  destruct (new_PublicKey env (tokenAccount g)) as [msg|k]; [discriminate|].
  destruct (getAccount env k) as [msg|acc] eqn:Hacc; [discriminate|].
  destruct (VerifierSpec.delegate_is dk acc) eqn:Hd; simpl; [|discriminate].
  destruct (Z.eqb_spec (SplToken.delegatedAmount acc) 0) as [|Hdz];
    [discriminate|].
  destruct (Z.eqb_spec (transfer_amount acc) 0) as [|Hnz]; [discriminate|].
  destruct (new_PublicKey env (mint g)) as [msg|mk]; [discriminate|].
  destruct (getParsedTokenAccountsByOwner env destk mk) as [msg|[|t ts]] eqn:Hp;
    try discriminate.
  simpl. intros E. inversion E; subst. simpl.
  exists acc, mk, ts. repeat split; auto.
Qed.


(** An unreadable token account is recorded with the error's message. *)
Lemma grant_transfer_unread dk destk g m :
  VerifierSpec.grant_account env g = inl m ->
  failed_with (fst (grant_transfer env dk destk g)) m.
Proof.
  unfold VerifierSpec.grant_account, grant_transfer, failed_with.
  destruct (new_PublicKey env (tokenAccount g)) as [msg|k].
  - intros E. inversion E; subst. repeat split.
  - destruct (getAccount env k) as [msg|acc]; [|discriminate].
    intros E. inversion E; subst. repeat split.
Qed.



End ExecutorFacts.

(* ================================================================== *)
(** ** What processing one document does *)

Section Effects.

Import ExecutorSpec.
Variable env : Env.

Lemma world_nil (w : World) :
  {| db := db w; calls := (calls w ++ [])%list |} = w.
Proof. rewrite app_nil_r. apply world_eta. Qed.

Lemma executor_grant_calls_tagged id dk destk l :
  Forall (fun c => fst c = id) (flat_map (grant_calls env id dk destk) l).
Proof.
  apply Forall_forall. intros c Hc. apply in_flat_map in Hc.
  destruct Hc as (g & _ & Hc). unfold grant_calls in Hc.
  destruct (new_PublicKey env (tokenAccount g)) as [|source]; [contradiction|].
  destruct Hc as [<-|Hc]; [reflexivity|].
  destruct (getAccount env source) as [|acc]; [contradiction|].
  destruct (negb (VerifierSpec.delegate_is dk acc)
            || (SplToken.delegatedAmount acc =? 0)%Z
            || (transfer_amount acc =? 0)%Z); [contradiction|].
  destruct (new_PublicKey env (mint g)); [contradiction|].
  destruct Hc as [<-|[]]. reflexivity.
Qed.

Ltac effect_is wr nw :=
  exists wr, nw; split; [try exact I; constructor|];
  split; [repeat (apply Forall_app; split);
          repeat constructor; try apply executor_grant_calls_tagged|].

(** The Transfer Executor's pass over one document never throws; it makes
    ledger calls on the document's behalf and then leaves the collection
    alone or issues one [updateOne] on the document's [_id].  Which one, and
    what it sets, is fixed by the snapshot [a] and the ledger, not by the
    collection. *)
Lemma transferApproval_effect a :
  exists write new,
    match write with Some set => executor_write set | None => True end /\
    Forall (fun c => fst c = _id a) new /\
    forall w,
      Executor.transferApproval env a w =
      Returned tt {| db := apply_write (_id a) write (db w);
                     calls := (calls w ++ new)%list |}.
Proof.
  unfold Executor.transferApproval.
  destruct (if truthy (network a)
            then match network a with
                 | Some n => Executor.solanaConfig env n
                 | None => None
                 end
            else None) as [cfg|];
    [|effect_is (@None (ApprovalDoc -> ApprovalDoc)) (@nil (nat * LedgerCall));
      intros w; simpl; rewrite world_nil; reflexivity].
  destruct (Executor.delegatePrivateKey cfg) as [privateKey|];
    [|effect_is (@None (ApprovalDoc -> ApprovalDoc)) (@nil (nat * LedgerCall));
      intros w; simpl; rewrite world_nil; reflexivity].
  destruct (Executor.destinationAddress cfg) as [destination|];
    [|effect_is (@None (ApprovalDoc -> ApprovalDoc)) (@nil (nat * LedgerCall));
      intros w; simpl; rewrite world_nil; reflexivity].
  destruct (String.eqb privateKey EmptyString);
    [effect_is (@None (ApprovalDoc -> ApprovalDoc)) (@nil (nat * LedgerCall));
     intros w; simpl; rewrite world_nil; reflexivity|].
  destruct (String.eqb destination EmptyString);
    [effect_is (@None (ApprovalDoc -> ApprovalDoc)) (@nil (nat * LedgerCall));
     intros w; simpl; rewrite world_nil; reflexivity|].
  unfold try_catch, bind, construct, ret, updateOne.
  destruct (Executor.getKeypairFromPrivateKey env privateKey) as [msg|kp].
  { effect_is (Some (set_executed (now env) ("Transfer error: " ++ msg)))
              (@nil (nat * LedgerCall)).
    intros w. simpl. rewrite app_nil_r. reflexivity. }
  destruct (negb match delegate a with
                 | Some d => String.eqb (Executor.publicKey kp) d
                 | None => false
                 end).
  { effect_is (@None (ApprovalDoc -> ApprovalDoc)) (@nil (nat * LedgerCall)).
    intros w; simpl; rewrite world_nil; reflexivity. }
  destruct (new_Connection env (Executor.rpcUrl cfg)) as [msg|[]].
  { effect_is (Some (set_executed (now env) ("Transfer error: " ++ msg)))
              (@nil (nat * LedgerCall)).
    intros w. simpl. rewrite app_nil_r. reflexivity. }
  destruct (new_PublicKey env destination) as [msg|destk].
  { effect_is (Some (set_executed (now env) ("Transfer error: " ++ msg)))
              (@nil (nat * LedgerCall)).
    intros w. simpl. rewrite app_nil_r. reflexivity. }
  destruct (new_PublicKey env (owner a)) as [msg|ownerk].
  { effect_is (Some (set_executed (now env) ("Transfer error: " ++ msg)))
              (@nil (nat * LedgerCall)).
    intros w. simpl. rewrite app_nil_r. reflexivity. }
  set (dk := Executor.publicKey kp).
  set (rs := map (fun g => fst (grant_transfer env dk destk g)) (approvals a)).
  set (tx := flat_map (fun g => instruction_of (snd (grant_transfer env dk destk g)))
                      (approvals a)).
  set (reads := flat_map (grant_calls env (_id a) dk destk) (approvals a)).
  destruct (Nat.eqb (List.length tx) 0) eqn:Hempty.
  { effect_is (Some (set_nothing_transferred (now env) rs)) reads.
    intros w. rewrite transfer_loop_spec. simpl. fold tx. rewrite Hempty.
    reflexivity. }
  unfold await.
  destruct (getLatestBlockhash env) as [msg|blockhash] eqn:Hb.
  { effect_is (Some (set_executed (now env) ("Transfer error: " ++ msg)))
              (reads ++ [(_id a, CallGetLatestBlockhash)])%list.
    intros w. rewrite transfer_loop_spec. simpl. fold tx. rewrite Hempty.
    simpl. rewrite <- app_assoc. reflexivity. }
  destruct (sendRawTransaction env tx) as [msg|signature] eqn:Hs.
  { effect_is (Some (set_executed (now env) ("Transfer error: " ++ msg)))
              (reads ++ [(_id a, CallGetLatestBlockhash);
                         (_id a, CallSendRawTransaction tx)])%list.
    intros w. rewrite transfer_loop_spec. simpl. fold tx. rewrite Hempty.
    simpl. rewrite Hs. simpl. rewrite <- !app_assoc. reflexivity. }
  destruct (confirmTransaction env signature) as [msg|[]] eqn:Hc.
  { effect_is (Some (set_executed (now env) ("Transfer error: " ++ msg)))
              (reads ++ [(_id a, CallGetLatestBlockhash);
                         (_id a, CallSendRawTransaction tx);
                         (_id a, CallConfirmTransaction signature)])%list.
    intros w. rewrite transfer_loop_spec. simpl. fold tx. rewrite Hempty.
    simpl. rewrite Hs. simpl. rewrite Hc. simpl.
    rewrite <- !app_assoc. reflexivity. }
  effect_is (Some (set_transferred (now env) signature rs))
            (reads ++ [(_id a, CallGetLatestBlockhash);
                       (_id a, CallSendRawTransaction tx);
                       (_id a, CallConfirmTransaction signature)])%list.
  intros w. rewrite transfer_loop_spec. simpl. fold tx. rewrite Hempty.
  simpl. rewrite Hs. simpl. rewrite Hc. simpl.
  rewrite <- !app_assoc. reflexivity.
Qed.

End Effects.

(* ================================================================== *)
(** ** The Transfer Executor: one cycle *)

Section ExecutorCycle.

Variable env : Env.

Lemma is_true_Some b : is_true b = true <-> b = Some true.
Proof. destruct b as [[|]|]; simpl; split; congruence. Qed.

Lemma is_true_not_Some b : is_true b = false <-> b <> Some true.
Proof. destruct b as [[|]|]; simpl; split; congruence. Qed.

Lemma Executor_query_spec a :
  Executor.query a = true <->
  verified a = Some true /\ executed a <> Some true /\ transferred a <> Some true.
Proof.
  unfold Executor.query.
  rewrite !andb_true_iff, !negb_true_iff, is_true_Some, !is_true_not_Some.
  tauto.
Qed.

Lemma executor_write_keeps_id set : executor_write set -> keeps_id set.
Proof. intros []; intros d; reflexivity. Qed.

Lemma apply_write_other id j write docs :
  match write with Some set => executor_write set | None => True end ->
  j <> id ->
  findOne j (apply_write id write docs) = findOne j docs.
Proof.
  destruct write as [set|]; simpl; intros Hk Hne; [|reflexivity].
  apply findOne_updateOne_other; [apply executor_write_keeps_id|]; assumption.
Qed.

(** The loop over the selected documents runs to its end; every ledger
    call it makes is made for one of them, and documents with other [_id]s are
    left as they were. *)
Lemma transfer_loop_effect selected : forall w,
  exists w' new,
    for_of selected (fun approvalData _ => Executor.transferApproval env approvalData) tt w
      = Returned tt w' /\
    calls w' = (calls w ++ new)%list /\
    (forall c, In c new -> exists a, In a selected /\ fst c = _id a) /\
    (forall j, (forall a, In a selected -> _id a <> j) ->
               findOne j (db w') = findOne j (db w)).
Proof.
  induction selected as [|a rest IH]; intros w; cbn [for_of].
  - exists w, []. unfold ret. rewrite app_nil_r.
    split; [reflexivity|]. split; [reflexivity|].
    split; [intros c []|reflexivity].
  - destruct (transferApproval_effect env a) as (write & new1 & Hk & Htag & Hrun).
    unfold bind at 1. rewrite Hrun.
    destruct (IH {| db := apply_write (_id a) write (db w);
                    calls := (calls w ++ new1)%list |})
      as (w' & new2 & Hloop & Hcalls & Hfrom & Hframe).
    exists w', (new1 ++ new2)%list.
    split; [exact Hloop|]. split; [rewrite Hcalls; simpl; symmetry; apply app_assoc|].
    split.
    + intros c Hc. apply in_app_or in Hc. destruct Hc as [Hc|Hc].
      * exists a. split; [left; reflexivity|].
        rewrite Forall_forall in Htag. apply Htag. exact Hc.
      * destruct (Hfrom c Hc) as (a' & Hin & He).
        exists a'. split; [right; exact Hin | exact He].
    + intros j Hj. rewrite Hframe by (intros a' Ha'; apply Hj; right; exact Ha').
      simpl. apply apply_write_other; [exact Hk|].
      intros E. apply (Hj a); [left; reflexivity | symmetry; exact E].
Qed.

Lemma transferApprovedTokens_unfold w :
  Executor.transferApprovedTokens env w =
  for_of (filter Executor.query (db w))
    (fun approvalData _ => Executor.transferApproval env approvalData) tt w.
Proof.
  unfold Executor.transferApprovedTokens, try_catch, bind, find.
  destruct (transfer_loop_effect (filter Executor.query (db w)) w)
    as (w' & new & Hloop & _).
  destruct (filter Executor.query (db w)) as [|a rest] eqn:E.
  - reflexivity.
  - cbn [List.length Nat.eqb]. rewrite Hloop. reflexivity.
Qed.

(** C9: the Transfer Executor selects exactly the documents whose
    [verified] flag is [true] and that are neither executed nor transferred;
    every ledger call of a cycle, submissions included, is made for such a
    document, so a document that is not verified gets no call and is left
    untouched. *)
Theorem C9_only_verified_records_are_transferred w :
  (forall a, In a (filter Executor.query (db w)) ->
             In a (db w) /\ verified a = Some true /\
             executed a <> Some true /\ transferred a <> Some true) /\
  exists w' new,
    Executor.transferApprovedTokens env w = Returned tt w' /\
    calls w' = (calls w ++ new)%list /\
    (forall id c, In (id, c) new ->
       exists a, In a (db w) /\ _id a = id /\ verified a = Some true /\
                 executed a <> Some true /\ transferred a <> Some true) /\
    (forall d, NoDup (map _id (db w)) -> In d (db w) -> verified d <> Some true ->
       (forall c, ~ In (_id d, c) new) /\
       findOne (_id d) (db w') = Some d).
Proof.
  assert (Hsel : forall a, In a (filter Executor.query (db w)) ->
             In a (db w) /\ verified a = Some true /\
             executed a <> Some true /\ transferred a <> Some true).
  { intros a Ha. apply filter_In in Ha. destruct Ha as [Hin Hq].
    apply Executor_query_spec in Hq. tauto. }
  split; [exact Hsel|].
  rewrite transferApprovedTokens_unfold.
  destruct (transfer_loop_effect (filter Executor.query (db w)) w)
    as (w' & new & Hloop & Hcalls & Hfrom & Hframe).
  exists w', new. split; [exact Hloop|]. split; [exact Hcalls|].
  assert (Hfor : forall id c, In (id, c) new ->
       exists a, In a (db w) /\ _id a = id /\ verified a = Some true /\
                 executed a <> Some true /\ transferred a <> Some true).
  { intros id c Hc. destruct (Hfrom _ Hc) as (a & Ha & He). simpl in He.
    destruct (Hsel a Ha) as (Hin & Hv & Hx & Ht).
    exists a. repeat split; auto. }
  split; [exact Hfor|].
  intros d Hnd Hin Hnv. split.
  - intros c Hc. destruct (Hfor _ _ Hc) as (a & Ha & He & Hv & _).
    apply Hnv.
    pose proof (In_findOne _ _ Hnd Ha) as H1.
    pose proof (In_findOne _ _ Hnd Hin) as H2.
    rewrite He, H2 in H1. inversion H1; subst. exact Hv.
  - rewrite Hframe; [apply In_findOne; assumption|].
    intros a Ha E. destruct (Hsel a Ha) as (Hina & Hv & _).
    apply Hnv.
    pose proof (In_findOne _ _ Hnd Hina) as H1.
    pose proof (In_findOne _ _ Hnd Hin) as H2.
    rewrite E, H2 in H1. inversion H1; subst. exact Hv.
Qed.

End ExecutorCycle.

(* ================================================================== *)
(** ** The Transfer Executor: configuration problems *)

Section ExecutorClaims.

Import ExecutorSpec.

(** C8, as worded, fails for invalid signing-key material: the decoding
    error is thrown inside the owner-level [try], whose [catch] marks the
    record executed; the record ends [TransferFailed]. *)
Lemma C8_invalid_key_marks_the_record_failed :
  let env := Scenario.bad_key 100 in
  let w' := world_of (Executor.transferApprovedTokens env
                        (Scenario.store [Scenario.alice_verified])) in
  decodeSecretKey env "not-a-secret-key" = None /\
  lifecycleState Scenario.alice_verified = Verified /\
  findOne 1 (db w') <> Some Scenario.alice_verified /\
  option_map lifecycleState (findOne 1 (db w')) = Some TransferFailed /\
  option_map reason (findOne 1 (db w')) =
    Some (Some "Transfer error: Invalid private key format. Use base64 encoded 64-byte secret key or JSON array.").
Proof. vm_compute. repeat split; discriminate. Qed.

(** C8 (amended): for every record whose network is missing or unknown,
    whose network has no delegate signing key or no destination address
    configured, or whose configured signing key is not the key of the record's
    [delegate] field, the Transfer Executor skips the record: no field of any
    document changes and no ledger call is made. *)
Theorem C8_configuration_problem_skips_the_record env a w :
  config_problem env a ->
  Executor.transferApproval env a w = Returned tt w.
Proof.
  intros H. unfold Executor.transferApproval.
  destruct H as [Hn | n Hn Hcfg | n cfg Hn Hcfg Hk | n cfg Hn Hcfg Hd
                 | n cfg privateKey key Hn Hcfg Hk Hdec Hne].
  - rewrite Hn. reflexivity.
  - rewrite Hn, Hcfg. destruct (truthy (Some n)); reflexivity.
  - rewrite Hn, Hcfg. destruct (truthy (Some n)); [|reflexivity].
    destruct (Executor.delegatePrivateKey cfg) as [k|]; [|reflexivity].
    simpl in Hk. apply negb_false_iff in Hk. rewrite Hk.
    destruct (Executor.destinationAddress cfg); reflexivity.
  - rewrite Hn, Hcfg. destruct (truthy (Some n)); [|reflexivity].
    destruct (Executor.delegatePrivateKey cfg) as [k|]; [|reflexivity].
    destruct (Executor.destinationAddress cfg) as [d|]; [|reflexivity].
    simpl in Hd. apply negb_false_iff in Hd. rewrite Hd.
    destruct (String.eqb k EmptyString); reflexivity.
  - rewrite Hn, Hcfg. destruct (truthy (Some n)); [|reflexivity].
    rewrite Hk.
    destruct (Executor.destinationAddress cfg) as [d|]; [|reflexivity].
    destruct (String.eqb privateKey EmptyString); [reflexivity|].
    destruct (String.eqb d EmptyString); [reflexivity|].
    unfold try_catch, bind, construct, Executor.getKeypairFromPrivateKey.
    rewrite Hdec. simpl.
    destruct (delegate a) as [stored|]; simpl; [|reflexivity].
    destruct (String.eqb_spec key stored) as [->|]; [|reflexivity].
    contradiction Hne. reflexivity.
Qed.

Lemma C8_configuration_problem_skips_the_record_witness :
  let env := Scenario.honest 100 in
  let mallory := with_delegate (Some "Mallory") Scenario.alice_verified in
  Executor.query mallory = true /\
  Executor.transferApproval env mallory (Scenario.store [mallory]) =
  Returned tt (Scenario.store [mallory]).
Proof.
  intros env mallory. split; [reflexivity|].
  apply (C8_configuration_problem_skips_the_record env mallory
           (Scenario.store [mallory])).
  apply (delegate_mismatch env mallory "mainnet-beta"
           {| Executor.rpcUrl := "https://api.mainnet-beta.solana.com";
              Executor.delegatePrivateKey := Some "custodian-secret";
              Executor.destinationAddress := Some "Treasury" |}
           "custodian-secret" "Custodian").
  - reflexivity.
  - reflexivity.
  - reflexivity.
  - reflexivity.
  - discriminate.
Defined.

End ExecutorClaims.

(* ================================================================== *)
(** ** Updates are keyed by [_id] alone *)

Section Writes.

Import VerifierSpec.
Variable env : Env.

Lemma verifier_grant_calls_tagged id l :
  Forall (fun c => fst c = id) (flat_map (grant_calls env id) l).
Proof.
  apply Forall_forall. intros c Hc. apply in_flat_map in Hc.
  destruct Hc as (g & _ & Hc). unfold grant_calls in Hc.
  destruct (new_PublicKey env (tokenAccount g)); [contradiction|].
  destruct Hc as [<-|[]]. reflexivity.
Qed.

(** The Verifier's pass over one document either throws before touching
    anything (the exception ends the cycle), or makes ledger calls on the
    document's behalf and then leaves the collection alone or issues one
    [updateOne] on the document's [_id]; which of these, and what is set, is
    fixed by the snapshot and the ledger, not by the collection. *)
Lemma verifyApproval_effect a :
  (exists msg, forall w, Verifier.verifyApproval env a w = Thrown msg w) \/
  (exists write new,
     match write with Some set => verifier_write set | None => True end /\
     Forall (fun c => fst c = _id a) new /\
     forall w,
       Verifier.verifyApproval env a w =
       Returned tt {| db := apply_write (_id a) write (db w);
                      calls := (calls w ++ new)%list |}).
Proof.
  destruct (network a) as [n|] eqn:Hn.
  2:{ right. exists None, []. split; [exact I|]. split; [constructor|].
      intros w. unfold Verifier.verifyApproval. rewrite Hn. simpl.
      rewrite world_nil. reflexivity. }
  destruct (Verifier.solanaConfig env n) as [cfg|] eqn:Hcfg.
  2:{ destruct (inherited (network a) && truthy (delegate a)) eqn:Hin.
      - left. eexists. intros w.
        rewrite (verifyApproval_unlisted env a n w Hn Hcfg), Hin. reflexivity.
      - right. exists None, []. split; [exact I|]. split; [constructor|].
        intros w.
        rewrite (verifyApproval_unlisted env a n w Hn Hcfg), Hin.
        simpl. rewrite world_nil. reflexivity. }
  destruct (Verifier.delegateToCheck cfg a) as [toCheck|] eqn:Hd.
  2:{ right. exists None, []. split; [exact I|]. split; [constructor|].
      intros w. unfold Verifier.verifyApproval.
      rewrite Hn, (solanaConfig_network _ _ _ Hcfg), Hcfg, Hd. simpl.
      rewrite world_nil. reflexivity. }
  destruct (String.eqb toCheck EmptyString) eqn:Hne.
  { right. exists None, []. split; [exact I|]. split; [constructor|].
    intros w. unfold Verifier.verifyApproval.
    rewrite Hn, (solanaConfig_network _ _ _ Hcfg), Hcfg, Hd, Hne. simpl.
    rewrite world_nil. reflexivity. }
  destruct (new_Connection env (Verifier.rpcUrl cfg)) as [msg|[]] eqn:Hconn.
  { left. exists msg. intros w. unfold Verifier.verifyApproval.
    rewrite Hn, (solanaConfig_network _ _ _ Hcfg), Hcfg, Hd, Hne.
    unfold bind, construct. rewrite Hconn. reflexivity. }
  destruct (new_PublicKey env toCheck) as [msg|key] eqn:Hkey.
  { left. exists msg. intros w. unfold Verifier.verifyApproval.
    rewrite Hn, (solanaConfig_network _ _ _ Hcfg), Hcfg, Hd, Hne.
    unfold bind, construct. rewrite Hconn, Hkey. reflexivity. }
  assert (Hres : resolves env a key)
    by (exists n, cfg, toCheck; repeat split; assumption).
  right.
  destruct (getTransaction env (transactionSignature a)) as [msg|[tx|]] eqn:Htx.
  - eexists (Some _), _. split; [constructor|].
    split; [|intros w; apply (verifyApproval_fetch_thrown env a key msg w Hres Htx)].
    repeat constructor.
  - destruct (Verifier.transaction_failed tx) eqn:Hf.
    + eexists (Some _), _. split; [constructor|].
      split; [|intros w; apply (verifyApproval_failed env a key tx w Hres Htx Hf)].
      repeat constructor.
    + eexists (Some _), _. split; [|
      split; [|intros w; apply (verifyApproval_checked env a key tx w Hres Htx Hf)]].
      * destruct (forallb (grant_passes env key) (approvals a)); constructor.
      * constructor; [reflexivity | apply verifier_grant_calls_tagged].
  - eexists (Some _), _. split; [constructor|].
    split; [|intros w; apply (verifyApproval_not_found env a key w Hres Htx)].
    repeat constructor.
Qed.

End Writes.

(* ================================================================== *)
(** ** Lifecycle edges and races *)

Section Lifecycle.

Lemma verifier_write_keeps_id set : verifier_write set -> keeps_id set.
Proof. intros []; intros d; reflexivity. Qed.

(** On a Submitted document each write of the Verifier follows an edge. *)
Lemma verifier_write_edge set d :
  verifier_write set -> lifecycleState d = Submitted ->
  lifecycle_edge Submitted (lifecycleState (set d)) = true.
Proof.
  intros [date why|date rs|date rs] H.
  - rewrite (set_executed_Submitted _ _ _ H). reflexivity.
  - rewrite (set_verified_Submitted _ _ _ H). reflexivity.
  - rewrite (set_unverified_Submitted _ _ _ H). reflexivity.
Qed.

(** On a Verified document each write of the Transfer Executor follows an
    edge. *)
Lemma executor_write_edge set d :
  executor_write set -> lifecycleState d = Verified ->
  lifecycle_edge Verified (lifecycleState (set d)) = true.
Proof.
  intros [date why|date rs|date sig rs] H; apply Verified_flags in H;
    destruct H as (Ht & He & Hv); unfold lifecycleState; simpl;
    rewrite ?Ht, ?He, ?Hv; reflexivity.
Qed.

(** The documents the Transfer Executor selects are the Verified ones. *)
Lemma Executor_query_Verified a :
  Executor.query a = true -> lifecycleState a = Verified.
Proof.
  unfold Executor.query, lifecycleState.
  rewrite !andb_true_iff, !negb_true_iff.
  intros [[Hv He] Ht]. rewrite Ht, He, Hv. reflexivity.
Qed.

(** From a selected document, the Transfer Executor leaves the stored
    document as it is or moves it along an edge out of [Verified]. *)
Lemma transferApproval_edge env a w :
  findOne (_id a) (db w) = Some a ->
  Executor.query a = true ->
  exists a',
    findOne (_id a) (db (world_of (Executor.transferApproval env a w))) = Some a' /\
    (a' = a \/ lifecycle_edge Verified (lifecycleState a') = true).
Proof.
  intros Hfind Hq.
  destruct (transferApproval_effect env a) as (write & new & Hw & _ & Hrun).
  rewrite Hrun. simpl. destruct write as [set|]; simpl.
  - rewrite findOne_updateOne_same by (apply executor_write_keeps_id; exact Hw).
    rewrite Hfind. simpl. exists (set a). split; [reflexivity|]. right.
    apply executor_write_edge; [exact Hw | apply Executor_query_Verified; exact Hq].
  - exists a. split; [exact Hfind | left; reflexivity].
Qed.

(** From a Submitted document, the Verifier leaves the stored document as
    it is or moves it along an edge out of [Submitted]. *)
Lemma verifyApproval_edge env a w :
  findOne (_id a) (db w) = Some a ->
  lifecycleState a = Submitted ->
  exists a',
    findOne (_id a) (db (world_of (Verifier.verifyApproval env a w))) = Some a' /\
    (a' = a \/ lifecycle_edge Submitted (lifecycleState a') = true).
Proof.
  intros Hfind Hs.
  destruct (verifyApproval_effect env a)
    as [(msg & Hrun) | (write & new & Hw & _ & Hrun)]; rewrite Hrun; simpl.
  - exists a. split; [exact Hfind | left; reflexivity].
  - destruct write as [set|]; simpl.
    + rewrite findOne_updateOne_same by (apply verifier_write_keeps_id; exact Hw).
      rewrite Hfind. simpl. exists (set a). split; [reflexivity|]. right.
      apply verifier_write_edge; assumption.
    + exists a. split; [exact Hfind | left; reflexivity].
Qed.

(** The Verifier does not select a document that is verified or
    executed. *)
Lemma Verifier_query_closed a :
  verified a = Some true \/ executed a = Some true -> Verifier.query a = false.
Proof.
  unfold Verifier.query. intros [H|H]; rewrite H; simpl;
    [reflexivity | apply andb_false_r].
Qed.

(** The Transfer Executor does not select a document that is transferred
    or executed. *)
Lemma Executor_query_closed a :
  transferred a = Some true \/ executed a = Some true -> Executor.query a = false.
Proof.
  unfold Executor.query. intros [H|H]; rewrite H; simpl;
    rewrite ?andb_false_r; reflexivity.
Qed.

(** A cycle that selects nothing changes nothing and calls nothing. *)
Lemma verifySolanaApprovals_nothing_selected env w :
  filter Verifier.query (db w) = [] ->
  Verifier.verifySolanaApprovals env w = Returned tt w.
Proof.
  intros H. unfold Verifier.verifySolanaApprovals, try_catch, bind, find.
  rewrite H. reflexivity.
Qed.

Lemma transferApprovedTokens_nothing_selected env w :
  filter Executor.query (db w) = [] ->
  Executor.transferApprovedTokens env w = Returned tt w.
Proof.
  intros H. unfold Executor.transferApprovedTokens, try_catch, bind, find.
  rewrite H. reflexivity.
Qed.

(** The two scenarios of the specification, run on the code: a delegate
    mismatch on "A" fails the record, naming "A"; an allowance of 500 over a
    balance of 300 moves 300 and records the settlement signature. *)
Example delegate_mismatch_scenario :
  let w := world_of (Verifier.verifySolanaApprovals (Scenario.revoked 100)
                       (Scenario.store [Scenario.alice])) in
  option_map verificationResults (findOne 1 (db w)) =
    Some (Some [{| vr_tokenAccount := "A"; vr_verified := false;
                   vr_delegatedAmount := None;
                   vr_reason := Some "Delegate not set" |}]) /\
  option_map lifecycleState (findOne 1 (db w)) = Some VerificationFailed.
Proof. vm_compute. split; reflexivity. Qed.

Example transfer_scenario :
  let w := world_of (Executor.transferApprovedTokens (Scenario.honest 300)
                       (Scenario.store [Scenario.alice_verified])) in
  submissions (calls w) =
    [(1, CallSendRawTransaction
           [{| ix_source := "A"; ix_destination := "TreasuryX";
               ix_authority := "Custodian"; ix_amount := 300 |}])] /\
  option_map transferTransactionSignature (findOne 1 (db w)) =
    Some (Some "settlement") /\
  option_map lifecycleState (findOne 1 (db w)) = Some Transferred.
Proof. vm_compute. repeat split. Qed.

(** C1, as worded, fails: the updates carry no condition on the prior
    state.  Of two overlapping Verifier cycles the second, working from its
    stale snapshot, rewrites the record the first has already verified; of two
    overlapping Transfer Executor cycles both submit the owner's batch and
    both write the record. *)
Lemma C1_overlapping_cycles_both_write :
  let w0 := Scenario.store [Scenario.alice] in
  let first := world_of (Verifier.verifySolanaApprovals (Scenario.honest 100) w0) in
  let both := world_of (overlapping Verifier.query
                          (Verifier.verifyApproval (Scenario.honest 100))
                          (Verifier.verifyApproval (Scenario.revoked 200)) w0) in
  let v0 := Scenario.store [Scenario.alice_verified] in
  let sent := world_of (overlapping Executor.query
                          (Executor.transferApproval (Scenario.honest 100))
                          (Executor.transferApproval (Scenario.honest 200)) v0) in
  option_map lifecycleState (findOne 1 (db first)) = Some Verified /\
  option_map lifecycleState (findOne 1 (db both)) = Some VerificationFailed /\
  option_map verifiedAt (findOne 1 (db both)) = Some (Some 200%Z) /\
  List.length (submissions (calls sent)) = 2 /\
  option_map transferredAt (findOne 1 (db sent)) = Some (Some 200%Z).
Proof. vm_compute. repeat split. Qed.

(** C1 (amended): every mutation the Verifier or the Transfer Executor
    writes is an [updateOne] whose filter is the document's [_id] and nothing
    else.  Whether a pass over a document writes, and what it sets, is fixed
    by the snapshot of the document and by the ledger, independently of the
    collection; the update is applied to the stored document with that [_id]
    whatever that document holds by then. *)
Theorem C1_every_update_is_keyed_by_id_alone env a :
  ((exists msg, forall w, Verifier.verifyApproval env a w = Thrown msg w) \/
   (exists write new,
      match write with Some set => verifier_write set | None => True end /\
      forall w,
        Verifier.verifyApproval env a w =
        Returned tt {| db := apply_write (_id a) write (db w);
                       calls := (calls w ++ new)%list |})) /\
  (exists write new,
     match write with Some set => executor_write set | None => True end /\
     forall w,
       Executor.transferApproval env a w =
       Returned tt {| db := apply_write (_id a) write (db w);
                      calls := (calls w ++ new)%list |}) /\
  (forall set docs d,
     verifier_write set \/ executor_write set ->
     findOne (_id a) docs = Some d ->
     findOne (_id a) (updateOne_docs (_id a) set docs) = Some (set d)).
Proof.
  split; [|split].
  - destruct (verifyApproval_effect env a)
      as [(msg & Hrun) | (write & new & Hw & _ & Hrun)].
    + left. exists msg. exact Hrun.
    + right. exists write, new. split; [exact Hw | exact Hrun].
  - destruct (transferApproval_effect env a) as (write & new & Hw & _ & Hrun).
    exists write, new. split; [exact Hw | exact Hrun].
  - intros set docs d Hset Hfind.
    rewrite findOne_updateOne_same.
    + rewrite Hfind. reflexivity.
    + destruct Hset as [H|H];
        [apply verifier_write_keeps_id | apply executor_write_keeps_id]; exact H.
Qed.

(** C2 fails on the code for a record whose grants were rejected: the
    write leaves [executed] false, so the next Verifier cycle selects the
    [VerificationFailed] record again, reads the ledger for it again and
    rewrites it. *)
Theorem C2_rejected_record_is_verified_again :
  let w1 := world_of (Verifier.verifySolanaApprovals (Scenario.revoked 100)
                        (Scenario.store [Scenario.alice])) in
  let w2 := world_of (Verifier.verifySolanaApprovals (Scenario.revoked 200) w1) in
  option_map lifecycleState (findOne 1 (db w1)) = Some VerificationFailed /\
  filter Verifier.query (db w1) = db w1 /\
  db w2 <> db w1 /\
  option_map verifiedAt (findOne 1 (db w1)) = Some (Some 100%Z) /\
  option_map verifiedAt (findOne 1 (db w2)) = Some (Some 200%Z) /\
  calls w2 = (calls w1 ++ [(1, CallGetTransaction "sigA"); (1, CallGetAccount "A")])%list.
Proof. vm_compute. repeat split. discriminate. Qed.

(** C5 fails on the code for the same record: once the ledger shows the
    delegation, the next Verifier cycle moves the [VerificationFailed] record
    to [Verified], which is not an edge of the lifecycle, and the Transfer
    Executor then transfers it. *)
Theorem C5_rejected_record_becomes_verified :
  let w1 := world_of (Verifier.verifySolanaApprovals (Scenario.revoked 100)
                        (Scenario.store [Scenario.alice])) in
  let w2 := world_of (Verifier.verifySolanaApprovals (Scenario.honest 200) w1) in
  let w3 := world_of (Executor.transferApprovedTokens (Scenario.honest 300) w2) in
  option_map lifecycleState (findOne 1 (db w1)) = Some VerificationFailed /\
  option_map lifecycleState (findOne 1 (db w2)) = Some Verified /\
  lifecycle_edge VerificationFailed Verified = false /\
  option_map lifecycleState (findOne 1 (db w3)) = Some Transferred.
Proof. vm_compute. repeat split. Qed.

End Lifecycle.

(* ================================================================== *)
(** ** The ingestion route: what is stored and when *)

Section RouteFacts.

Import Route.

Lemma acceptable_checks body :
  acceptable body = true ->
  (negb (truthy (body_owner body)) || negb (truthy (body_delegate body))
   || match body_approvals body with
      | Falsy => true
      | NotAnArray => true
      | Lines _ => false
      end
   || negb (truthy (body_transactionSignature body))
   || negb (truthy (body_network body))) = false /\
  exists line rest, body_approvals body = Lines (line :: rest).
Proof.
  unfold acceptable. rewrite !andb_true_iff.
  intros [[[[Ho Hd] Hs] Hn] Ha].
  rewrite Ho, Hd, Hs, Hn.
  destruct (body_approvals body) as [| |[|line rest]]; try discriminate.
  split; [reflexivity|]. exists line, rest. reflexivity.
Qed.

(** An acceptable body is stored when the server is, or can get,
    connected. *)
Lemma POST_acceptable c body s :
  acceptable body = true ->
  POST c (inr body) s =
  match connectDB c s with
  | (inl msg, s') =>
      ({| status := 500; message := "Failed to store Solana approval";
          error := Some msg |}, s')
  | (inr _, s') =>
      ({| status := 200; message := "Solana approval stored to db successfully";
          error := None |},
       {| connected := connected s';
          documents := (documents s' ++ [stored c body])%list |})
  end.
Proof.
  intros H. destruct (acceptable_checks body H) as (Hc & line & rest & Ha).
  unfold POST, stored. rewrite Hc, Ha. reflexivity.
Qed.

(** A body that is not acceptable is answered 400 and nothing else
    happens. *)
Lemma POST_unacceptable c body s :
  acceptable body = false ->
  snd (POST c (inr body) s) = s /\
  status (fst (POST c (inr body) s)) = 400 /\
  (message (fst (POST c (inr body) s)) = "Missing required fields" \/
   message (fst (POST c (inr body) s)) = "No approvals provided" /\
   body_approvals body = Lines []).
Proof.
  unfold acceptable, POST.
  destruct (truthy (body_owner body)); simpl; [|auto].
  destruct (truthy (body_delegate body)); simpl; [|auto].
  destruct (body_approvals body) as [| |[|line rest]]; simpl; auto.
  - destruct (truthy (body_transactionSignature body)); simpl; [|auto].
    destruct (truthy (body_network body)); simpl; auto.
  - destruct (truthy (body_transactionSignature body)); simpl; [|auto].
    destruct (truthy (body_network body)); simpl; [discriminate|auto].
Qed.

(** When the store takes the insert, the handler is [Route.POST]. *)
Lemma RouteOnStore_POST_inserted c request s :
  RouteOnStore.insertOne c = inr tt ->
  RouteOnStore.POST c request s = POST (RouteOnStore.met c) request s.
Proof.
  intros H. unfold RouteOnStore.POST, POST. rewrite H. reflexivity.
Qed.

(** An acceptable body on a store that can refuse the insert. *)
Lemma RouteOnStore_POST_acceptable c body s :
  acceptable body = true ->
  RouteOnStore.POST c (inr body) s =
  match connectDB (RouteOnStore.met c) s with
  | (inl msg, s') =>
      ({| status := 500; message := "Failed to store Solana approval";
          error := Some msg |}, s')
  | (inr _, s') =>
      match RouteOnStore.insertOne c with
      | inl msg =>
          ({| status := 500; message := "Failed to store Solana approval";
              error := Some msg |}, s')
      | inr _ =>
          ({| status := 200; message := "Solana approval stored to db successfully";
              error := None |},
           {| connected := connected s';
              documents := (documents s' ++ [stored (RouteOnStore.met c) body])%list |})
      end
  end.
Proof.
  intros H. destruct (acceptable_checks body H) as (Hc & line & rest & Ha).
  unfold RouteOnStore.POST, stored. rewrite Hc, Ha. reflexivity.
Qed.

Lemma RouteOnStore_POST_unacceptable c body s :
  acceptable body = false ->
  snd (RouteOnStore.POST c (inr body) s) = s /\
  status (fst (RouteOnStore.POST c (inr body) s)) = 400.
Proof.
  unfold acceptable, RouteOnStore.POST.
  destruct (truthy (body_owner body)); simpl; [|auto].
  destruct (truthy (body_delegate body)); simpl; [|auto].
  destruct (body_approvals body) as [| |[|line rest]]; simpl; auto.
  - destruct (truthy (body_transactionSignature body)); simpl; [|auto].
    destruct (truthy (body_network body)); simpl; auto.
  - destruct (truthy (body_transactionSignature body)); simpl; [|auto].
    destruct (truthy (body_network body)); simpl; [discriminate|auto].
Qed.

(** What one request leaves in the collection. *)
Lemma RouteOnStore_POST_documents c request s :
  documents (snd (RouteOnStore.POST c request s)) =
  (documents s ++
   RouteOnStore.stored_by (c, request) (fst (RouteOnStore.POST c request s)))%list.
Proof.
  unfold RouteOnStore.stored_by. cbn [fst snd].
  destruct request as [msg|body].
  - simpl. rewrite app_nil_r. reflexivity.
  - destruct (acceptable body) eqn:Hacc.
    + rewrite (RouteOnStore_POST_acceptable c body s Hacc). unfold connectDB.
      destruct (connected s); simpl.
      * destruct (RouteOnStore.insertOne c); simpl;
          [rewrite app_nil_r|]; reflexivity.
      * destruct (client_connect (RouteOnStore.met c)); simpl;
          [rewrite app_nil_r; reflexivity|].
        destruct (RouteOnStore.insertOne c); simpl;
          [rewrite app_nil_r|]; reflexivity.
    + destruct (RouteOnStore_POST_unacceptable c body s Hacc) as (Hs & Hst).
      rewrite Hst, Hs. simpl. rewrite app_nil_r. reflexivity.
Qed.

(** The answer is 200 exactly when the body is acceptable, the server is
    or gets connected and the store takes the insert. *)
Lemma RouteOnStore_POST_status c request s :
  (status (fst (RouteOnStore.POST c request s)) = 200 <->
   exists body, request = inr body /\ acceptable body = true /\
                (connected s = true \/
                 exists u, client_connect (RouteOnStore.met c) = inr u) /\
                exists u, RouteOnStore.insertOne c = inr u) /\
  (status (fst (RouteOnStore.POST c request s)) = 200 ->
   connected (snd (RouteOnStore.POST c request s)) = true) /\
  (status (fst (RouteOnStore.POST c request s)) <> 200 ->
   documents (snd (RouteOnStore.POST c request s)) = documents s).
Proof.
  destruct request as [msg|body].
  - simpl. split; [split; [discriminate|]|split; [discriminate|reflexivity]].
    intros (body & H & _). discriminate.
  - destruct (acceptable body) eqn:Hacc.
    + rewrite (RouteOnStore_POST_acceptable c body s Hacc). unfold connectDB.
      destruct (connected s) eqn:Hconn; simpl.
      * destruct (RouteOnStore.insertOne c) as [m|u] eqn:Hins; simpl.
        -- split; [split; [discriminate|]|split; [discriminate|reflexivity]].
           intros (b & _ & _ & _ & (u & H)). discriminate.
        -- split; [split; [intros _; exists body; eauto 6|reflexivity]|].
           split; [intros _; exact Hconn|].
           intros H; contradiction H; reflexivity.
      * destruct (client_connect (RouteOnStore.met c)) as [m|u] eqn:Hc; simpl.
        -- split; [split; [discriminate|]|split; [discriminate|reflexivity]].
           intros (b & _ & _ & [H|(u & H)] & _); discriminate.
        -- destruct (RouteOnStore.insertOne c) as [m|v] eqn:Hins; simpl.
           ++ split; [split; [discriminate|]|split; [discriminate|reflexivity]].
              intros (b & _ & _ & _ & (v & H)). discriminate.
           ++ split; [split; [intros _; exists body; eauto 7|reflexivity]|].
              split; [reflexivity|].
              intros H; contradiction H; reflexivity.
    + destruct (RouteOnStore_POST_unacceptable c body s Hacc) as (Hs & Hst).
      rewrite Hst, Hs.
      split; [split; [discriminate|]|split; [discriminate|reflexivity]].
      intros (b & Hb & Hb' & _). inversion Hb; subst. congruence.
Qed.

(** [POST] answers 200 exactly for a parsed body with all five fields
    truthy and a non-empty array of lines, provided the server is connected
    or [client.connect()] succeeds, and the store takes the [insertOne]; it
    then appends exactly the document built from the body, and on every
    other answer the collection is as before.  In particular, when the
    store refuses the insert of such a body the answer is 500 with the
    store's error message, and the server stays connected. *)
Theorem POST_stores_exactly_accepted_bodies c request s :
  (status (fst (RouteOnStore.POST c request s)) = 200 <->
   exists body, request = inr body /\ acceptable body = true /\
                (connected s = true \/
                 exists u, client_connect (RouteOnStore.met c) = inr u) /\
                exists u, RouteOnStore.insertOne c = inr u) /\
  (status (fst (RouteOnStore.POST c request s)) = 200 ->
   exists body, request = inr body /\
     documents (snd (RouteOnStore.POST c request s)) =
       (documents s ++ [stored (RouteOnStore.met c) body])%list /\
     connected (snd (RouteOnStore.POST c request s)) = true) /\
  (status (fst (RouteOnStore.POST c request s)) <> 200 ->
   documents (snd (RouteOnStore.POST c request s)) = documents s) /\
  (forall body msg,
     request = inr body -> acceptable body = true ->
     (connected s = true \/
      exists u, client_connect (RouteOnStore.met c) = inr u) ->
     RouteOnStore.insertOne c = inl msg ->
     fst (RouteOnStore.POST c request s) =
       {| status := 500; message := "Failed to store Solana approval";
          error := Some msg |} /\
     connected (snd (RouteOnStore.POST c request s)) = true).
Proof.
  destruct request as [msg|body].
  - simpl. split; [split; [discriminate|]|].
    { intros (body & H & _). discriminate. }
    split; [discriminate|]. split; [reflexivity|].
    intros body m H. discriminate.
  - destruct (acceptable body) eqn:Hacc.
    + rewrite (RouteOnStore_POST_acceptable c body s Hacc). unfold connectDB.
      destruct (connected s) eqn:Hconn; simpl.
      * destruct (RouteOnStore.insertOne c) as [m|u] eqn:Hins; simpl.
        -- split; [split; [discriminate|]|].
           { intros (b & _ & _ & _ & (u & H)). discriminate. }
           split; [discriminate|]. split; [reflexivity|].
           intros b m' _ _ _ E. inversion E; subst. auto.
        -- split; [split; [intros _; exists body; eauto 6|reflexivity]|].
           split; [intros _; exists body; rewrite Hconn; auto|].
           split; [intros H; contradiction H; reflexivity|].
           intros b m' _ _ _ E. discriminate.
      * destruct (client_connect (RouteOnStore.met c)) as [m|u] eqn:Hc; simpl.
        -- split; [split; [discriminate|]|].
           { intros (b & _ & _ & [H|(u & H)] & _); discriminate. }
           split; [discriminate|]. split; [reflexivity|].
           intros b m' _ _ [H|(u & H)] _; discriminate.
        -- destruct (RouteOnStore.insertOne c) as [m|v] eqn:Hins; simpl.
           ++ split; [split; [discriminate|]|].
              { intros (b & _ & _ & _ & (v & H)). discriminate. }
              split; [discriminate|]. split; [reflexivity|].
              intros b m' _ _ _ E. inversion E; subst. auto.
           ++ split; [split; [intros _; exists body; eauto 7|reflexivity]|].
              split; [intros _; exists body; auto|].
              split; [intros H; contradiction H; reflexivity|].
              intros b m' _ _ _ E. discriminate.
    + destruct (RouteOnStore_POST_unacceptable c body s Hacc) as (Hs & Hst).
      rewrite Hst, Hs.
      split; [split; [discriminate|]|].
      { intros (b & Hb & Hb' & _). inversion Hb; subst. congruence. }
      split; [discriminate|]. split; [reflexivity|].
      intros b m Hb Hb'. inversion Hb; subst. congruence.
Qed.

End RouteFacts.

(* ================================================================== *)
(** ** The outcome of one pass *)

Section Outcomes.

Import ExecutorSpec.
Variable env : Env.

Lemma truthy_Some_false s : truthy (Some s) = false -> String.eqb s EmptyString = true.
Proof. simpl. apply negb_false_iff. Qed.

Ltac outcome_is wr nw :=
  exists wr, nw; split; [|intros w].

Ltac skipped :=
  outcome_is (@None (ApprovalDoc -> ApprovalDoc)) (@nil (nat * LedgerCall));
  [apply eo_skipped | simpl; rewrite world_nil; reflexivity].

(** The Transfer Executor's pass over [a]: the outcome is one of the
    cases of [executor_outcome], whatever the collection holds. *)
Lemma transferApproval_outcome a :
  exists write new,
    executor_outcome env a write new /\
    forall w,
      Executor.transferApproval env a w =
      Returned tt {| db := apply_write (_id a) write (db w);
                     calls := (calls w ++ new)%list |}.
Proof.
  unfold Executor.transferApproval.
  destruct (truthy (network a)) eqn:Hnet; [|skipped; apply no_network; exact Hnet].
  destruct (network a) as [n|] eqn:Hn; [|discriminate].
  destruct (Executor.solanaConfig env n) as [cfg|] eqn:Hcfg;
    [|skipped; apply (unknown_network env a n); assumption].
  destruct (Executor.delegatePrivateKey cfg) as [privateKey|] eqn:Hpk;
    [|skipped; apply (no_signing_key env a n cfg); try assumption;
      rewrite Hpk; reflexivity].
  destruct (Executor.destinationAddress cfg) as [destination|] eqn:Hdest;
    [|skipped; apply (no_destination env a n cfg); try assumption;
      rewrite Hdest; reflexivity].
  destruct (String.eqb privateKey EmptyString) eqn:Hpke.
  { skipped. apply (no_signing_key env a n cfg); try assumption.
    rewrite Hpk. simpl. rewrite Hpke. reflexivity. }
  destruct (String.eqb destination EmptyString) eqn:Hde.
  { skipped. apply (no_destination env a n cfg); try assumption.
    rewrite Hdest. simpl. rewrite Hde. reflexivity. }
  unfold try_catch, bind, construct, ret, updateOne,
    Executor.getKeypairFromPrivateKey.
  destruct (decodeSecretKey env privateKey) as [dk|] eqn:Hdec.
  2:{ outcome_is (Some (set_executed (now env)
                   ("Transfer error: " ++ "Invalid private key format. Use base64 encoded 64-byte secret key or JSON array.")))
                 (@nil (nat * LedgerCall)).
      - apply eo_setup_failed.
      - simpl. rewrite app_nil_r. reflexivity. }
  cbn [Executor.publicKey].
  destruct (delegate a) as [stored|] eqn:Hstored.
  2:{ skipped. apply (delegate_mismatch env a n cfg privateKey dk); try assumption.
      rewrite Hstored. discriminate. }
  destruct (String.eqb_spec dk stored) as [<-|Hmis].
  2:{ skipped. apply (delegate_mismatch env a n cfg privateKey dk); try assumption.
      rewrite Hstored. congruence. }
  cbn [negb].
  destruct (new_Connection env (Executor.rpcUrl cfg)) as [msg|[]] eqn:Hconn.
  { outcome_is (Some (set_executed (now env) ("Transfer error: " ++ msg)))
               (@nil (nat * LedgerCall)).
    - apply eo_setup_failed.
    - simpl. rewrite app_nil_r. reflexivity. }
  destruct (new_PublicKey env destination) as [msg|destk] eqn:Hdk.
  { outcome_is (Some (set_executed (now env) ("Transfer error: " ++ msg)))
               (@nil (nat * LedgerCall)).
    - apply eo_setup_failed.
    - simpl. rewrite app_nil_r. reflexivity. }
  destruct (new_PublicKey env (owner a)) as [msg|ownerk] eqn:Hok.
  { outcome_is (Some (set_executed (now env) ("Transfer error: " ++ msg)))
               (@nil (nat * LedgerCall)).
    - apply eo_setup_failed.
    - simpl. rewrite app_nil_r. reflexivity. }
  assert (Hready : executor_ready env a dk destk).
  { exists n, cfg, privateKey, destination, ownerk. repeat split; assumption. }
  assert (Hloop : forall w,
    for_of (approvals a) (Executor.transferApprovalLine env (_id a) dk destk)
      ([], []) w =
    Returned (transfer_results env dk destk a, transfer_batch env dk destk a)
      {| db := db w; calls := (calls w ++ transfer_reads env dk destk a)%list |}).
  { intros w. rewrite transfer_loop_spec. reflexivity. }
  destruct (transfer_batch env dk destk a) as [|ix rest] eqn:Hbatch.
  { outcome_is (Some (set_nothing_transferred (now env)
                        (transfer_results env dk destk a)))
               (transfer_reads env dk destk a).
    - apply eo_nothing; assumption.
    - rewrite Hloop. reflexivity. }
  assert (Hne : transfer_batch env dk destk a <> [])
    by (rewrite Hbatch; discriminate).
  rewrite <- Hbatch in *. unfold await.
  destruct (getLatestBlockhash env) as [msg|blockhash] eqn:Hb.
  { outcome_is (Some (set_executed (now env) ("Transfer error: " ++ msg)))
      (transfer_reads env dk destk a ++ [(_id a, CallGetLatestBlockhash)])%list.
    - apply eo_blockhash_failed; assumption.
    - rewrite Hloop. cbn [fst snd]. rewrite Hbatch. simpl.
      rewrite <- app_assoc. reflexivity. }
  destruct (sendRawTransaction env (transfer_batch env dk destk a))
    as [msg|signature] eqn:Hs.
  { outcome_is (Some (set_executed (now env) ("Transfer error: " ++ msg)))
      (transfer_reads env dk destk a ++
       [(_id a, CallGetLatestBlockhash);
        (_id a, CallSendRawTransaction (transfer_batch env dk destk a))])%list.
    - apply eo_send_failed; assumption.
    - rewrite Hloop. cbn [fst snd]. rewrite Hs. rewrite Hbatch. simpl.
      rewrite <- !app_assoc. reflexivity. }
  destruct (confirmTransaction env signature) as [msg|[]] eqn:Hc.
  { outcome_is (Some (set_executed (now env) ("Transfer error: " ++ msg)))
      (transfer_reads env dk destk a ++
       [(_id a, CallGetLatestBlockhash);
        (_id a, CallSendRawTransaction (transfer_batch env dk destk a));
        (_id a, CallConfirmTransaction signature)])%list.
    - apply (eo_confirm_failed env a dk destk signature msg); assumption.
    - rewrite Hloop. cbn [fst snd]. rewrite Hs. rewrite Hbatch. simpl.
      rewrite Hc. simpl. rewrite <- !app_assoc. reflexivity. }
  outcome_is (Some (set_transferred (now env) signature
                      (transfer_results env dk destk a)))
    (transfer_reads env dk destk a ++
     [(_id a, CallGetLatestBlockhash);
      (_id a, CallSendRawTransaction (transfer_batch env dk destk a));
      (_id a, CallConfirmTransaction signature)])%list.
  - apply (eo_transferred env a dk destk signature); assumption.
  - rewrite Hloop. cbn [fst snd]. rewrite Hs. rewrite Hbatch. simpl.
    rewrite Hc. simpl. rewrite <- !app_assoc. reflexivity.
Qed.

(** The Verifier's pass over [a]: it throws before touching anything, or
    its outcome is one of the cases of [verifier_outcome]. *)
Lemma verifyApproval_outcome a :
  (exists msg, verifier_aborts env a msg /\
               forall w, Verifier.verifyApproval env a w = Thrown msg w) \/
  (exists write new,
     verifier_outcome env a write new /\
     forall w,
       Verifier.verifyApproval env a w =
       Returned tt {| db := apply_write (_id a) write (db w);
                      calls := (calls w ++ new)%list |}).
Proof.
  destruct (truthy (network a)) eqn:Hnet.
  2:{ right. exists None, []. split; [apply vo_skipped, vu_no_network; exact Hnet|].
      intros w. unfold Verifier.verifyApproval. rewrite Hnet.
      destruct (inherited (network a)) eqn:Hin;
        [apply inherited_truthy in Hin; congruence|].
      simpl. rewrite world_nil. reflexivity. }
  destruct (network a) as [n|] eqn:Hn; [|discriminate].
  destruct (Verifier.solanaConfig env n) as [cfg|] eqn:Hcfg.
  2:{ pose proof (fun w => verifyApproval_unlisted env a n w Hn Hcfg) as Hrun.
      rewrite Hn in Hrun.
      destruct (inherited (Some n)) eqn:Hin.
      - destruct (truthy (delegate a)) eqn:Hdel.
        + left. eexists. split.
          * apply (va_inherited_network env a _ n); try assumption;
              [rewrite Hn; exact Hin | reflexivity].
          * intros w. rewrite Hrun. reflexivity.
        + right. exists None, [].
          split; [apply vo_skipped, (vu_inherited_no_delegate env a n);
                  try assumption; rewrite Hn; exact Hin|].
          intros w. rewrite Hrun. simpl. rewrite world_nil. reflexivity.
      - right. exists None, [].
        split; [apply vo_skipped, (vu_unknown_network env a n);
                try assumption; rewrite Hn; exact Hin|].
        intros w. rewrite Hrun. simpl. rewrite world_nil. reflexivity. }
  destruct (Verifier.delegateToCheck cfg a) as [toCheck|] eqn:Hd.
  2:{ right. exists None, [].
      split; [apply vo_skipped, (vu_no_delegate env a n cfg); try assumption;
              rewrite Hd; reflexivity|].
      intros w. unfold Verifier.verifyApproval.
      rewrite Hn, Hnet, Hcfg, Hd. simpl. rewrite world_nil. reflexivity. }
  destruct (String.eqb toCheck EmptyString) eqn:Hne.
  { right. exists None, [].
    split; [apply vo_skipped, (vu_no_delegate env a n cfg); try assumption;
            rewrite Hd; simpl; rewrite Hne; reflexivity|].
    intros w. unfold Verifier.verifyApproval.
    rewrite Hn, Hnet, Hcfg, Hd, Hne. simpl. rewrite world_nil. reflexivity. }
  destruct (new_Connection env (Verifier.rpcUrl cfg)) as [msg|[]] eqn:Hconn.
  { left. exists msg. split.
    - apply (va_no_connection env a msg n cfg toCheck); assumption.
    - intros w. unfold Verifier.verifyApproval.
      rewrite Hn, Hnet, Hcfg, Hd, Hne.
      unfold bind, construct. rewrite Hconn. reflexivity. }
  destruct (new_PublicKey env toCheck) as [msg|key] eqn:Hkey.
  { left. exists msg. split.
    - apply (va_not_a_public_key env a msg n cfg toCheck); assumption.
    - intros w. unfold Verifier.verifyApproval.
      rewrite Hn, Hnet, Hcfg, Hd, Hne.
      unfold bind, construct. rewrite Hconn, Hkey. reflexivity. }
  assert (Hres : VerifierSpec.resolves env a key)
    by (exists n, cfg, toCheck; repeat split; assumption).
  right.
  destruct (getTransaction env (transactionSignature a)) as [msg|[tx|]] eqn:Htx.
  - eexists (Some _), _.
    split; [apply (vo_fetch_failed env a key msg); assumption|].
    intros w. apply (verifyApproval_fetch_thrown env a key msg w Hres Htx).
  - destruct (Verifier.transaction_failed tx) eqn:Hf.
    + eexists (Some _), _.
      split; [apply (vo_failed env a key tx); assumption|].
      intros w. apply (verifyApproval_failed env a key tx w Hres Htx Hf).
    + eexists (Some _), _.
      split; [apply (vo_checked env a key tx); assumption|].
      intros w. apply (verifyApproval_checked env a key tx w Hres Htx Hf).
  - eexists (Some _), _.
    split; [apply (vo_not_found env a key); assumption|].
    intros w. apply (verifyApproval_not_found env a key w Hres Htx).
Qed.

End Outcomes.

(* ================================================================== *)
(** ** Passes: what any run of the two services keeps *)

Section Passes.

Lemma service_write_keeps_id set : service_write set -> keeps_id set.
Proof.
  intros [H|H]; [apply verifier_write_keeps_id | apply executor_write_keeps_id];
    exact H.
Qed.

Lemma service_write_same_claim set d : service_write set -> same_claim d (set d).
Proof.
  intros [[date why|date rs|date rs]|[date why|date rs|date sig rs]];
    unfold same_claim; simpl; repeat split; reflexivity.
Qed.

Lemma service_write_flags_kept set d : service_write set -> flags_kept d (set d).
Proof.
  intros [[date why|date rs|date rs]|[date why|date rs|date sig rs]];
    unfold flags_kept; simpl; split; auto.
Qed.

Lemma verifier_outcome_write env a write new :
  verifier_outcome env a write new ->
  match write with Some set => verifier_write set | None => True end.
Proof.
  intros [H|key msg Hr Ht|key Hr Ht|key tx Hr Ht Hf|key tx Hr Ht Hf];
    try constructor.
  destruct (forallb (VerifierSpec.grant_passes env key) (approvals a)); constructor.
Qed.

Lemma executor_outcome_write env a write new :
  executor_outcome env a write new ->
  match write with Some set => executor_write set | None => True end.
Proof. intros []; constructor. Qed.

Lemma transfer_reads_tagged env dk destk a :
  Forall (fun c => fst c = _id a) (transfer_reads env dk destk a).
Proof. apply executor_grant_calls_tagged. Qed.

Lemma verifier_outcome_tagged env a write new :
  verifier_outcome env a write new -> Forall (fun c => fst c = _id a) new.
Proof.
  intros [H|key msg Hr Ht|key Hr Ht|key tx Hr Ht Hf|key tx Hr Ht Hf];
    repeat constructor.
  apply verifier_grant_calls_tagged.
Qed.

Lemma executor_outcome_tagged env a write new :
  executor_outcome env a write new -> Forall (fun c => fst c = _id a) new.
Proof.
  intros []; repeat (apply Forall_app; split); repeat constructor;
    apply transfer_reads_tagged.
Qed.

Lemma pass_outcome_write p write new :
  pass_outcome p write new ->
  match write with Some set => service_write set | None => True end.
Proof.
  intros [env a msg H|env a wr nw H|env a wr nw H].
  - exact I.
  - apply verifier_outcome_write in H. destruct wr; [left; exact H | exact I].
  - apply executor_outcome_write in H. destruct wr; [right; exact H | exact I].
Qed.

Lemma pass_outcome_tagged p write new :
  pass_outcome p write new -> Forall (fun c => fst c = pass_id p) new.
Proof.
  intros [env a msg H|env a wr nw H|env a wr nw H]; simpl.
  - constructor.
  - apply (verifier_outcome_tagged env a wr nw H).
  - apply (executor_outcome_tagged env a wr nw H).
Qed.

(** Every pass is one optional [updateOne] on its [_id] and some calls
    tagged with it. *)
Lemma run_pass_outcome p :
  exists write new,
    pass_outcome p write new /\
    forall w, run_pass w p =
              {| db := apply_write (pass_id p) write (db w);
                 calls := (calls w ++ new)%list |}.
Proof.
  destruct p as [env a|env a]; simpl.
  - destruct (verifyApproval_outcome env a)
      as [(msg & Hab & Hrun) | (write & new & Hout & Hrun)].
    + exists None, []. split; [apply (po_aborted env a msg Hab)|].
      intros w. rewrite Hrun. simpl. symmetry. apply world_nil.
    + exists write, new. split; [apply po_verifier; exact Hout|].
      intros w. rewrite Hrun. reflexivity.
  - destruct (transferApproval_outcome env a) as (write & new & Hout & Hrun).
    exists write, new. split; [apply po_executor; exact Hout|].
    intros w. rewrite Hrun. reflexivity.
Qed.

Lemma findOne_apply_write id write docs :
  match write with Some set => service_write set | None => True end ->
  findOne id (apply_write id write docs) = written write (findOne id docs).
Proof.
  destruct write as [set|]; simpl; intros H; [|reflexivity].
  apply findOne_updateOne_same, service_write_keeps_id, H.
Qed.

Lemma findOne_apply_write_other id j write docs :
  match write with Some set => service_write set | None => True end ->
  j <> id ->
  findOne j (apply_write id write docs) = findOne j docs.
Proof.
  destruct write as [set|]; simpl; intros H Hne; [|reflexivity].
  apply findOne_updateOne_other; [apply service_write_keeps_id, H | exact Hne].
Qed.

Lemma apply_write_Forall2 (R : ApprovalDoc -> ApprovalDoc -> Prop) id write docs :
  (forall d, R d d) ->
  match write with Some set => forall d, R d (set d) | None => True end ->
  Forall2 R docs (apply_write id write docs).
Proof.
  intros Hrefl Hw.
  assert (Hid : forall l, Forall2 R l l)
    by (induction l; constructor; auto).
  destruct write as [set|]; simpl; [|apply Hid].
  induction docs as [|d rest IH]; simpl; [constructor|].
  destruct (Nat.eqb (_id d) id); constructor; auto.
Qed.

Lemma Forall2_trans' {A} (R : A -> A -> Prop) :
  (forall x y z, R x y -> R y z -> R x z) ->
  forall l1 l2 l3, Forall2 R l1 l2 -> Forall2 R l2 l3 -> Forall2 R l1 l3.
Proof.
  intros Ht l1 l2 l3 H12. revert l3.
  induction H12 as [|x y l1 l2 Hxy H12 IH]; intros l3 H23;
    inversion H23; subst; constructor; eauto.
Qed.

Lemma stable_refl d : stable d d.
Proof. unfold stable, same_claim, flags_kept. repeat split; auto. Qed.

Lemma stable_trans x y z : stable x y -> stable y z -> stable x z.
Proof.
  unfold stable, same_claim, flags_kept.
  intros [(H1 & H2 & H3 & H4 & H5 & H6 & H7 & H8 & H9) [Hf1 Hf2]]
         [(K1 & K2 & K3 & K4 & K5 & K6 & K7 & K8 & K9) [Kf1 Kf2]].
  repeat split; try congruence; auto.
Qed.

Lemma run_pass_stable p w : Forall2 stable (db w) (db (run_pass w p)).
Proof.
  destruct (run_pass_outcome p) as (write & new & Hout & Hrun).
  rewrite Hrun. simpl. apply apply_write_Forall2; [apply stable_refl|].
  pose proof (pass_outcome_write p write new Hout) as Hw.
  destruct write as [set|]; [|exact I].
  intros d. split; [apply service_write_same_claim | apply service_write_flags_kept];
    exact Hw.
Qed.

Lemma run_passes_stable ps : forall w,
  Forall2 stable (db w) (db (run_passes ps w)).
Proof.
  unfold run_passes.
  induction ps as [|p rest IH]; intros w; simpl.
  - assert (Hid : forall l, Forall2 stable l l)
      by (induction l; constructor; auto using stable_refl).
    apply Hid.
  - apply (Forall2_trans' stable stable_trans _ (db (run_pass w p)));
      [apply run_pass_stable | apply IH].
Qed.

End Passes.

(* ================================================================== *)
(** ** Cycles as runs of passes *)

Section CyclesAsPasses.

Variable env : Env.

Lemma run_passes_app ps qs w :
  run_passes (ps ++ qs) w = run_passes qs (run_passes ps w).
Proof. unfold run_passes. apply fold_left_app. Qed.

Lemma transferApproval_returns a w :
  Executor.transferApproval env a w =
  Returned tt (run_pass w (ExecutorPass env a)).
Proof.
  simpl. destruct (transferApproval_outcome env a) as (write & new & _ & Hrun).
  rewrite Hrun. reflexivity.
Qed.

(** The Transfer Executor's loop is the run of one pass per selected
    document; it never stops early. *)
Lemma executor_loop_passes l : forall w,
  for_of l (fun approvalData _ => Executor.transferApproval env approvalData) tt w =
  Returned tt (run_passes (map (ExecutorPass env) l) w).
Proof.
  induction l as [|a rest IH]; intros w; cbn [for_of map].
  - reflexivity.
  - unfold bind at 1. rewrite transferApproval_returns. rewrite IH. reflexivity.
Qed.

Lemma executor_cycle_passes w :
  Executor.transferApprovedTokens env w =
  Returned tt (run_passes (map (ExecutorPass env) (filter Executor.query (db w))) w).
Proof. rewrite transferApprovedTokens_unfold. apply executor_loop_passes. Qed.

(** The Verifier's loop is the run of one pass per selected document up
    to the first whose pass throws; the documents after that one are not
    reached. *)
Lemma verifier_loop_passes l : forall w,
  exists reached rest,
    l = (reached ++ rest)%list /\
    world_of (for_of l (fun approvalData _ => Verifier.verifyApproval env approvalData)
                tt w) =
    run_passes (map (VerifierPass env) reached) w /\
    (rest = [] \/ exists a rest' msg, rest = a :: rest' /\ verifier_aborts env a msg).
Proof.
  induction l as [|a l' IH]; intros w; cbn [for_of].
  - exists [], []. repeat split. left. reflexivity.
  - destruct (verifyApproval_outcome env a)
      as [(msg & Hab & Hrun) | (write & new & Hout & Hrun)].
    + exists [], (a :: l'). split; [reflexivity|]. split.
      * unfold bind. rewrite Hrun. reflexivity.
      * right. exists a, l', msg. split; [reflexivity | exact Hab].
    + destruct (IH (run_pass w (VerifierPass env a)))
        as (reached & rest & Hl & Hw & Hrest).
      exists (a :: reached), rest. split; [rewrite Hl; reflexivity|].
      split; [|exact Hrest].
      unfold bind at 1. simpl in Hw |- *. rewrite Hrun in Hw |- *. exact Hw.
Qed.

Lemma verifySolanaApprovals_world w :
  Verifier.verifySolanaApprovals env w =
  Returned tt
    (world_of (for_of (filter Verifier.query (db w))
                 (fun approvalData _ => Verifier.verifyApproval env approvalData) tt w)).
Proof.
  unfold Verifier.verifySolanaApprovals, try_catch, bind, find.
  destruct (filter Verifier.query (db w)) as [|a rest]; [reflexivity|].
  cbn [List.length Nat.eqb].
  destruct (for_of (a :: rest)
              (fun approvalData _ => Verifier.verifyApproval env approvalData) tt w)
    as [[] w'|msg w']; reflexivity.
Qed.

Lemma verifier_cycle_passes w :
  exists reached rest,
    filter Verifier.query (db w) = (reached ++ rest)%list /\
    Verifier.verifySolanaApprovals env w =
    Returned tt (run_passes (map (VerifierPass env) reached) w) /\
    (rest = [] \/ exists a rest' msg, rest = a :: rest' /\ verifier_aborts env a msg).
Proof.
  destruct (verifier_loop_passes (filter Verifier.query (db w)) w)
    as (reached & rest & Hl & Hw & Hrest).
  exists reached, rest. split; [exact Hl|]. split; [|exact Hrest].
  rewrite verifySolanaApprovals_world, Hw. reflexivity.
Qed.

End CyclesAsPasses.

(** Every cycle, and so every sequence of cycles, is a run of passes over
    documents the cycle selected. *)
Lemma run_cycle_passes c w :
  exists ps,
    run_cycle w c = run_passes ps w /\
    forall p, In p ps ->
      match c, p with
      | VerifierCycle env, VerifierPass env' a =>
          env' = env /\ In a (filter Verifier.query (db w))
      | ExecutorCycle env, ExecutorPass env' a =>
          env' = env /\ In a (filter Executor.query (db w))
      | _, _ => False
      end.
Proof.
  destruct c as [env|env]; simpl.
  - destruct (verifier_cycle_passes env w) as (reached & rest & Hl & Hrun & _).
    exists (map (VerifierPass env) reached). rewrite Hrun. split; [reflexivity|].
    intros p Hp. apply in_map_iff in Hp. destruct Hp as (a & <- & Ha).
    split; [reflexivity|]. rewrite Hl. apply in_or_app. left. exact Ha.
  - exists (map (ExecutorPass env) (filter Executor.query (db w))).
    rewrite executor_cycle_passes. split; [reflexivity|].
    intros p Hp. apply in_map_iff in Hp. destruct Hp as (a & <- & Ha).
    split; [reflexivity | exact Ha].
Qed.

Lemma run_cycles_passes cs : forall w, exists ps, run_cycles cs w = run_passes ps w.
Proof.
  unfold run_cycles.
  induction cs as [|c rest IH]; intros w; simpl.
  - exists []. reflexivity.
  - destruct (run_cycle_passes c w) as (ps1 & H1 & _).
    destruct (IH (run_cycle w c)) as (ps2 & H2).
    exists (ps1 ++ ps2)%list. rewrite run_passes_app, <- H1. exact H2.
Qed.

(* ================================================================== *)
(** ** What a run of passes does to one document *)

Section PerDocument.

Lemma calls_for_app id l1 l2 :
  calls_for id (l1 ++ l2) = (calls_for id l1 ++ calls_for id l2)%list.
Proof. apply filter_app. Qed.

Lemma calls_for_other id j l :
  Forall (fun c => fst c = j) l -> j <> id -> calls_for id l = [].
Proof.
  intros H Hne. induction H as [|c l Hc H IH]; simpl; [reflexivity|].
  rewrite Hc. destruct (Nat.eqb_spec j id); [contradiction | exact IH].
Qed.

Lemma calls_for_same id l :
  Forall (fun c => fst c = id) l -> calls_for id l = l.
Proof.
  intros H. induction H as [|c l Hc H IH]; simpl; [reflexivity|].
  rewrite Hc, Nat.eqb_refl, IH. reflexivity.
Qed.

(** A run of passes leaves alone every document none of them works
    for. *)
Lemma run_passes_frame ps : forall w id,
  ~ In id (map pass_id ps) ->
  findOne id (db (run_passes ps w)) = findOne id (db w) /\
  calls_for id (calls (run_passes ps w)) = calls_for id (calls w).
Proof.
  unfold run_passes.
  induction ps as [|p rest IH]; intros w id Hid; simpl; [auto|].
  destruct (run_pass_outcome p) as (write & new & Hout & Hrun).
  assert (Hne : id <> pass_id p) by (intros E; apply Hid; left; auto).
  destruct (IH (run_pass w p) id) as [Hf Hc];
    [intros H; apply Hid; right; exact H|].
  rewrite Hf, Hc, Hrun. simpl. split.
  - apply findOne_apply_write_other;
      [apply (pass_outcome_write p write new Hout) | exact Hne].
  - rewrite calls_for_app.
    rewrite (calls_for_other id (pass_id p) new);
      [apply app_nil_r | apply (pass_outcome_tagged p write new Hout) | auto].
Qed.

(** In a run of passes for distinct documents, each document sees only
    its own pass: the stored document is rewritten by that pass's write, and
    the calls made for it are that pass's calls. *)
Lemma run_passes_per_document ps : forall w p,
  NoDup (map pass_id ps) -> In p ps ->
  exists write new,
    pass_outcome p write new /\
    findOne (pass_id p) (db (run_passes ps w)) =
      written write (findOne (pass_id p) (db w)) /\
    calls_for (pass_id p) (calls (run_passes ps w)) =
      (calls_for (pass_id p) (calls w) ++ new)%list /\
    forall w0, run_pass w0 p =
               {| db := apply_write (pass_id p) write (db w0);
                  calls := (calls w0 ++ new)%list |}.
Proof.
  induction ps as [|q rest IH]; intros w p Hnd Hin; [contradiction|].
  inversion Hnd as [|? ? Hq Hrest]; subst.
  destruct (run_pass_outcome q) as (write & new & Hout & Hrun).
  change (run_passes (q :: rest) w) with (run_passes rest (run_pass w q)).
  destruct Hin as [->|Hin].
  - exists write, new. split; [exact Hout|].
    destruct (run_passes_frame rest (run_pass w p) (pass_id p) Hq) as [Hf Hc].
    rewrite Hf, Hc, Hrun. simpl. split; [|split; [|exact Hrun]].
    + apply findOne_apply_write, (pass_outcome_write p write new Hout).
    + rewrite calls_for_app.
      rewrite (calls_for_same (pass_id p) new
                 (pass_outcome_tagged p write new Hout)).
      reflexivity.
  - destruct (IH (run_pass w q) p Hrest Hin)
      as (write' & new' & Hout' & Hf & Hc & Hrun').
    exists write', new'. split; [exact Hout'|].
    assert (Hne : pass_id p <> pass_id q).
    { intros E. apply Hq. rewrite <- E. apply in_map. exact Hin. }
    rewrite Hf, Hc, Hrun. simpl. split; [|split; [|exact Hrun']].
    + rewrite findOne_apply_write_other;
        [reflexivity | apply (pass_outcome_write q write new Hout) | exact Hne].
    + rewrite calls_for_app.
      rewrite (calls_for_other (pass_id p) (pass_id q) new);
        [rewrite app_nil_r; reflexivity
        | apply (pass_outcome_tagged q write new Hout) | auto].
Qed.


Lemma stable_ids docs docs' :
  Forall2 stable docs docs' -> map _id docs' = map _id docs.
Proof.
  induction 1 as [|d d' l l' [(Hid & _) _] H IH]; simpl; [reflexivity|].
  rewrite Hid, IH. reflexivity.
Qed.

Lemma run_passes_ids ps w : map _id (db (run_passes ps w)) = map _id (db w).
Proof. apply stable_ids, run_passes_stable. Qed.

Lemma run_cycle_ids c w : map _id (db (run_cycle w c)) = map _id (db w).
Proof.
  destruct (run_cycle_passes c w) as (ps & H & _). rewrite H.
  apply run_passes_ids.
Qed.

(** The documents a query selects from a collection with distinct [_id]s
    have distinct [_id]s. *)
Lemma filter_ids_NoDup (q : ApprovalDoc -> bool) docs :
  NoDup (map _id docs) -> NoDup (map _id (filter q docs)).
Proof.
  induction docs as [|d rest IH]; simpl; intros H; [constructor|].
  inversion H as [|? ? Hd Hrest]; subst.
  destruct (q d); simpl; [|apply IH; exact Hrest].
  constructor; [|apply IH; exact Hrest].
  intros Hin. apply Hd. apply in_map_iff in Hin.
  destruct Hin as (x & Hx & Hxin). apply filter_In in Hxin.
  rewrite <- Hx. apply in_map. tauto.
Qed.

(** A cycle leaves alone every document its query does not select. *)
Lemma run_cycle_frame c w d :
  NoDup (map _id (db w)) -> In d (db w) -> cycle_query c d = false ->
  findOne (_id d) (db (run_cycle w c)) = Some d /\
  calls_for (_id d) (calls (run_cycle w c)) = calls_for (_id d) (calls w).
Proof.
  intros Hnd Hin Hq.
  destruct (run_cycle_passes c w) as (ps & Hrun & Hps).
  rewrite Hrun.
  destruct (run_passes_frame ps w (_id d)) as [Hf Hc].
  - intros Hid. apply in_map_iff in Hid. destruct Hid as (p & Hp & Hpin).
    specialize (Hps p Hpin).
    destruct c as [env|env], p as [env' a|env' a]; simpl in *; try contradiction;
      destruct Hps as [_ Ha]; apply filter_In in Ha; destruct Ha as [Ha Hqa];
      pose proof (In_findOne _ _ Hnd Ha) as H1;
      pose proof (In_findOne _ _ Hnd Hin) as H2;
      rewrite Hp, H2 in H1; inversion H1; subst; congruence.
  - rewrite Hf, Hc. split; [apply In_findOne; assumption | reflexivity].
Qed.

Lemma closed_not_selected c d : closed d -> cycle_query c d = false.
Proof.
  intros [He|[Hv Ht]]; destruct c; simpl.
  - apply Verifier_query_closed. auto.
  - apply Executor_query_closed. auto.
  - apply Verifier_query_closed. auto.
  - apply Executor_query_closed. auto.
Qed.

End PerDocument.

(* ================================================================== *)
(** ** Ledger calls of passes and cycles *)

Section LedgerCalls.

(** The calls of a run of passes are the calls of its passes. *)
Lemma run_passes_calls ps : forall w,
  exists new,
    calls (run_passes ps w) = (calls w ++ new)%list /\
    forall c, In c new ->
      exists p write nw, In p ps /\ pass_outcome p write nw /\ In c nw.
Proof.
  unfold run_passes.
  induction ps as [|p rest IH]; intros w; simpl.
  - exists []. rewrite app_nil_r. split; [reflexivity | intros c []].
  - destruct (run_pass_outcome p) as (write & new1 & Hout & Hrun).
    destruct (IH (run_pass w p)) as (new2 & Hc & Hfrom).
    exists (new1 ++ new2)%list. split.
    + rewrite Hc, Hrun. simpl. symmetry. apply app_assoc.
    + intros c Hin. apply in_app_or in Hin. destruct Hin as [Hin|Hin].
      * exists p, write, new1. auto.
      * destruct (Hfrom c Hin) as (p' & wr & nw & Hp & Ho & Hcn).
        exists p', wr, nw. auto.
Qed.

Lemma verifier_outcome_reads env a write new :
  verifier_outcome env a write new ->
  Forall (fun c => is_verifier_read (snd c) = true) new.
Proof.
  intros [H|key msg Hr Ht|key Hr Ht|key tx Hr Ht Hf|key tx Hr Ht Hf];
    repeat constructor.
  apply Forall_forall. intros c Hc. apply in_flat_map in Hc.
  destruct Hc as (g & _ & Hc). unfold VerifierSpec.grant_calls in Hc.
  destruct (new_PublicKey env (tokenAccount g)); [contradiction|].
  destruct Hc as [<-|[]]. reflexivity.
Qed.

Lemma transfer_reads_no_submission env dk destk a :
  submissions (transfer_reads env dk destk a) = [].
Proof.
  unfold transfer_reads. induction (approvals a) as [|g rest IH]; [reflexivity|].
  simpl. unfold submissions in *. rewrite filter_app, IH, app_nil_r.
  unfold ExecutorSpec.grant_calls.
  destruct (new_PublicKey env (tokenAccount g)); [reflexivity|]. simpl.
  destruct (getAccount env s) as [|acc]; [reflexivity|].
  destruct (negb (VerifierSpec.delegate_is dk acc)
            || (SplToken.delegatedAmount acc =? 0)%Z
            || (ExecutorSpec.transfer_amount acc =? 0)%Z); [reflexivity|].
  destruct (new_PublicKey env (mint g)); reflexivity.
Qed.

Lemma submissions_app l1 l2 :
  submissions (l1 ++ l2) = (submissions l1 ++ submissions l2)%list.
Proof. apply filter_app. Qed.

(** A pass of the Transfer Executor submits at most once, and when it
    does it closes the record: it writes, and what it writes sets [executed]
    or [transferred]. *)
Lemma executor_outcome_submissions env a write new :
  executor_outcome env a write new ->
  List.length (submissions new) <= 1 /\
  (submissions new <> [] ->
   exists set, write = Some set /\
     forall d, verified d = Some true -> closed (set d)).
Proof.
  intros [H|msg|dk destk Hr Hb|dk destk msg Hr Hb Hbh|dk destk msg Hr Hb Hs
          |dk destk sig msg Hr Hb Hs Hc|dk destk sig Hr Hb Hs Hc];
    rewrite ?submissions_app, ?transfer_reads_no_submission; simpl;
    (split; [lia|]); intros Hne; try (contradiction Hne; reflexivity).
  - eexists. split; [reflexivity|]. intros d _. left. reflexivity.
  - eexists. split; [reflexivity|]. intros d _. left. reflexivity.
  - eexists. split; [reflexivity|]. intros d Hv. right. simpl. auto.
Qed.

Lemma submissions_for_calls_for id l :
  submissions_for id l = submissions (calls_for id l).
Proof.
  unfold submissions_for, submissions, calls_for.
  induction l as [|c rest IH]; simpl; [reflexivity|].
  destruct (match snd c with
            | CallSendRawTransaction _ => true
            | _ => false
            end) eqn:Hs; destruct (Nat.eqb (fst c) id) eqn:Hi; simpl;
    rewrite ?Hs, ?Hi, IH; reflexivity.
Qed.

End LedgerCalls.

(* ================================================================== *)
(** ** Cycles run one after the other *)

Section SequentialCycles.

Lemma run_cycles_ids cs : forall w, map _id (db (run_cycles cs w)) = map _id (db w).
Proof.
  unfold run_cycles. induction cs as [|c rest IH]; intros w; simpl; [reflexivity|].
  rewrite IH. apply run_cycle_ids.
Qed.

Lemma run_cycle_NoDup c w :
  NoDup (map _id (db w)) -> NoDup (map _id (db (run_cycle w c))).
Proof. rewrite run_cycle_ids. auto. Qed.

Lemma run_cycles_closed cs : forall w d,
  NoDup (map _id (db w)) -> In d (db w) -> closed d ->
  findOne (_id d) (db (run_cycles cs w)) = Some d /\
  calls_for (_id d) (calls (run_cycles cs w)) = calls_for (_id d) (calls w).
Proof.
  unfold run_cycles.
  induction cs as [|c rest IH]; intros w d Hnd Hin Hcl; simpl.
  - split; [apply In_findOne; assumption | reflexivity].
  - destruct (run_cycle_frame c w d Hnd Hin (closed_not_selected c d Hcl))
      as [Hf Hc].
    destruct (IH (run_cycle w c) d) as [Hf' Hc'];
      [apply run_cycle_NoDup; exact Hnd
      | apply findOne_In in Hf; tauto | exact Hcl |].
    rewrite Hf', Hc', Hc. auto.
Qed.

Lemma verifier_cycle_reads env w :
  exists new,
    calls (run_cycle w (VerifierCycle env)) = (calls w ++ new)%list /\
    Forall (fun c => is_verifier_read (snd c) = true) new.
Proof.
  destruct (run_cycle_passes (VerifierCycle env) w) as (ps & Hrun & Hps).
  rewrite Hrun.
  destruct (run_passes_calls ps w) as (new & Hc & Hfrom).
  exists new. split; [exact Hc|].
  apply Forall_forall. intros c Hin.
  destruct (Hfrom c Hin) as (p & wr & nw & Hp & Hout & Hcn).
  specialize (Hps p Hp).
  destruct Hout as [env' a msg Hab|env' a wr nw Hvo|env' a wr nw Heo].
  - contradiction.
  - pose proof (verifier_outcome_reads env' a wr nw Hvo) as Hr.
    rewrite Forall_forall in Hr. apply Hr. exact Hcn.
  - contradiction.
Qed.

Lemma verifier_reads_no_submission new :
  Forall (fun c => is_verifier_read (snd c) = true) new -> submissions new = [].
Proof.
  induction 1 as [|c l Hc H IH]; [reflexivity|].
  unfold submissions in *. simpl. rewrite IH.
  destruct (snd c); try reflexivity; discriminate.
Qed.

Lemma run_cycle_submitted_once c w :
  NoDup (map _id (db w)) -> submitted_once w -> submitted_once (run_cycle w c).
Proof.
  intros Hnd Hinv id. destruct (Hinv id) as [Hlen Hcl].
  destruct c as [env|env].
  - destruct (verifier_cycle_reads env w) as (new & Hc & Hr).
    assert (Hsame : submissions_for id (calls (run_cycle w (VerifierCycle env)))
                    = submissions_for id (calls w)).
    { rewrite Hc. unfold submissions_for. rewrite submissions_app, filter_app.
      rewrite (verifier_reads_no_submission new Hr). apply app_nil_r. }
    rewrite Hsame. split; [exact Hlen|].
    intros Hne. destruct (Hcl Hne) as (d & Hf & Hd).
    exists d. split; [|exact Hd].
    pose proof (findOne_In _ _ _ Hf) as [Hin <-].
    apply (run_cycle_frame (VerifierCycle env) w d Hnd Hin
             (closed_not_selected _ d Hd)).
  - simpl. rewrite executor_cycle_passes. simpl.
    set (selected := filter Executor.query (db w)).
    set (ps := map (ExecutorPass env) selected).
    assert (Hids : map pass_id ps = map _id selected).
    { unfold ps. rewrite map_map. reflexivity. }
    assert (Hps : NoDup (map pass_id ps)).
    { rewrite Hids. apply filter_ids_NoDup. exact Hnd. }
    destruct (in_dec Nat.eq_dec id (map pass_id ps)) as [Hin|Hout].
    + apply in_map_iff in Hin. destruct Hin as (p & Hp & Hpin).
      pose proof Hpin as Hpin'. unfold ps in Hpin'.
      apply in_map_iff in Hpin'. destruct Hpin' as (a & Ha & Hsel).
      subst p. simpl in Hp. subst id.
      apply filter_In in Hsel. destruct Hsel as [Hadb Hq].
      pose proof (In_findOne _ _ Hnd Hadb) as Hfa.
      assert (Hnone : submissions_for (_id a) (calls w) = []).
      { destruct (submissions_for (_id a) (calls w)) eqn:E; [reflexivity|].
        destruct Hcl as (d & Hf & Hd); [discriminate|].
        rewrite Hfa in Hf. inversion Hf; subst d.
        pose proof (closed_not_selected (ExecutorCycle env) a Hd) as Hno.
        simpl in Hno. rewrite Hno in Hq. discriminate. }
      destruct (run_passes_per_document ps w (ExecutorPass env a) Hps Hpin)
        as (write & new & Hout & Hf & Hc & _).
      simpl in Hf, Hc.
      inversion Hout as [| |env' a' wr nw Heo]; subst.
      destruct (executor_outcome_submissions env a write new Heo) as [Hle Hw].
      rewrite submissions_for_calls_for, Hc, submissions_app.
      rewrite <- submissions_for_calls_for, Hnone. simpl.
      split; [exact Hle|].
      intros Hne. destruct (Hw Hne) as (set & -> & Hset).
      rewrite Hf, Hfa. simpl. exists (set a). split; [reflexivity|].
      apply Hset. apply Executor_query_spec in Hq. tauto.
    + destruct (run_passes_frame ps w id Hout) as [Hf Hc].
      rewrite submissions_for_calls_for, Hc, <- submissions_for_calls_for, Hf.
      auto.
Qed.

Lemma run_cycles_submitted_once cs : forall w,
  NoDup (map _id (db w)) -> submitted_once w -> submitted_once (run_cycles cs w).
Proof.
  unfold run_cycles.
  induction cs as [|c rest IH]; intros w Hnd Hinv; simpl; [exact Hinv|].
  apply IH; [apply run_cycle_NoDup; exact Hnd
            | apply run_cycle_submitted_once; assumption].
Qed.

End SequentialCycles.

(* ================================================================== *)
(** ** Properties of the running services *)

Section Running.

Lemma Forall2_weaken {A} (R S : A -> A -> Prop) l l' :
  (forall x y, R x y -> S x y) -> Forall2 R l l' -> Forall2 S l l'.
Proof. intros H. induction 1; constructor; auto. Qed.

Ltac distinct_ids :=
  simpl; repeat (constructor; [simpl; intuition discriminate|]); constructor.

(** No run of the two services, whether its cycles follow one another or
    overlap on stale snapshots, inserts, deletes or reorders a document or
    rewrites a claim field ([_id], owner, delegate, approvals,
    transactionSignature, network, createdAt, submitted, submittedAt). *)
Theorem claim_fields_are_never_rewritten ps cs w :
  Forall2 same_claim (db w) (db (run_passes ps w)) /\
  Forall2 same_claim (db w) (db (run_cycles cs w)).
Proof.
  split.
  - apply (Forall2_weaken stable); [intros x y [H _]; exact H|].
    apply run_passes_stable.
  - destruct (run_cycles_passes cs w) as (qs & ->).
    apply (Forall2_weaken stable); [intros x y [H _]; exact H|].
    apply run_passes_stable.
Qed.

(** No run of the two services ever clears [executed] or [transferred]
    once it is [true], even when cycles overlap. *)
Theorem closing_flags_are_never_cleared ps cs w :
  Forall2 flags_kept (db w) (db (run_passes ps w)) /\
  Forall2 flags_kept (db w) (db (run_cycles cs w)).
Proof.
  split.
  - apply (Forall2_weaken stable); [intros x y [_ H]; exact H|].
    apply run_passes_stable.
  - destruct (run_cycles_passes cs w) as (qs & ->).
    apply (Forall2_weaken stable); [intros x y [_ H]; exact H|].
    apply run_passes_stable.
Qed.

(** With distinct [_id]s, a record that is executed, or verified and
    transferred, is never changed again by cycles that follow one another, and
    no further ledger call is made for it. *)
Theorem closed_records_are_left_alone cs w d :
  NoDup (map _id (db w)) -> In d (db w) -> closed d ->
  findOne (_id d) (db (run_cycles cs w)) = Some d /\
  calls_for (_id d) (calls (run_cycles cs w)) = calls_for (_id d) (calls w).
Proof. apply run_cycles_closed. Qed.

Lemma closed_records_are_left_alone_witness :
  let w := Scenario.store [Scenario.alice_transferred; Scenario.bob_verified] in
  let cs := [VerifierCycle (Scenario.honest 400); ExecutorCycle (Scenario.honest 500);
             ExecutorCycle (Scenario.revoked 600)] in
  closed Scenario.alice_transferred /\
  findOne 1 (db (run_cycles cs w)) = Some Scenario.alice_transferred /\
  calls_for 1 (calls (run_cycles cs w)) = [].
Proof.
  intros w cs.
  assert (Hc : closed Scenario.alice_transferred) by (right; split; reflexivity).
  split; [exact Hc|].
  apply (closed_records_are_left_alone cs w Scenario.alice_transferred).
  - distinct_ids.
  - left. reflexivity.
  - exact Hc.
Defined.

(** With distinct [_id]s, a Verifier cycle leaves every record it does
    not select (verified, or with [executed] other than [false]) exactly as
    it was and makes no ledger call for it, also when the cycle is cut
    short. *)
Theorem verifier_cycle_leaves_unselected_records env w d :
  NoDup (map _id (db w)) -> In d (db w) -> Verifier.query d = false ->
  findOne (_id d) (db (world_of (Verifier.verifySolanaApprovals env w))) = Some d /\
  calls_for (_id d) (calls (world_of (Verifier.verifySolanaApprovals env w))) =
  calls_for (_id d) (calls w).
Proof.
  intros Hnd Hin Hq.
  apply (run_cycle_frame (VerifierCycle env) w d Hnd Hin Hq).
Qed.

Lemma verifier_cycle_leaves_unselected_records_witness :
  let w := Scenario.store [Scenario.alice_verified; Scenario.bob] in
  let w' := world_of (Verifier.verifySolanaApprovals (Scenario.revoked 400) w) in
  Verifier.query Scenario.alice_verified = false /\
  findOne 1 (db w') = Some Scenario.alice_verified /\
  calls_for 1 (calls w') = [].
Proof.
  intros w w'. split; [reflexivity|].
  apply (verifier_cycle_leaves_unselected_records (Scenario.revoked 400) w
           Scenario.alice_verified).
  - distinct_ids.
  - left. reflexivity.
  - reflexivity.
Defined.




Lemma run_cycles_on_submitted_once cs : forall w,
  Forall (fun c => writable (fst c)) cs ->
  NoDup (map _id (db w)) -> submitted_once w ->
  submitted_once (run_cycles_on cs w).
Proof.
  unfold run_cycles_on.
  induction cs as [|[store c] rest IH]; intros w Hall Hnd Hinv;
    cbn [fold_left]; [exact Hinv|].
  inversion Hall as [|? ? Hw Hrest]; subst. simpl in Hw.
  destruct (run_cycle_on_writable store c w Hw) as [E|E]; rewrite E.
  - apply IH; assumption.
  - apply IH; [exact Hrest | apply run_cycle_NoDup; exact Hnd
               | apply run_cycle_submitted_once; assumption].
Qed.

(** With distinct [_id]s and no submission made yet, cycles of the two
    services that follow one another, in any order, with any ledger answers
    and whether or not the store answers their [connect] and [find], submit
    a transaction for any one record at most once, as long as the store
    takes every [updateOne] of these cycles. *)
Theorem no_record_is_submitted_twice cs w id :
  Forall (fun c => writable (fst c)) cs ->
  NoDup (map _id (db w)) -> submissions (calls w) = [] ->
  List.length (submissions_for id (calls (run_cycles_on cs w))) <= 1.
Proof.
  intros Hr Hnd Hnone.
  apply (run_cycles_on_submitted_once cs w Hr Hnd).
  intros j. unfold submissions_for. rewrite Hnone. simpl.
  split; [lia|]. intros H. contradiction H. reflexivity.
Qed.

Lemma no_record_is_submitted_twice_witness :
  let w := Scenario.store [Scenario.alice; Scenario.bob] in
  let cs := [(Scenario.steady, VerifierCycle (Scenario.honest 100));
             (Scenario.steady, ExecutorCycle (Scenario.honest 200));
             (Scenario.offline, ExecutorCycle (Scenario.honest 250));
             (Scenario.steady, VerifierCycle (Scenario.revoked 300));
             (Scenario.steady, ExecutorCycle (Scenario.honest 400))] in
  List.length (submissions_for 1 (calls (run_cycles_on cs w))) <= 1.
Proof.
  intros w cs. apply (no_record_is_submitted_twice cs w 1).
  - repeat constructor; intros j site; reflexivity.
  - distinct_ids.
  - reflexivity.
Defined.

(** The condition on the store is needed.  When the store refuses the
    writes that follow a confirmed settlement, both the one in the [try] and
    the one in the [catch], the error ends the cycle with the record as it
    was, still selected; the next cycle submits its batch again, and a
    record stored after it is not reached. *)
Example refused_settlement_write_is_submitted_again :
  let w := Scenario.store [Scenario.alice_verified; Scenario.bob_verified] in
  let cs := [(Scenario.read_only, ExecutorCycle (Scenario.honest 200));
             (Scenario.steady, ExecutorCycle (Scenario.honest 300))] in
  db (run_cycle_on w (Scenario.read_only, ExecutorCycle (Scenario.honest 200))) = db w /\
  calls_for 2 (calls (run_cycle_on w
                        (Scenario.read_only, ExecutorCycle (Scenario.honest 200)))) = [] /\
  List.length (submissions_for 1 (calls (run_cycles_on cs w))) = 2.
Proof. vm_compute. repeat split. Qed.

End Running.

(* ================================================================== *)
(** ** A Verifier pass that throws ends the cycle *)

Section CutShort.

Lemma verifier_aborts_throws env a msg :
  verifier_aborts env a msg ->
  forall w, Verifier.verifyApproval env a w = Thrown msg w.
Proof.
  intros [n Hn Hcfg Hin Hdel Hthrow
         | n cfg toCheck Hn Hcfg Hd Hne Hc
         | n cfg toCheck Hn Hcfg Hd Hne Hc Hk] w.
  - rewrite (verifyApproval_unlisted env a n w Hn Hcfg), Hin, Hdel, Hthrow.
    reflexivity.
  - unfold Verifier.verifyApproval.
    rewrite Hn, (solanaConfig_network env _ _ Hcfg), Hcfg, Hd, Hne.
    unfold bind, construct. rewrite Hc. reflexivity.
  - unfold Verifier.verifyApproval.
    rewrite Hn, (solanaConfig_network env _ _ Hcfg), Hcfg, Hd, Hne.
    unfold bind, construct. rewrite Hc, Hk. reflexivity.
Qed.



(** The documents the loop reached are those before the first whose pass
    throws. *)
Lemma verifier_loop_reached env l : forall w,
  exists reached rest,
    l = (reached ++ rest)%list /\
    world_of (for_of l (fun approvalData _ => Verifier.verifyApproval env approvalData)
                tt w) =
    run_passes (map (VerifierPass env) reached) w /\
    Forall (fun a => forall msg, ~ verifier_aborts env a msg) reached.
Proof.
  induction l as [|a l' IH]; intros w; cbn [for_of].
  - exists [], []. repeat split. constructor.
  - destruct (verifyApproval_outcome env a)
      as [(msg & Hab & Hrun) | (write & new & Hout & Hrun)].
    + exists [], (a :: l'). split; [reflexivity|]. split; [|constructor].
      unfold bind. rewrite Hrun. reflexivity.
    + destruct (IH (run_pass w (VerifierPass env a)))
        as (reached & rest & Hl & Hw & Hreached).
      exists (a :: reached), rest. split; [rewrite Hl; reflexivity|].
      split.
      * unfold bind at 1. simpl in Hw |- *. rewrite Hrun in Hw |- *. exact Hw.
      * constructor; [|exact Hreached].
        intros msg Hab.
        pose proof (verifier_aborts_throws env a msg Hab
                      {| db := []; calls := [] |}) as Ht.
        rewrite Hrun in Ht. discriminate.
Qed.

Lemma updateOne_docs_prefix id set before sfx :
  In id (map _id before) ->
  updateOne_docs id set (before ++ sfx) = (updateOne_docs id set before ++ sfx)%list.
Proof.
  induction before as [|d rest IH]; simpl; intros Hin; [contradiction|].
  destruct (Nat.eqb_spec (_id d) id) as [E|E]; [reflexivity|].
  destruct Hin as [Hin|Hin]; [contradiction|].
  rewrite IH by exact Hin. reflexivity.
Qed.

Lemma updateOne_docs_ids id set docs :
  keeps_id set -> map _id (updateOne_docs id set docs) = map _id docs.
Proof.
  intros Hk. induction docs as [|d rest IH]; simpl; [reflexivity|].
  destruct (Nat.eqb (_id d) id); simpl; [rewrite Hk | rewrite IH]; reflexivity.
Qed.

(** Passes for documents of a prefix of the collection leave the rest of
    the collection as it is. *)
Lemma run_passes_prefix ps : forall w before sfx,
  db w = (before ++ sfx)%list ->
  (forall p, In p ps -> In (pass_id p) (map _id before)) ->
  exists before',
    db (run_passes ps w) = (before' ++ sfx)%list /\
    map _id before' = map _id before.
Proof.
  unfold run_passes.
  induction ps as [|p rest IH]; intros w before sfx Hdb Hps; simpl.
  - exists before. auto.
  - destruct (run_pass_outcome p) as (write & new & Hout & Hrun).
    pose proof (pass_outcome_write p write new Hout) as Hw.
    assert (Hp : In (pass_id p) (map _id before)) by (apply Hps; left; reflexivity).
    destruct write as [set|].
    + destruct (IH (run_pass w p) (updateOne_docs (pass_id p) set before) sfx)
        as (before' & Hdb' & Hids).
      * rewrite Hrun. simpl. rewrite Hdb. apply updateOne_docs_prefix. exact Hp.
      * intros q Hq. rewrite updateOne_docs_ids by (apply service_write_keeps_id, Hw).
        apply Hps. right. exact Hq.
      * exists before'. split; [exact Hdb'|].
        rewrite Hids. apply updateOne_docs_ids, service_write_keeps_id, Hw.
    + destruct (IH (run_pass w p) before sfx) as (before' & Hdb' & Hids).
      * rewrite Hrun. simpl. exact Hdb.
      * intros q Hq. apply Hps. right. exact Hq.
      * exists before'. auto.
Qed.

Lemma NoDup_app_disjoint {A} (l1 l2 : list A) x :
  NoDup (l1 ++ l2) -> In x l1 -> In x l2 -> False.
Proof.
  induction l1 as [|y rest IH]; simpl; intros Hnd H1 H2; [contradiction|].
  inversion Hnd as [|? ? Hy Hrest]; subst.
  destruct H1 as [->|H1].
  - apply Hy. apply in_or_app. right. exact H2.
  - apply IH; assumption.
Qed.

(** One Verifier cycle over a collection in which the pass over [poison]
    throws. *)
Lemma blocked_cycle env w before poison after msg :
  db w = (before ++ poison :: after)%list ->
  NoDup (map _id (db w)) ->
  Verifier.query poison = true ->
  verifier_aborts env poison msg ->
  exists before',
    db (run_cycle w (VerifierCycle env)) = (before' ++ poison :: after)%list /\
    map _id before' = map _id before /\
    forall d, In d (poison :: after) ->
      calls_for (_id d) (calls (run_cycle w (VerifierCycle env))) =
      calls_for (_id d) (calls w).
Proof.
  intros Hdb Hnd Hq Hab. simpl. rewrite verifySolanaApprovals_world. simpl.
  destruct (verifier_loop_reached env (filter Verifier.query (db w)) w)
    as (reached & rest & Hsel & Hrun & Hreached).
  rewrite Hrun.
  assert (Hin : forall a, In a reached -> In a before).
  { rewrite Hdb, filter_app in Hsel. simpl in Hsel. rewrite Hq in Hsel.
    symmetry in Hsel. apply app_eq_app in Hsel.
    destruct Hsel as (l & [[Hr Hp]|[Hb Hr]]).
    - destruct l as [|x l].
      + rewrite app_nil_r in Hr. intros a Ha. rewrite Hr in Ha.
        apply filter_In in Ha. tauto.
      + simpl in Hp. inversion Hp; subst x.
        exfalso. rewrite Forall_forall in Hreached.
        apply (Hreached poison) with (msg := msg); [|exact Hab].
        rewrite Hr. apply in_or_app. right. left. reflexivity.
    - intros a Ha.
      assert (Hf : In a (filter Verifier.query before))
        by (rewrite Hb; apply in_or_app; left; exact Ha).
      apply filter_In in Hf. tauto. }
  assert (Hps : forall p, In p (map (VerifierPass env) reached) ->
                          In (pass_id p) (map _id before)).
  { intros p Hp. apply in_map_iff in Hp. destruct Hp as (a & <- & Ha).
    simpl. apply in_map. apply Hin. exact Ha. }
  destruct (run_passes_prefix (map (VerifierPass env) reached) w before
              (poison :: after) Hdb Hps) as (before' & Hdb' & Hids).
  exists before'. split; [exact Hdb'|]. split; [exact Hids|].
  intros d Hd.
  apply (run_passes_frame (map (VerifierPass env) reached) w (_id d)).
  intros Hid. apply in_map_iff in Hid. destruct Hid as (p & Hp & Hpin).
  specialize (Hps p Hpin). rewrite Hp in Hps.
  rewrite Hdb, map_app in Hnd.
  apply (NoDup_app_disjoint _ _ (_id d) Hnd Hps).
  apply in_map. exact Hd.
Qed.

Lemma Verifier_runContinuously_cycles envs : forall w,
  Verifier.runContinuously envs w =
  Returned tt (run_cycles (map VerifierCycle envs) w).
Proof.
  unfold Verifier.runContinuously, run_cycles.
  induction envs as [|env rest IH]; intros w; cbn [for_of map fold_left].
  - reflexivity.
  - unfold bind at 1, try_catch at 1.
    rewrite verifySolanaApprovals_world. simpl.
    rewrite IH. rewrite verifySolanaApprovals_world. reflexivity.
Qed.

Lemma Executor_runContinuously_cycles envs : forall w,
  Executor.runContinuously envs w =
  Returned tt (run_cycles (map ExecutorCycle envs) w).
Proof.
  unfold Executor.runContinuously, run_cycles.
  induction envs as [|env rest IH]; intros w; cbn [for_of map fold_left].
  - reflexivity.
  - unfold bind at 1, try_catch at 1.
    rewrite executor_cycle_passes. simpl.
    rewrite IH. rewrite executor_cycle_passes. reflexivity.
Qed.

Lemma blocked_cycles envs : forall w before poison after,
  db w = (before ++ poison :: after)%list ->
  NoDup (map _id (db w)) ->
  Verifier.query poison = true ->
  Forall (fun env => exists msg, verifier_aborts env poison msg) envs ->
  exists before',
    db (run_cycles (map VerifierCycle envs) w) = (before' ++ poison :: after)%list /\
    map _id before' = map _id before /\
    forall d, In d (poison :: after) ->
      calls_for (_id d) (calls (run_cycles (map VerifierCycle envs) w)) =
      calls_for (_id d) (calls w).
Proof.
  unfold run_cycles.
  induction envs as [|env rest IH]; intros w before poison after Hdb Hnd Hq Hall;
    cbn [map fold_left].
  - exists before. auto.
  - inversion Hall as [|? ? (msg & Hab) Hrest]; subst.
    destruct (blocked_cycle env w before poison after msg Hdb Hnd Hq Hab)
      as (before1 & Hdb1 & Hids1 & Hc1).
    destruct (IH (run_cycle w (VerifierCycle env)) before1 poison after)
      as (before' & Hdb' & Hids' & Hc'); try assumption.
    + apply run_cycle_NoDup. exact Hnd.
    + exists before'. split; [exact Hdb'|]. split; [congruence|].
      intros d Hd. rewrite (Hc' d Hd). apply Hc1. exact Hd.
Qed.

(** With distinct [_id]s: if, in every cycle, the Verifier's pass over a
    selected record throws before its claim transaction is fetched (the
    record's network names a member inherited from [Object.prototype] and
    the record has a delegate; or, on the configured network, the connection
    cannot be made or the delegate address to check is not a public key),
    then however many cycles [runContinuously] runs, that record and every
    record stored after it stay exactly as they were, in place, and no
    ledger call is ever made for any of them. *)
Theorem throwing_record_blocks_every_record_after_it envs w before poison after :
  db w = (before ++ poison :: after)%list ->
  NoDup (map _id (db w)) ->
  Verifier.query poison = true ->
  Forall (fun env => exists msg, verifier_aborts env poison msg) envs ->
  exists w' before',
    Verifier.runContinuously envs w = Returned tt w' /\
    db w' = (before' ++ poison :: after)%list /\
    map _id before' = map _id before /\
    forall d, In d (poison :: after) ->
      calls_for (_id d) (calls w') = calls_for (_id d) (calls w).
Proof.
  intros Hdb Hnd Hq Hall.
  destruct (blocked_cycles envs w before poison after Hdb Hnd Hq Hall)
    as (before' & Hdb' & Hids & Hc).
  exists (run_cycles (map VerifierCycle envs) w), before'.
  split; [apply Verifier_runContinuously_cycles|]. auto.
Qed.

End CutShort.

Lemma throwing_record_blocks_every_record_after_it_witness :
  exists w' before',
    Verifier.runContinuously [Scenario.honest 100; Scenario.strict 200]
      (Scenario.store [Scenario.alice; Scenario.dan; Scenario.bob]) =
      Returned tt w' /\
    db w' = (before' ++ Scenario.dan :: [Scenario.bob])%list /\
    map _id before' = map _id [Scenario.alice] /\
    forall d, In d (Scenario.dan :: [Scenario.bob]) ->
      calls_for (_id d) (calls w') =
      calls_for (_id d)
        (calls (Scenario.store [Scenario.alice; Scenario.dan; Scenario.bob])).
Proof.
  apply (throwing_record_blocks_every_record_after_it
           [Scenario.honest 100; Scenario.strict 200]
           (Scenario.store [Scenario.alice; Scenario.dan; Scenario.bob])
           [Scenario.alice] Scenario.dan [Scenario.bob]).
  - reflexivity.
  - simpl. repeat (constructor; [simpl; intuition discriminate|]). constructor.
  - reflexivity.
  - repeat constructor;
      (eexists; apply (va_inherited_network _ Scenario.dan _ "constructor");
       reflexivity).
Defined.

(** The same with a stored delegate that is not a public key. *)
Example unparsable_delegate_blocks_the_cycle :
  let w := Scenario.store [Scenario.alice; Scenario.carol; Scenario.bob] in
  Verifier.query Scenario.bob = true /\
  db (world_of (Verifier.runContinuously
                  [Scenario.strict 100; Scenario.strict 200] w)) =
  [Scenario.alice_verified_at 100; Scenario.carol; Scenario.bob].
Proof. vm_compute. split; reflexivity. Qed.

(* ================================================================== *)
(** ** The Transfer Executor: settling a record *)

Section Settlement.

Variable env : Env.

(** Once the configuration, the key pair and the destination are in
    order, the pass is the grant loop followed by the settlement of its
    batch. *)
Lemma transferApproval_ready a dk destk w :
  executor_ready env a dk destk ->
  Executor.transferApproval env a w =
  try_catch
    (if Nat.eqb (List.length (transfer_batch env dk destk a)) 0 then
       updateOne (_id a)
         (set_nothing_transferred (now env) (transfer_results env dk destk a))
     else
       blockhash <- await (_id a) CallGetLatestBlockhash (getLatestBlockhash env) ;;
       signature <- await (_id a)
                      (CallSendRawTransaction (transfer_batch env dk destk a))
                      (sendRawTransaction env (transfer_batch env dk destk a)) ;;
       _ <- await (_id a) (CallConfirmTransaction signature)
              (confirmTransaction env signature) ;;
       updateOne (_id a)
         (set_transferred (now env) signature (transfer_results env dk destk a)))
    (fun message =>
       updateOne (_id a) (set_executed (now env) ("Transfer error: " ++ message)))
    {| db := db w;
       calls := (calls w ++ transfer_reads env dk destk a)%list |}.
Proof.
  intros (n & cfg & privateKey & destination & ownerKey & Hn & Hcfg & Hpk & Hdest
          & Hpke & Hde & Hdec & Hdel & Hconn & Hdk & Hok).
  unfold Executor.transferApproval.
  assert (Ht : truthy (Some n) = true).
  { unfold Executor.solanaConfig in Hcfg. simpl.
    destruct (String.eqb n "mainnet-beta") eqn:E; [|discriminate].
    apply String.eqb_eq in E. subst n. reflexivity. }
  rewrite Hn, Ht, Hcfg, Hpk, Hdest, Hpke, Hde.
  unfold try_catch at 1, bind at 1, construct at 1,
    Executor.getKeypairFromPrivateKey.
  rewrite Hdec. cbn [Executor.publicKey]. rewrite Hdel, String.eqb_refl.
  cbn [negb]. unfold bind at 1, construct at 1. rewrite Hconn.
  unfold bind at 1, construct at 1. rewrite Hdk.
  unfold bind at 1, construct at 1. rewrite Hok.
  unfold bind at 1. rewrite transfer_loop_spec. cbn [fst snd app].
  fold (transfer_batch env dk destk a) (transfer_results env dk destk a)
       (transfer_reads env dk destk a).
  reflexivity.
Qed.

(** As many successful results as instructions. *)
Lemma successes_match_batch dk destk l :
  List.length (filter tr_success
    (map (fun g => fst (ExecutorSpec.grant_transfer env dk destk g)) l)) =
  List.length (flat_map (fun g => ExecutorSpec.instruction_of
                                    (snd (ExecutorSpec.grant_transfer env dk destk g))) l).
Proof.
  induction l as [|g rest IH]; simpl; [reflexivity|].
  rewrite grant_transfer_success, length_app.
  destruct (snd (ExecutorSpec.grant_transfer env dk destk g)); simpl; rewrite IH;
    reflexivity.
Qed.

End Settlement.

Section SettlementProperties.

Variable env : Env.

(** When the grant loop yields no instruction, the Transfer Executor
    marks the record transferred with reason "No valid transfers to execute"
    and stores the per-grant results, all failed; it asks for no blockhash
    and sends nothing: the only ledger calls of the pass are the loop's
    reads. *)
Theorem empty_batch_is_marked_transferred a dk destk d w :
  executor_ready env a dk destk ->
  transfer_batch env dk destk a = [] ->
  findOne (_id a) (db w) = Some d ->
  exists w',
    Executor.transferApproval env a w = Returned tt w' /\
    findOne (_id a) (db w') =
      Some (set_nothing_transferred (now env) (transfer_results env dk destk a) d) /\
    Forall (fun r => tr_success r = false) (transfer_results env dk destk a) /\
    calls w' = (calls w ++ transfer_reads env dk destk a)%list /\
    submissions (calls w') = submissions (calls w).
Proof.
  intros Hr Hb Hf.
  rewrite (transferApproval_ready env a dk destk w Hr), Hb.
  eexists. split; [reflexivity|]. simpl.
  rewrite findOne_updateOne_same by apply set_nothing_transferred_keeps_id.
  rewrite Hf. split; [reflexivity|]. split; [|split; [reflexivity|]].
  - unfold transfer_results, transfer_batch in *.
    apply Forall_forall. intros r Hin. apply in_map_iff in Hin.
    destruct Hin as (g & <- & Hg). rewrite grant_transfer_success.
    destruct (snd (ExecutorSpec.grant_transfer env dk destk g)) as [ix|] eqn:E;
      [|reflexivity].
    assert (Hix : In ix (flat_map (fun g => ExecutorSpec.instruction_of
                   (snd (ExecutorSpec.grant_transfer env dk destk g))) (approvals a))).
    { apply in_flat_map. exists g. split; [exact Hg|]. rewrite E. left. reflexivity. }
    rewrite Hb in Hix. contradiction.
  - rewrite submissions_app, transfer_reads_no_submission. apply app_nil_r.
Qed.

(** When the blockhash request, the submission or the confirmation
    throws, the record is marked executed with reason "Transfer error: " and
    the message; [transferred], the settlement signature and the per-grant
    results are not written, and neither service selects the record again. *)
Theorem failed_settlement_is_marked_executed a dk destk d msg w :
  executor_ready env a dk destk ->
  transfer_batch env dk destk a <> [] ->
  findOne (_id a) (db w) = Some d ->
  getLatestBlockhash env = inl msg \/
  (exists blockhash, getLatestBlockhash env = inr blockhash /\
     sendRawTransaction env (transfer_batch env dk destk a) = inl msg) \/
  (exists blockhash signature, getLatestBlockhash env = inr blockhash /\
     sendRawTransaction env (transfer_batch env dk destk a) = inr signature /\
     confirmTransaction env signature = inl msg) ->
  exists w' d',
    Executor.transferApproval env a w = Returned tt w' /\
    findOne (_id a) (db w') = Some d' /\
    d' = set_executed (now env) ("Transfer error: " ++ msg) d /\
    transferred d' = transferred d /\
    transferTransactionSignature d' = transferTransactionSignature d /\
    transferResults d' = transferResults d /\
    Executor.query d' = false /\ Verifier.query d' = false.
Proof.
  intros Hr Hb Hf Hcase.
  rewrite (transferApproval_ready env a dk destk w Hr).
  destruct (transfer_batch env dk destk a) as [|ix rest] eqn:Hbatch;
    [contradiction Hb; reflexivity|].
  cbn [List.length Nat.eqb]. unfold try_catch, bind, await, updateOne.
  assert (Hdone : forall calls0,
    exists w' d',
      Returned tt {| db := updateOne_docs (_id a)
                             (set_executed (now env) ("Transfer error: " ++ msg)) (db w);
                     calls := calls0 |} = Returned tt w' /\
      findOne (_id a) (db w') = Some d' /\
      d' = set_executed (now env) ("Transfer error: " ++ msg) d /\
      transferred d' = transferred d /\
      transferTransactionSignature d' = transferTransactionSignature d /\
      transferResults d' = transferResults d /\
      Executor.query d' = false /\ Verifier.query d' = false).
  { intros calls0. eexists. eexists. split; [reflexivity|]. simpl.
    rewrite findOne_updateOne_same by apply set_executed_keeps_id.
    rewrite Hf. simpl. split; [reflexivity|]. split; [reflexivity|].
    repeat split.
    - apply Executor_query_closed. right. reflexivity.
    - apply Verifier_query_closed. right. reflexivity. }
  destruct Hcase as [Hbh|[(bh & Hbh & Hs)|(bh & sig & Hbh & Hs & Hc)]].
  - rewrite Hbh. simpl. apply Hdone.
  - rewrite Hbh. simpl. rewrite Hs. simpl. apply Hdone.
  - rewrite Hbh. simpl. rewrite Hs. simpl. rewrite Hc. simpl. apply Hdone.
Qed.

(** When the batch is not empty and the submission is confirmed, the
    record is marked transferred with the signature [sendRawTransaction]
    returned and the per-grant results; the pass asks for one blockhash, sends
    the batch once and confirms that signature; the results count as many
    successes as the batch has instructions. *)
Theorem confirmed_settlement_is_marked_transferred a dk destk d blockhash signature w :
  executor_ready env a dk destk ->
  transfer_batch env dk destk a <> [] ->
  findOne (_id a) (db w) = Some d ->
  getLatestBlockhash env = inr blockhash ->
  sendRawTransaction env (transfer_batch env dk destk a) = inr signature ->
  confirmTransaction env signature = inr tt ->
  exists w',
    Executor.transferApproval env a w = Returned tt w' /\
    findOne (_id a) (db w') =
      Some (set_transferred (now env) signature (transfer_results env dk destk a) d) /\
    calls w' =
      (calls w ++ transfer_reads env dk destk a ++
       [(_id a, CallGetLatestBlockhash);
        (_id a, CallSendRawTransaction (transfer_batch env dk destk a));
        (_id a, CallConfirmTransaction signature)])%list /\
    List.length (filter tr_success (transfer_results env dk destk a)) =
    List.length (transfer_batch env dk destk a).
Proof.
  intros Hr Hb Hf Hbh Hs Hc.
  rewrite (transferApproval_ready env a dk destk w Hr).
  destruct (transfer_batch env dk destk a) as [|ix rest] eqn:Hbatch;
    [contradiction Hb; reflexivity|].
  cbn [List.length Nat.eqb]. unfold try_catch, bind, await, updateOne.
  rewrite Hbh. simpl. rewrite Hs. simpl. rewrite Hc. simpl.
  eexists. split; [reflexivity|]. simpl.
  rewrite findOne_updateOne_same by apply set_transferred_keeps_id.
  rewrite Hf. split; [reflexivity|]. split.
  - rewrite <- !app_assoc. reflexivity.
  - unfold transfer_results. rewrite successes_match_batch.
    fold (transfer_batch env dk destk a). rewrite Hbatch. reflexivity.
Qed.

End SettlementProperties.

(** Discharges [executor_ready] for Alice's record on a scenario ledger. *)
Ltac alice_ready :=
  exists "mainnet-beta"; eexists; exists "custodian-secret", "Treasury", "Alice";
  repeat split; reflexivity.

Lemma empty_batch_is_marked_transferred_witness :
  let env := Scenario.revoked 400 in
  let w := Scenario.store [Scenario.alice_verified] in
  exists w',
    Executor.transferApproval env Scenario.alice_verified w = Returned tt w' /\
    option_map transferred (findOne 1 (db w')) = Some (Some true) /\
    option_map reason (findOne 1 (db w')) =
      Some (Some "No valid transfers to execute") /\
    calls w' = [(1, CallGetAccount "A")].
Proof.
  intros env w.
  destruct (empty_batch_is_marked_transferred env Scenario.alice_verified
              "Custodian" "Treasury" Scenario.alice_verified w)
    as (w' & Hrun & Hf & _ & Hc & _).
  - alice_ready.
  - reflexivity.
  - reflexivity.
  - change (_id Scenario.alice_verified) with 1 in Hf.
    exists w'. split; [exact Hrun|]. rewrite Hf, Hc. repeat split.
Defined.

Lemma failed_settlement_is_marked_executed_witness :
  let env := Scenario.congested 400 in
  let w := Scenario.store [Scenario.alice_verified] in
  exists w' d',
    Executor.transferApproval env Scenario.alice_verified w = Returned tt w' /\
    findOne 1 (db w') = Some d' /\
    reason d' = Some "Transfer error: Transaction simulation failed" /\
    transferred d' = None /\ transferResults d' = None.
Proof.
  intros env w.
  destruct (failed_settlement_is_marked_executed env Scenario.alice_verified
              "Custodian" "Treasury" Scenario.alice_verified
              "Transaction simulation failed" w)
    as (w' & d' & Hrun & Hf & Hd & Ht & _ & Hr & _).
  - alice_ready.
  - discriminate.
  - reflexivity.
  - right. left. exists "blockhash". split; reflexivity.
  - exists w', d'. split; [exact Hrun|]. split; [exact Hf|].
    rewrite Ht, Hr, Hd. repeat split.
Defined.

Lemma confirmed_settlement_is_marked_transferred_witness :
  let env := Scenario.honest 400 in
  let w := Scenario.store [Scenario.alice_verified] in
  exists w',
    Executor.transferApproval env Scenario.alice_verified w = Returned tt w' /\
    option_map transferTransactionSignature (findOne 1 (db w')) =
      Some (Some "settlement") /\
    List.length (submissions (calls w')) = 1.
Proof.
  intros env w.
  destruct (confirmed_settlement_is_marked_transferred env Scenario.alice_verified
              "Custodian" "Treasury" Scenario.alice_verified "blockhash"
              "settlement" w)
    as (w' & Hrun & Hf & Hc & _).
  - alice_ready.
  - discriminate.
  - reflexivity.
  - reflexivity.
  - reflexivity.
  - reflexivity.
  - change (_id Scenario.alice_verified) with 1 in Hf.
    exists w'. split; [exact Hrun|]. rewrite Hf, Hc. split; reflexivity.
Defined.

Section Batch.

Variable env : Env.

(** The grant loop batches one instruction for each grant it records as
    successful, in the order of the grants, and nothing else.  The
    instruction for a grant draws on the grant's own token account, whose
    on-chain delegate is the key the loop was given; it is signed for by
    that key, moves a non-zero amount (a positive one when the ledger
    reports no negative amounts), the minimum of the account's delegated
    amount and balance, and pays into the first token account the
    destination holds for that same grant's mint; the grant's result records
    the grant's mint and the amount moved. *)
Theorem batched_instructions_are_delegate_transfers id dk destk l w :
  exists rs tx w',
    for_of l (Executor.transferApprovalLine env id dk destk) ([], []) w =
      Returned (rs, tx) w' /\
    List.length (filter tr_success rs) = List.length tx /\
    List.length rs = List.length l /\
    Forall2 (fun gr ix =>
               let g := fst gr in
               ix_authority ix = dk /\
               ix_amount ix <> 0%Z /\
               new_PublicKey env (tokenAccount g) = inr (ix_source ix) /\
               (exists acc,
                  getAccount env (ix_source ix) = inr acc /\
                  VerifierSpec.delegate_is dk acc = true /\
                  ix_amount ix =
                    Z.min (SplToken.delegatedAmount acc) (SplToken.amount acc) /\
                  ((0 <= SplToken.delegatedAmount acc)%Z ->
                   (0 <= SplToken.amount acc)%Z -> (0 < ix_amount ix)%Z)) /\
               (exists mintKey others,
                  new_PublicKey env (mint g) = inr mintKey /\
                  getParsedTokenAccountsByOwner env destk mintKey =
                    inr (ix_destination ix :: others)) /\
               snd gr =
                 {| tr_tokenAccount := tokenAccount g; tr_mint := Some (mint g);
                    tr_amount := Some (bigint_toString (ix_amount ix));
                    tr_success := true; tr_reason := None |})
            (ExecutorSpec.batched l rs) tx.
Proof.
  rewrite transfer_loop_spec. simpl.
  eexists; eexists; eexists. split; [reflexivity|].
  split; [apply successes_match_batch|]. split; [apply length_map|].
  eapply Forall2_impl; [|apply (batch_by_grant env dk destk l)].
  intros [g r] ix [Hr Hix]. simpl in Hr, Hix |- *.
  destruct (grant_transfer_batched env dk destk g ix Hix)
    as (acc & mk & others & Hk & Hacc & Hdel & Hdz & Hamt & Hnz & Hauth
        & Hmk & Hp & Hres).
  split; [exact Hauth|]. split; [exact Hnz|]. split; [exact Hk|]. split.
  - exists acc. split; [exact Hacc|]. split; [exact Hdel|].
    split; [exact Hamt|].
    intros H1 H2. rewrite Hamt in Hnz |- *.
    unfold ExecutorSpec.transfer_amount in *. lia.
  - split; [exists mk, others; auto|]. rewrite Hr. exact Hres.
Qed.

End Batch.

(* ================================================================== *)
(** ** The ingestion route: rejections, connection and what follows *)

Section RouteProperties.

Import Route.

(** A body with a missing or falsy field, a non-array [approvals] or an
    empty array is answered 400 before any connection is attempted: the
    server, connection state included, is exactly as before.  The message is
    "No approvals provided" only for a body whose other fields are all present
    and whose [approvals] is the empty array. *)
Theorem POST_rejects_without_connecting c body s :
  acceptable body = false ->
  exists m,
    POST c (inr body) s = ({| status := 400; message := m; error := None |}, s) /\
    (m = "Missing required fields" \/
     m = "No approvals provided" /\ body_approvals body = Lines [] /\
     truthy (body_owner body) = true /\ truthy (body_delegate body) = true /\
     truthy (body_transactionSignature body) = true /\
     truthy (body_network body) = true).
Proof.
  unfold acceptable, POST.
  destruct (truthy (body_owner body)); simpl; [|eauto].
  destruct (truthy (body_delegate body)); simpl; [|eauto].
  destruct (body_approvals body) as [| |[|line rest]]; simpl; eauto.
  - destruct (truthy (body_transactionSignature body)); simpl; [|eauto].
    destruct (truthy (body_network body)); simpl; [|eauto].
    intros _. eexists. split; [reflexivity|]. right. repeat split.
  - destruct (truthy (body_transactionSignature body)); simpl; [|eauto].
    destruct (truthy (body_network body)); simpl; [discriminate|eauto].
Qed.

Lemma POST_rejects_without_connecting_witness :
  let body := {| body_owner := Some "Alice"; body_delegate := Some "Custodian";
                 body_approvals := Lines [];
                 body_transactionSignature := Some "sigA";
                 body_network := Some "mainnet-beta" |} in
  let c := {| date := 10; client_connect := inr tt; insertedId := 1 |} in
  let s := {| connected := false; documents := [] |} in
  exists m,
    POST c (inr body) s = ({| status := 400; message := m; error := None |}, s) /\
    (m = "Missing required fields" \/
     m = "No approvals provided" /\ body_approvals body = Lines [] /\
     truthy (body_owner body) = true /\ truthy (body_delegate body) = true /\
     truthy (body_transactionSignature body) = true /\
     truthy (body_network body) = true).
Proof.
  intros body c s. apply (POST_rejects_without_connecting c body s). reflexivity.
Defined.

Lemma RouteOnStore_POST_connected c request s :
  connected s = true ->
  connected (snd (RouteOnStore.POST c request s)) = true /\
  (status (fst (RouteOnStore.POST c request s)) = 200 <->
   exists body, request = inr body /\ acceptable body = true /\
                exists u, RouteOnStore.insertOne c = inr u).
Proof.
  intros Hc.
  destruct (RouteOnStore_POST_status c request s)
    as (Hiff & Hconn & Hdocs).
  split.
  - destruct request as [msg|body]; [exact Hc|].
    destruct (acceptable body) eqn:Hacc.
    + rewrite (RouteOnStore_POST_acceptable c body s Hacc). unfold connectDB.
      rewrite Hc. destruct (RouteOnStore.insertOne c); exact Hc.
    + destruct (RouteOnStore_POST_unacceptable c body s Hacc) as (Hs & _).
      rewrite Hs. exact Hc.
  - rewrite Hiff. split.
    + intros (body & Hb & Ha & _ & Hi). exists body. auto.
    + intros (body & Hb & Ha & Hi). exists body. auto.
Qed.

(** Once the server is connected, [client.connect()] is not consulted
    again: whatever it would answer, every later request is answered 200
    exactly when its body parses and is acceptable and the store takes its
    [insertOne]; and the server stays connected, whatever the store
    refuses. *)
Theorem connected_server_accepts_by_body_alone requests : forall s,
  connected s = true ->
  connected (snd (RouteOnStore.serve requests s)) = true /\
  Forall2 (fun request response =>
             status response = 200 <->
             exists body, snd request = inr body /\ acceptable body = true /\
                          exists u, RouteOnStore.insertOne (fst request) = inr u)
          requests (fst (RouteOnStore.serve requests s)).
Proof.
  induction requests as [|[c request] rest IH]; intros s Hc; simpl.
  - split; [exact Hc | constructor].
  - destruct (RouteOnStore_POST_connected c request s Hc) as [Hc' Hiff].
    destruct (RouteOnStore.POST c request s) as [response s'].
    simpl in Hc', Hiff.
    destruct (IH s' Hc') as [Hconn Hall].
    destruct (RouteOnStore.serve rest s') as [responses s'']. simpl in *.
    split; [exact Hconn|]. constructor; [exact Hiff | exact Hall].
Qed.

Lemma connected_server_accepts_by_body_alone_witness :
  let body := {| body_owner := Some "Alice"; body_delegate := Some "Custodian";
                 body_approvals := Lines [Scenario.grant_A];
                 body_transactionSignature := Some "sigA";
                 body_network := Some "mainnet-beta" |} in
  let down := {| date := 10; client_connect := inl "ECONNREFUSED"; insertedId := 1 |} in
  let s := {| connected := true; documents := [] |} in
  let requests : list (RouteOnStore.Call * Exc Body) :=
    [({| RouteOnStore.met := down; RouteOnStore.insertOne := inr tt |}, inr body);
     ({| RouteOnStore.met := down; RouteOnStore.insertOne := inl "not primary" |},
      inr body)] in
  connected (snd (RouteOnStore.serve requests s)) = true /\
  Forall2 (fun request response =>
             status response = 200 <->
             exists b, snd request = inr b /\ acceptable b = true /\
                       exists u, RouteOnStore.insertOne (fst request) = inr u)
          requests (fst (RouteOnStore.serve requests s)).
Proof.
  intros body down s requests.
  apply (connected_server_accepts_by_body_alone requests s).
  reflexivity.
Defined.

Lemma stored_by_fresh request response :
  Forall (fun d => lifecycleState d = Submitted /\
                   Verifier.query d = true /\ Executor.query d = false)
         (RouteOnStore.stored_by request response).
Proof.
  unfold RouteOnStore.stored_by.
  destruct (snd request) as [msg|body]; [constructor|].
  destruct (Nat.eqb (status response) 200); constructor; [|constructor].
  repeat split.
Qed.

(** Requests served in a row only ever append: the collection after them
    is the collection before followed, in request order, by the document
    built from the body of each request that was answered 200, and by
    nothing else; every request gets one response, and every stored
    document is a fresh one, selected by the Verifier and not by the
    Transfer Executor. *)
Theorem serve_appends_one_document_per_acceptance requests : forall s,
  documents (snd (RouteOnStore.serve requests s)) =
    (documents s ++
     RouteOnStore.stored_in_order requests (fst (RouteOnStore.serve requests s)))%list /\
  List.length (fst (RouteOnStore.serve requests s)) = List.length requests /\
  List.length (RouteOnStore.stored_in_order requests
                 (fst (RouteOnStore.serve requests s))) =
    List.length (filter (fun r => Nat.eqb (status r) 200)
                   (fst (RouteOnStore.serve requests s))) /\
  Forall (fun d => lifecycleState d = Submitted /\
                   Verifier.query d = true /\ Executor.query d = false)
         (RouteOnStore.stored_in_order requests
            (fst (RouteOnStore.serve requests s))).
Proof.
  induction requests as [|[c request] rest IH]; intros s; simpl.
  - rewrite app_nil_r. repeat split. constructor.
  - pose proof (RouteOnStore_POST_documents c request s) as Hd.
    pose proof (RouteOnStore_POST_status c request s)
      as (Hiff & _).
    destruct (RouteOnStore.POST c request s) as [response s'].
    simpl in Hd, Hiff.
    destruct (IH s') as (Hdocs & Hlen & Hcount & Hall).
    destruct (RouteOnStore.serve rest s') as [responses s'']. simpl in *.
    split; [rewrite Hdocs, Hd, <- app_assoc; reflexivity|].
    split; [rewrite Hlen; reflexivity|].
    split.
    + rewrite length_app, Hcount. unfold RouteOnStore.stored_by. simpl.
      destruct (Nat.eqb_spec (status response) 200) as [E|E].
      * apply Hiff in E. destruct E as (body & -> & _). reflexivity.
      * destruct request; reflexivity.
    + apply Forall_app. split; [apply stored_by_fresh | exact Hall].
Qed.

End RouteProperties.

(* ================================================================== *)
(** ** From ingestion to transfer: what a state implies *)

Section Evidence.

Import Route.

Lemma NoDup_snoc {A} (l : list A) x : NoDup l -> ~ In x l -> NoDup (l ++ [x]).
Proof.
  induction l as [|y rest IH]; simpl; intros Hnd Hx.
  - constructor; [intros [] | constructor].
  - inversion Hnd as [|? ? Hy Hrest]; subst. constructor.
    + intros Hin. apply in_app_or in Hin. destruct Hin as [Hin|[->|[]]].
      * contradiction.
      * apply Hx. left. reflexivity.
    + apply IH; [exact Hrest|]. intros Hin. apply Hx. right. exact Hin.
Qed.

Lemma executor_cycles_frame envs : forall w d,
  NoDup (map _id (db w)) -> In d (db w) -> Executor.query d = false ->
  findOne (_id d) (db (run_cycles (map ExecutorCycle envs) w)) = Some d /\
  calls_for (_id d) (calls (run_cycles (map ExecutorCycle envs) w)) =
  calls_for (_id d) (calls w).
Proof.
  unfold run_cycles.
  induction envs as [|env rest IH]; intros w d Hnd Hin Hq; cbn [map fold_left].
  - split; [apply In_findOne; assumption | reflexivity].
  - destruct (run_cycle_frame (ExecutorCycle env) w d Hnd Hin Hq) as [Hf Hc].
    destruct (IH (run_cycle w (ExecutorCycle env)) d) as [Hf' Hc'];
      [apply run_cycle_NoDup; exact Hnd
      | apply findOne_In in Hf; tauto | exact Hq |].
    rewrite Hf', Hc', Hc. auto.
Qed.

(** A record [POST] has just stored under a fresh [_id] is out of the
    Transfer Executor's reach: however many Executor cycles run, and whatever
    the ledger answers, the record stays exactly as stored and no ledger call
    is made for it. *)
Theorem ingested_record_waits_for_the_verifier c body s envs :
  acceptable body = true ->
  connected s = true \/ (exists u, client_connect c = inr u) ->
  NoDup (map _id (documents s)) ->
  ~ In (insertedId c) (map _id (documents s)) ->
  exists w',
    Executor.runContinuously envs
      {| db := documents (snd (POST c (inr body) s)); calls := [] |} =
      Returned tt w' /\
    findOne (insertedId c) (db w') = Some (stored c body) /\
    calls_for (insertedId c) (calls w') = [].
Proof.
  intros Hacc Hconn Hnd Hfresh.
  assert (Hdocs : documents (snd (POST c (inr body) s)) =
                  (documents s ++ [stored c body])%list).
  { rewrite (POST_acceptable c body s Hacc). unfold connectDB.
    destruct (connected s) eqn:Hc; [reflexivity|].
    destruct Hconn as [Hconn|(u & Hu)]; [discriminate|].
    rewrite Hu. reflexivity. }
  rewrite Hdocs, Executor_runContinuously_cycles.
  eexists. split; [reflexivity|].
  apply (executor_cycles_frame envs
           {| db := (documents s ++ [stored c body])%list; calls := [] |}
           (stored c body)).
  - simpl. rewrite map_app. simpl. apply NoDup_snoc; assumption.
  - simpl. apply in_or_app. right. left. reflexivity.
  - reflexivity.
Qed.

(** The Verifier sets [verified] to [true] only on ledger evidence
    gathered in that very pass: the record's network was configured, the claim
    transaction was found and had succeeded, and every grant line passed both
    checks against the expected key. *)
Theorem verified_only_on_ledger_evidence env a d d' w :
  findOne (_id a) (db w) = Some d ->
  verified d <> Some true ->
  findOne (_id a) (db (world_of (Verifier.verifyApproval env a w))) = Some d' ->
  verified d' = Some true ->
  exists key tx,
    VerifierSpec.resolves env a key /\
    getTransaction env (transactionSignature a) = inr (Some tx) /\
    Verifier.transaction_failed tx = false /\
    forallb (VerifierSpec.grant_passes env key) (approvals a) = true.
Proof.
  intros Hf Hnv Hf' Hv.
  destruct (verifyApproval_outcome env a)
    as [(msg & _ & Hrun) | (write & new & Hout & Hrun)];
    rewrite Hrun in Hf'; simpl in Hf'.
  - rewrite Hf in Hf'. inversion Hf'; subst. contradiction.
  - destruct Hout as [H|key msg Hr Ht|key Hr Ht|key tx Hr Ht Hfl|key tx Hr Ht Hfl];
      simpl in Hf'.
    + rewrite Hf in Hf'. inversion Hf'; subst. contradiction.
    + rewrite findOne_updateOne_same in Hf' by apply set_executed_keeps_id.
      rewrite Hf in Hf'. inversion Hf'; subst. contradiction.
    + rewrite findOne_updateOne_same in Hf' by apply set_executed_keeps_id.
      rewrite Hf in Hf'. inversion Hf'; subst. contradiction.
    + rewrite findOne_updateOne_same in Hf' by apply set_executed_keeps_id.
      rewrite Hf in Hf'. inversion Hf'; subst. contradiction.
    + destruct (forallb (VerifierSpec.grant_passes env key) (approvals a)) eqn:Hall.
      * exists key, tx. auto.
      * rewrite findOne_updateOne_same in Hf' by apply set_unverified_keeps_id.
        rewrite Hf in Hf'. inversion Hf'; subst. discriminate.
Qed.

End Evidence.

Section ExecutorEvidence.

Import ExecutorSpec.

(** The Transfer Executor sets [transferred] to [true] only when the
    configuration resolved to a signing key that is the record's delegate, and
    either the grant loop batched nothing (the settlement signature is then
    left as it was) or [sendRawTransaction] returned a signature for the batch
    that [confirmTransaction] accepted, that signature being the one
    recorded. *)
Theorem transferred_only_after_confirmation env a d d' w :
  findOne (_id a) (db w) = Some d ->
  transferred d <> Some true ->
  findOne (_id a) (db (world_of (Executor.transferApproval env a w))) = Some d' ->
  transferred d' = Some true ->
  exists dk destk,
    executor_ready env a dk destk /\
    delegate a = Some dk /\
    (transfer_batch env dk destk a = [] /\
     transferTransactionSignature d' = transferTransactionSignature d /\
     reason d' = Some "No valid transfers to execute"
     \/
     exists signature,
       transfer_batch env dk destk a <> [] /\
       sendRawTransaction env (transfer_batch env dk destk a) = inr signature /\
       confirmTransaction env signature = inr tt /\
       transferTransactionSignature d' = Some signature).
Proof.
  intros Hf Hnt Hf' Ht.
  destruct (transferApproval_outcome env a) as (write & new & Hout & Hrun).
  rewrite Hrun in Hf'. simpl in Hf'.
  assert (Hdel : forall dk destk, executor_ready env a dk destk -> delegate a = Some dk).
  { intros dk destk (n & cfg & pk & dest & ok & _ & _ & _ & _ & _ & _ & _ & H & _).
    exact H. }
  destruct Hout as [H|msg|dk destk Hr Hb|dk destk msg Hr Hb Hbh|dk destk msg Hr Hb Hs
                    |dk destk sig msg Hr Hb Hs Hc|dk destk sig Hr Hb Hs Hc];
    simpl in Hf';
    try (rewrite findOne_updateOne_same in Hf' by apply set_executed_keeps_id;
         rewrite Hf in Hf'; inversion Hf'; subst; contradiction).
  - rewrite Hf in Hf'. inversion Hf'; subst. contradiction.
  - rewrite findOne_updateOne_same in Hf' by apply set_nothing_transferred_keeps_id.
    rewrite Hf in Hf'. inversion Hf'; subst.
    exists dk, destk. split; [exact Hr|]. split; [apply (Hdel dk destk Hr)|].
    left. auto.
  - rewrite findOne_updateOne_same in Hf' by apply set_transferred_keeps_id.
    rewrite Hf in Hf'. inversion Hf'; subst.
    exists dk, destk. split; [exact Hr|]. split; [apply (Hdel dk destk Hr)|].
    right. exists sig. auto.
Qed.

(** A record the Transfer Executor selected comes out of a pass unchanged
    only if its configuration has a problem (network, signing key,
    destination, or a key that is not the record's delegate): whatever else
    goes wrong is written onto the record. *)
Theorem selected_record_survives_only_a_configuration_problem env a w :
  findOne (_id a) (db w) = Some a ->
  Executor.query a = true ->
  findOne (_id a) (db (world_of (Executor.transferApproval env a w))) = Some a ->
  config_problem env a.
Proof.
  intros Hf Hq Hf'.
  destruct (transferApproval_outcome env a) as (write & new & Hout & Hrun).
  rewrite Hrun in Hf'. simpl in Hf'.
  apply Executor_query_spec in Hq. destruct Hq as (_ & He & Ht).
  destruct Hout as [H|msg|dk destk Hr Hb|dk destk msg Hr Hb Hbh|dk destk msg Hr Hb Hs
                    |dk destk sig msg Hr Hb Hs Hc|dk destk sig Hr Hb Hs Hc];
    simpl in Hf'; [exact H| | | | | |];
    try (rewrite findOne_updateOne_same in Hf' by apply set_executed_keeps_id;
         rewrite Hf in Hf'; inversion Hf' as [E];
         apply (f_equal executed) in E; simpl in E; symmetry in E; contradiction).
  - rewrite findOne_updateOne_same in Hf' by apply set_nothing_transferred_keeps_id.
    rewrite Hf in Hf'. inversion Hf' as [E].
    apply (f_equal transferred) in E. simpl in E. symmetry in E. contradiction.
  - rewrite findOne_updateOne_same in Hf' by apply set_transferred_keeps_id.
    rewrite Hf in Hf'. inversion Hf' as [E].
    apply (f_equal transferred) in E. simpl in E. symmetry in E. contradiction.
Qed.

End ExecutorEvidence.

Lemma ingested_record_waits_for_the_verifier_witness :
  let body := {| Route.body_owner := Some "Alice";
                 Route.body_delegate := Some "Custodian";
                 Route.body_approvals := Route.Lines [Scenario.grant_A];
                 Route.body_transactionSignature := Some "sigA";
                 Route.body_network := Some "mainnet-beta" |} in
  let c := {| Route.date := 10; Route.client_connect := inr tt;
              Route.insertedId := 7 |} in
  let s := {| Route.connected := false;
              Route.documents := [Scenario.bob_verified] |} in
  exists w',
    Executor.runContinuously [Scenario.honest 100; Scenario.honest 200]
      {| db := Route.documents (snd (Route.POST c (inr body) s)); calls := [] |} =
      Returned tt w' /\
    findOne 7 (db w') = Some (Route.stored c body) /\
    calls_for 7 (calls w') = [].
Proof.
  intros body c s.
  apply (ingested_record_waits_for_the_verifier c body s
           [Scenario.honest 100; Scenario.honest 200]).
  - reflexivity.
  - right. exists tt. reflexivity.
  - simpl. constructor; [intros [] | constructor].
  - simpl. intros [H|[]]. discriminate.
Defined.

Lemma verified_only_on_ledger_evidence_witness :
  let env := Scenario.honest 100 in
  exists key tx,
    VerifierSpec.resolves env Scenario.alice key /\
    getTransaction env (transactionSignature Scenario.alice) = inr (Some tx) /\
    Verifier.transaction_failed tx = false /\
    forallb (VerifierSpec.grant_passes env key) (approvals Scenario.alice) = true.
Proof.
  intros env.
  apply (verified_only_on_ledger_evidence env Scenario.alice Scenario.alice
           (set_verified 100
              [{| vr_tokenAccount := "A"; vr_verified := true;
                  vr_delegatedAmount := Some "500"; vr_reason := None |}]
              Scenario.alice)
           (Scenario.store [Scenario.alice])).
  - reflexivity.
  - discriminate.
  - reflexivity.
  - reflexivity.
Defined.

Lemma transferred_only_after_confirmation_witness :
  let env := Scenario.honest 300 in
  exists dk destk,
    executor_ready env Scenario.alice_verified dk destk /\
    delegate Scenario.alice_verified = Some dk /\
    (transfer_batch env dk destk Scenario.alice_verified = [] /\
     transferTransactionSignature Scenario.alice_transferred =
       transferTransactionSignature Scenario.alice_verified /\
     reason Scenario.alice_transferred = Some "No valid transfers to execute"
     \/
     exists signature,
       transfer_batch env dk destk Scenario.alice_verified <> [] /\
       sendRawTransaction env (transfer_batch env dk destk Scenario.alice_verified)
         = inr signature /\
       confirmTransaction env signature = inr tt /\
       transferTransactionSignature Scenario.alice_transferred = Some signature).
Proof.
  intros env.
  apply (transferred_only_after_confirmation env Scenario.alice_verified
           Scenario.alice_verified Scenario.alice_transferred
           (Scenario.store [Scenario.alice_verified])).
  - reflexivity.
  - discriminate.
  - reflexivity.
  - reflexivity.
Defined.

Lemma selected_record_survives_only_a_configuration_problem_witness :
  let env := Scenario.honest 100 in
  let mallory := with_delegate (Some "Mallory") Scenario.alice_verified in
  Executor.query mallory = true /\ ExecutorSpec.config_problem env mallory.
Proof.
  intros env mallory. split; [reflexivity|].
  apply (selected_record_survives_only_a_configuration_problem env mallory
           (Scenario.store [mallory])).
  - reflexivity.
  - reflexivity.
  - reflexivity.
Defined.

(** A record without grant lines, which ingestion refuses but the
    Verifier does not, is verified vacuously once its claim transaction is
    found to have succeeded: [verified] is set with an empty result list and
    no token account is read. *)
Theorem record_without_grants_is_verified_vacuously env a key tx d w :
  VerifierSpec.resolves env a key ->
  getTransaction env (transactionSignature a) = inr (Some tx) ->
  Verifier.transaction_failed tx = false ->
  approvals a = [] ->
  findOne (_id a) (db w) = Some d ->
  exists w',
    Verifier.verifyApproval env a w = Returned tt w' /\
    findOne (_id a) (db w') = Some (set_verified (now env) [] d) /\
    calls w' = (calls w ++ [(_id a, CallGetTransaction (transactionSignature a))])%list.
Proof.
  intros Hr Ht Hok He Hf.
  rewrite (verifyApproval_checked env a key tx w Hr Ht Hok), He.
  eexists. split; [reflexivity|]. simpl.
  rewrite findOne_updateOne_same by apply set_verified_keeps_id.
  rewrite Hf. split; reflexivity.
Qed.

Lemma record_without_grants_is_verified_vacuously_witness :
  let dan := POST_document 4 "Dan" "Custodian" [] "sigD" "mainnet-beta" 13 in
  let env := Scenario.honest 100 in
  exists w',
    Verifier.verifyApproval env dan (Scenario.store [dan]) = Returned tt w' /\
    findOne 4 (db w') = Some (set_verified 100 [] dan) /\
    calls w' = [(4, CallGetTransaction "sigD")].
Proof.
  intros dan env.
  apply (record_without_grants_is_verified_vacuously env dan "Custodian"
           Scenario.succeeded dan (Scenario.store [dan])).
  - exists "mainnet-beta". eexists. exists "Custodian". repeat split; reflexivity.
  - reflexivity.
  - reflexivity.
  - reflexivity.
  - reflexivity.
Defined.
